(** * Arrango: the genetic timetable solver (core/solver/solver.go)

    A shallow embedding of the solver package and of the input/output
    models it works on, followed by the properties of the chunk extractor,
    the candidate builder, the fitness evaluator and the evolutionary loop.

    Conventions of the embedding.
    - Go [uint] and [int] are 64-bit; they are carried as [Z] and every
      operation that can leave the range has its wrap-around written out
      ([to_int64]).
    - A Go pointer ([*Teacher], [*Classroom], [*GlobalSubject]) is
      [option addr]: [None] is nil.  Pointer comparison compares
      addresses; dereferencing reads a read-only [memory] (the pointees
      are package-level string slices that the solver never writes).
    - A fixed-size Go array ([5]T, [3]T) is a record with one field per
      cell, so its length is part of the type.
    - A [Day] slice that belongs to an Individual is a reference to a
      backing array: Individuals hold addresses into a [heap], and the
      operators that copy slice headers share those addresses.
    - A panic is a result of its own ([Panic]). *)

From Stdlib Require Import ZArith QArith Permutation.
From stdpp Require Import gmap strings list.

Local Open Scope Z_scope.

(** ** Machine integers *)

Definition int64_min : Z := - 2 ^ 63.
Definition int64_max : Z := 2 ^ 63 - 1.
Definition uint64_max : Z := 2 ^ 64 - 1.

(** The value of a 64-bit two's complement word holding [z] modulo 2^64:
    what Go's [int] arithmetic and the conversion [int(u)] keep. *)
Definition to_int64 (z : Z) : Z := (z + 2 ^ 63) mod 2 ^ 64 - 2 ^ 63.

Definition int_add (a b : Z) : Z := to_int64 (a + b).
Definition int_mul (a b : Z) : Z := to_int64 (a * b).

Definition is_uint (z : Z) : Prop := 0 <= z <= uint64_max.
Definition is_int (z : Z) : Prop := int64_min <= z <= int64_max.

(** ** Fixed-size arrays *)

Record arr5 (A : Type) : Type := Arr5 { a0 : A; a1 : A; a2 : A; a3 : A; a4 : A }.
Arguments Arr5 {A} _ _ _ _ _.
Arguments a0 {A} _.
Arguments a1 {A} _.
Arguments a2 {A} _.
Arguments a3 {A} _.
Arguments a4 {A} _.

Definition arr5_list {A} (a : arr5 A) : list A := [a0 a; a1 a; a2 a; a3 a; a4 a].

(** [a[i]] for an index in 0..4.  Every index the solver uses is a loop
    counter below 5 or [rand.Intn(5)], so the last case is index 4. *)
Definition arr5_get {A} (a : arr5 A) (i : nat) : A :=
  match i with
  | O => a0 a
  | 1%nat => a1 a
  | 2%nat => a2 a
  | 3%nat => a3 a
  | _ => a4 a
  end.

(** [a[i] = x] for an index in 0..4. *)
Definition arr5_set {A} (a : arr5 A) (i : nat) (x : A) : arr5 A :=
  match i with
  | O => Arr5 x (a1 a) (a2 a) (a3 a) (a4 a)
  | 1%nat => Arr5 (a0 a) x (a2 a) (a3 a) (a4 a)
  | 2%nat => Arr5 (a0 a) (a1 a) x (a3 a) (a4 a)
  | 3%nat => Arr5 (a0 a) (a1 a) (a2 a) x (a4 a)
  | _ => Arr5 (a0 a) (a1 a) (a2 a) (a3 a) x
  end.

Definition arr5_map {A B} (f : A -> B) (a : arr5 A) : arr5 B :=
  Arr5 (f (a0 a)) (f (a1 a)) (f (a2 a)) (f (a3 a)) (f (a4 a)).

Definition arr5_const {A} (x : A) : arr5 A := Arr5 x x x x x.

Record arr3 (A : Type) : Type := Arr3 { b0 : A; b1 : A; b2 : A }.
Arguments Arr3 {A} _ _ _.
Arguments b0 {A} _.
Arguments b1 {A} _.
Arguments b2 {A} _.

Definition arr3_list {A} (a : arr3 A) : list A := [b0 a; b1 a; b2 a].

(** ** Pointers and the read-only memory of the catalogs *)

Definition addr : Type := nat.

Definition ptr_eqb (p q : option addr) : bool :=
  match p, q with
  | None, None => true
  | Some a, Some b => Nat.eqb a b
  | _, _ => false
  end.

Record memory : Type := Memory {
  teacherAt : addr -> string;
  classroomAt : addr -> string
}.

(** ** common/models/input *)

Module input.

Record Subject : Type := mkSubject {
  GlobalSubject : option addr;
  Allocation : arr5 Z;
  Placement : string;
  Teacher : option addr;
  Classrooms : list (option addr);
  Group : string
}.

Record Division : Type := mkDivision {
  Name : string;
  Weight : Z;
  Subjects : list Subject
}.

Record InputData : Type := mkInputData {
  GlobalSubjects : list string;
  AllClassrooms : list string;
  Teachers : list string;
  Divisions : list Division
}.

End input.

(** ** common/models/output *)

Module output.

Record Subject : Type := mkSubject {
  GlobalSubject : option addr;
  Teacher : option addr;
  Classroom : option addr;
  Group : option string
}.

(** The zero value of the struct: an unused parallel position. *)
Definition zero : Subject := mkSubject None None None None.

Abbreviation SubjectsGroup := (arr3 Subject) (only parsing).
Abbreviation Day := (list (arr3 Subject)) (only parsing).
Abbreviation Days := (arr5 (list (arr3 Subject))) (only parsing).

End output.

(** ** core/solver: chunks *)

Record subjectChunk : Type := mkChunk {
  subj : input.Subject;
  size : Z
}.

(** [extractSubjectChunks]: the two nested [range] loops, appending to a
    slice that starts nil. *)
Definition extractSubjectChunks (div : input.Division) : list subjectChunk :=
  fold_left
    (fun chunks sb =>
       fold_left
         (fun chunks alloc =>
            if 0 <? alloc then chunks ++ [mkChunk sb alloc] else chunks)
         (arr5_list (input.Allocation sb)) chunks)
    (input.Subjects div) [].

(** The chunk list as the design describes it: subject by subject, one
    chunk for each non-zero entry of the allocation vector, in index
    order. *)
Definition chunksOfSubject (sb : input.Subject) : list subjectChunk :=
  List.map (mkChunk sb)
    (List.filter (fun alloc => negb (alloc =? 0)) (arr5_list (input.Allocation sb))).

Definition chunksByDesign (div : input.Division) : list subjectChunk :=
  List.flat_map chunksOfSubject (input.Subjects div).

Definition uint_allocations (sb : input.Subject) : Prop :=
  Forall is_uint (arr5_list (input.Allocation sb)).

Definition wf_division (div : input.Division) : Prop :=
  Forall uint_allocations (input.Subjects div).

(** ** Results, the random source and the heap of day slices *)

Inductive result (A : Type) : Type :=
| Ok (a : A)
| Panic (why : string).
Arguments Ok {A} a.
Arguments Panic {A} why.

(** [math/rand] is not part of the repository.  The generator is a tape
    of raw draws and a read position: the k-th call takes the k-th raw
    value and reduces it into the range asked for.  Every sequence of
    results that a real generator can give is the sequence of some tape. *)
Record rng : Type := Rng { draws : nat -> Z; pos : nat }.

Definition advance (r : rng) : rng := Rng (draws r) (S (pos r)).

(** A [Day] slice header held by an Individual points at a backing array;
    [heap] maps the address to the array's content.  Headers are never
    re-sliced and the arrays never grow once an Individual holds them, so
    a header's length is the length of the content. *)
Abbreviation heap := (list output.Day) (only parsing).

Record state : Type := State { hp : heap; rnd : rng }.

Definition M (A : Type) : Type := state -> result (A * state).

Definition ret {A} (a : A) : M A := fun st => Ok (a, st).

Definition bind {A B} (m : M A) (f : A -> M B) : M B :=
  fun st =>
    match m st with
    | Ok (a, st') => f a st'
    | Panic why => Panic why
    end.

Definition panic {A} (why : string) : M A := fun _ => Panic why.

Notation "'let*' x ':=' m 'in' k" := (bind m (fun x => k))
  (at level 10, x name, m at level 100, k at level 200).

(** [rand.Intn(n)]: panics unless [n > 0]. *)
Definition Intn (n : Z) : M Z :=
  fun st =>
    if n <=? 0 then Panic "invalid argument to Intn"
    else Ok (draws (rnd st) (pos (rnd st)) mod n,
             State (hp st) (advance (rnd st))).

(** [rand.Float64()]: a multiple of 2^-53 in [0,1), exactly representable,
    so comparing it with another finite float64 compares the rationals. *)
Definition Float64 : M Q :=
  fun st =>
    Ok (Qmake (draws (rnd st) (pos (rnd st)) mod 2 ^ 53) (2 ^ 53)%positive,
        State (hp st) (advance (rnd st))).

(** A fresh backing array for the slice [d]. *)
Definition alloc (d : output.Day) : M addr :=
  fun st => Ok (length (hp st), State (hp st ++ [d]) (rnd st)).

(** The content behind a slice header; an address the heap does not hold
    reads as the nil slice. *)
Definition loadDay (h : heap) (a : addr) : output.Day := default [] (h !! a).

(** [l[i]] with Go's bounds check. *)
Definition index {A} (l : list A) (i : Z) : M A :=
  if i <? 0 then panic "index out of range"
  else match l !! Z.to_nat i with
       | Some x => ret x
       | None => panic "index out of range"
       end.

(** ** core/solver: the solver and its individuals *)

Record Solver : Type := mkSolver {
  PopulationSize : Z;
  Generations : Z;
  MutationRate : Q
}.

(** One [Days] per division; each of its five cells is a slice header,
    the address of the [Day] array it points at.  The [[]Days] array of an
    Individual is written only while the Individual is created
    ([randomIndividual], [crossover]), so it is carried by value; the
    [Day] arrays are what [mutate] writes, and they live in the heap. *)
Record Individual : Type := mkIndividual { Timetables : list (arr5 addr) }.

(** The timetables of an Individual as read through its slice headers. *)
Definition load (h : heap) (ind : Individual) : list output.Days :=
  List.map (arr5_map (loadDay h)) (Timetables ind).

Definition pickClassroom (sb : input.Subject) : M (option addr) :=
  if 0 <? Z.of_nat (length (input.Classrooms sb)) then
    let* i := Intn (Z.of_nat (length (input.Classrooms sb))) in
    index (input.Classrooms sb) i
  else ret None.

(** [pickLeastLoadedDay]: the first day of minimal length. *)
Definition pickLeastLoadedDay (days : output.Days) : nat :=
  snd (fold_left
         (fun '(minLoad, minDay) i =>
            if (length (arr5_get days i) <? minLoad)%nat
            then (length (arr5_get days i), i)
            else (minLoad, minDay))
         [1; 2; 3; 4]%nat
         (length (a0 days), O)).

(** The period that the builder appends for one hour of a chunk: the
    lesson in position 0, the other two positions left zero. *)
Definition lessonOf (sb : input.Subject) (room : option addr) : output.Subject :=
  output.mkSubject (input.GlobalSubject sb) (input.Teacher sb) room
    (Some (input.Group sb)).

Definition periodOf (sb : input.Subject) (room : option addr) : output.SubjectsGroup :=
  Arr3 (lessonOf sb room) output.zero output.zero.

(** The inner loop of [randomIndividual]: [n] hours of [chunk] appended to
    day [dayIdx], a classroom drawn for each. *)
Fixpoint appendHours (n : nat) (sb : input.Subject) (dayIdx : nat)
    (days : output.Days) : M output.Days :=
  match n with
  | O => ret days
  | S n' =>
      let* room := pickClassroom sb in
      appendHours n' sb dayIdx
        (arr5_set days dayIdx (arr5_get days dayIdx ++ [periodOf sb room]))
  end.

Definition placeChunk (days : output.Days) (chunk : subjectChunk) : M output.Days :=
  appendHours (Z.to_nat (size chunk)) (subj chunk) (pickLeastLoadedDay days) days.

Fixpoint placeChunks (chunks : list subjectChunk) (days : output.Days) : M output.Days :=
  match chunks with
  | [] => ret days
  | chunk :: rest => let* days' := placeChunk days chunk in placeChunks rest days'
  end.

(** [timetables[dIdx] = divisionDays]: the five slices built for the
    division become the backing arrays the Individual refers to. *)
Definition storeDays (days : output.Days) : M (arr5 addr) :=
  let* p0 := alloc (a0 days) in
  let* p1 := alloc (a1 days) in
  let* p2 := alloc (a2 days) in
  let* p3 := alloc (a3 days) in
  let* p4 := alloc (a4 days) in
  ret (Arr5 p0 p1 p2 p3 p4).

Definition buildDivision (div : input.Division) : M output.Days :=
  placeChunks (extractSubjectChunks div) (arr5_const []).

Fixpoint buildDivisions (divs : list input.Division) : M (list (arr5 addr)) :=
  match divs with
  | [] => ret []
  | div :: rest =>
      let* days := buildDivision div in
      let* refs := storeDays days in
      let* more := buildDivisions rest in
      ret (refs :: more)
  end.

Definition randomIndividual (inp : input.InputData) : M Individual :=
  let* tts := buildDivisions (input.Divisions inp) in
  ret (mkIndividual tts).

Fixpoint repeatM {A} (n : nat) (m : M A) : M (list A) :=
  match n with
  | O => ret []
  | S n' => let* x := m in let* xs := repeatM n' m in ret (x :: xs)
  end.

(** [make([]Individual, n)] panics for a negative [n]. *)
Definition initializePopulation (s : Solver) (inp : input.InputData) : M (list Individual) :=
  if PopulationSize s <? 0 then panic "makeslice: len out of range"
  else repeatM (Z.to_nat (PopulationSize s)) (randomIndividual inp).

(** ** core/solver: fitness *)

(** The state of the overlap scan: the running score and the two maps
    keyed by [slotKey{day, slot}]. *)
Record scan : Type := Scan {
  score : Z;
  teacherUsed : gmap (nat * nat) (gmap string bool);
  classroomUsed : gmap (nat * nat) (gmap string bool)
}.

(** [if m[tk] == nil { m[tk] = make(map[_]bool) }] *)
Definition ensure (m : gmap (nat * nat) (gmap string bool)) (tk : nat * nat)
    : gmap (nat * nat) (gmap string bool) :=
  match m !! tk with
  | None => <[tk := ∅]> m
  | Some _ => m
  end.

(** [m[tk][x]]: a missing key reads as false. *)
Definition used (m : gmap (nat * nat) (gmap string bool)) (tk : nat * nat)
    (x : string) : bool :=
  match m !! tk with
  | None => false
  | Some inner => default false (inner !! x)
  end.

(** [m[tk][x] = true] *)
Definition mark (m : gmap (nat * nat) (gmap string bool)) (tk : nat * nat)
    (x : string) : gmap (nat * nat) (gmap string bool) :=
  <[tk := <[x := true]> (default ∅ (m !! tk))]> m.

Definition checkTeacher (mem : memory) (tk : nat * nat) (st : scan)
    (sb : output.Subject) : scan :=
  match output.Teacher sb with
  | None => st
  | Some p =>
      let tu := ensure (teacherUsed st) tk in
      if used tu tk (teacherAt mem p)
      then Scan (int_add (score st) 1000) tu (classroomUsed st)
      else Scan (score st) (mark tu tk (teacherAt mem p)) (classroomUsed st)
  end.

Definition checkClassroom (mem : memory) (tk : nat * nat) (st : scan)
    (sb : output.Subject) : scan :=
  match output.Classroom sb with
  | None => st
  | Some p =>
      let cu := ensure (classroomUsed st) tk in
      if used cu tk (classroomAt mem p)
      then Scan (int_add (score st) 1000) (teacherUsed st) cu
      else Scan (score st) (teacherUsed st) (mark cu tk (classroomAt mem p))
  end.

(** The body of [for _, subj := range sg]. *)
Definition visitLesson (mem : memory) (tk : nat * nat) (st : scan)
    (sb : output.Subject) : scan :=
  match output.GlobalSubject sb with
  | None => st
  | Some _ => checkClassroom mem tk (checkTeacher mem tk st sb) sb
  end.

(** [for slot, sg := range divTT[day]], from index [slot] on. *)
Fixpoint scanDay (mem : memory) (day slot : nat) (sgs : output.Day) (st : scan) : scan :=
  match sgs with
  | [] => st
  | sg :: rest =>
      scanDay mem day (S slot) rest
        (fold_left (visitLesson mem (day, slot)) (arr3_list sg) st)
  end.

Definition scanDivision (mem : memory) (st : scan) (divTT : output.Days) : scan :=
  fold_left (fun st day => scanDay mem day 0 (arr5_get divTT day) st)
    [0; 1; 2; 3; 4]%nat st.

Definition scanOverlaps (mem : memory) (tts : list output.Days) : scan :=
  fold_left (scanDivision mem) tts (Scan 0 ∅ ∅).

(** [remaining[i].subj.GlobalSubject == subj.GlobalSubject &&
     remaining[i].subj.Teacher == subj.Teacher]: pointer comparisons. *)
Definition matches (c : subjectChunk) (sb : output.Subject) : bool :=
  ptr_eqb (input.GlobalSubject (subj c)) (output.GlobalSubject sb)
  && ptr_eqb (input.Teacher (subj c)) (output.Teacher sb).

(** One placed lesson against every cell of [remaining]. *)
Definition countHour (remaining : list subjectChunk) (sb : output.Subject)
    : list subjectChunk :=
  match output.GlobalSubject sb with
  | None => remaining
  | Some _ =>
      List.map
        (fun c =>
           if matches c sb
           then (if 0 <? size c then mkChunk (subj c) (size c - 1) else c)
           else c)
        remaining
  end.

Definition countDivision (remaining : list subjectChunk) (days : output.Days)
    : list subjectChunk :=
  fold_left
    (fun remaining day =>
       fold_left
         (fun remaining sg => fold_left countHour (arr3_list sg) remaining)
         (arr5_get days day) remaining)
    [0; 1; 2; 3; 4]%nat remaining.

(** [score += int(c.size) * 500] for the cells still positive. *)
Definition penalise (score : Z) (remaining : list subjectChunk) : Z :=
  fold_left
    (fun score c =>
       if 0 <? size c
       then int_add score (int_mul (to_int64 (size c)) 500)
       else score)
    remaining score.

(** [for dIdx, div := range in.Divisions], from index [dIdx] on;
    [ind.Timetables[dIdx]] is bounds-checked. *)
Fixpoint checkAllocations (dIdx : nat) (divs : list input.Division)
    (tts : list output.Days) (score : Z) : result Z :=
  match divs with
  | [] => Ok score
  | div :: rest =>
      match tts !! dIdx with
      | None => Panic "index out of range"
      | Some days =>
          checkAllocations (S dIdx) rest tts
            (penalise score (countDivision (extractSubjectChunks div) days))
      end
  end.

Definition minMax (dayCounts : arr5 Z) : Z * Z :=
  fold_left
    (fun '(minC, maxC) c =>
       (if c <? minC then c else minC, if maxC <? c then c else maxC))
    [a1 dayCounts; a2 dayCounts; a3 dayCounts; a4 dayCounts]
    (a0 dayCounts, a0 dayCounts).

Definition checkBalance (score : Z) (days : output.Days) : Z :=
  let '(minC, maxC) := minMax (arr5_map (fun d => Z.of_nat (length d)) days) in
  if 4 <? maxC - minC
  then int_add score (int_mul (maxC - minC) 5)
  else score.

(** [fitness], on the timetables as read through the Individual's slice
    headers. *)
Definition fitness (mem : memory) (tts : list output.Days) (inp : input.InputData)
    : result Z :=
  match checkAllocations 0 (input.Divisions inp) tts (score (scanOverlaps mem tts)) with
  | Panic why => Panic why
  | Ok afterAlloc => Ok (fold_left checkBalance tts afterAlloc)
  end.

(** ** core/solver: crossover and mutation *)

(** [day := rand.Intn(5);
     child.Timetables[dx][day] = p2.Timetables[dx][day]]: the slice header
    of the second parent is stored in the child's own [Days] cell. *)
Definition crossDay (p2 : Individual) (dx : Z) (child : list (arr5 addr))
    : M (list (arr5 addr)) :=
  let* day := Intn 5 in
  let* src := index (Timetables p2) dx in
  let* dst := index child dx in
  ret (<[Z.to_nat dx :=
           arr5_set dst (Z.to_nat day) (arr5_get src (Z.to_nat day))]> child).

(** [crossover]: [make] and [copy] give the child a [[]Days] of its own
    whose cells are the first parent's slice headers. *)
Definition crossover (p1 p2 : Individual) : M Individual :=
  let child := Timetables p1 in
  if 0 <? Z.of_nat (length (Timetables p1)) then
    let* dx := Intn (Z.of_nat (length (Timetables p1))) in
    let* child1 := crossDay p2 dx child in
    let* child2 := crossDay p2 dx child1 in
    ret (mkIndividual child2)
  else ret (mkIndividual child).

Definition readDay (a : addr) : M output.Day :=
  fun st => Ok (loadDay (hp st) a, st).

Definition writeDay (a : addr) (d : output.Day) : M unit :=
  fun st => Ok (tt, State (<[a := d]> (hp st)) (rnd st)).

(** [rand.Float64() > s.MutationRate] *)
Definition above (x rate : Q) : bool := negb (Qle_bool x rate).

(** [mutate]: the swap writes through the slice header into the backing
    array it points at. *)
Definition mutate (s : Solver) (ind : Individual) : M unit :=
  let* x := Float64 in
  if above x (MutationRate s) then ret tt
  else
    let* dx := Intn (Z.of_nat (length (Timetables ind))) in
    let* day := Intn 5 in
    let* days := index (Timetables ind) dx in
    let a := arr5_get days (Z.to_nat day) in
    let* d := readDay a in
    if 1 <? Z.of_nat (length d) then
      let* slot1 := Intn (Z.of_nat (length d)) in
      let* slot2 := Intn (Z.of_nat (length d)) in
      let* x1 := index d slot1 in
      let* x2 := index d slot2 in
      writeDay a (<[Z.to_nat slot2 := x1]> (<[Z.to_nat slot1 := x2]> d))
    else ret tt.

(** ** core/solver: Solve *)

(** What [Solve] takes from outside the repository: the catalog memory,
    the clock reading that seeds the generator, the generator (the stream
    of raw draws that a seed determines) and [sort.Slice] with the
    comparison [fits[i].fitness < fits[j].fitness] (the order it leaves
    equal scores in is the library's). *)
Record env : Type := Env {
  catalog : memory;
  unixNano : Z;
  randSource : Z -> nat -> Z;
  sortSlice : list (Individual * Z) -> list (Individual * Z)
}.

(** [s.fitness(ind, in)] as [Solve] calls it: through the heap. *)
Definition fitnessOf (mem : memory) (inp : input.InputData) (ind : Individual) : M Z :=
  fun st =>
    match fitness mem (load (hp st) ind) inp with
    | Ok f => Ok (f, st)
    | Panic why => Panic why
    end.

(** The zero value of [fitInd] that [make([]fitInd, len(pop))] leaves in
    the cells the loop does not reach. *)
Definition zeroFit : Individual * Z := (mkIndividual [], 0).

(** [for i, ind := range pop]: fills [fits], tracks the best seen, and
    breaks once the best reaches 0. *)
Fixpoint evaluate (mem : memory) (inp : input.InputData) (pop : list Individual)
    (bestIndividual : Individual) (bestFitness : Z)
    : M (list (Individual * Z) * (Individual * Z)) :=
  match pop with
  | [] => ret ([], (bestIndividual, bestFitness))
  | ind :: rest =>
      let* f := fitnessOf mem inp ind in
      if f <? bestFitness then
        if f =? 0 then ret ((ind, f) :: repeat zeroFit (length rest), (ind, f))
        else
          let* r := evaluate mem inp rest ind f in
          ret ((ind, f) :: fst r, snd r)
      else
        let* r := evaluate mem inp rest bestIndividual bestFitness in
        ret ((ind, f) :: fst r, snd r)
  end.

(** [for i := 0; i < s.PopulationSize/2; i++ { nextPop = append(nextPop,
    fits[i].ind) }], from index [i] on, [n] iterations left. *)
Fixpoint selectElite (n : nat) (i : Z) (fits : list (Individual * Z))
    (nextPop : list Individual) : M (list Individual) :=
  match n with
  | O => ret nextPop
  | S n' =>
      let* fi := index fits i in
      selectElite n' (i + 1) fits (nextPop ++ [fst fi])
  end.

(** [for len(nextPop) < s.PopulationSize]: every iteration appends one
    child, so [n] is the number of cells still missing. *)
Fixpoint reproduce (s : Solver) (n : nat) (fits : list (Individual * Z))
    (nextPop : list Individual) : M (list Individual) :=
  match n with
  | O => ret nextPop
  | S n' =>
      let* i1 := Intn (Z.quot (PopulationSize s) 2) in
      let* p1 := index fits i1 in
      let* i2 := Intn (Z.quot (PopulationSize s) 2) in
      let* p2 := index fits i2 in
      let* child := crossover (fst p1) (fst p2) in
      let* _ := mutate s child in
      reproduce s n' fits (nextPop ++ [child])
  end.

(** [for g := 0; g < s.Generations; g++], [g] generations left. *)
Fixpoint generations (mem : memory)
    (sortSlice : list (Individual * Z) -> list (Individual * Z))
    (s : Solver) (inp : input.InputData) (g : nat)
    (pop : list Individual) (bestIndividual : Individual) (bestFitness : Z)
    : M (Individual * Z) :=
  match g with
  | O => ret (bestIndividual, bestFitness)
  | S g' =>
      let* r := evaluate mem inp pop bestIndividual bestFitness in
      if snd (snd r) =? 0 then ret (snd r)
      else
        let fits := sortSlice (fst r) in
        let* elite := selectElite (Z.to_nat (Z.quot (PopulationSize s) 2)) 0 fits [] in
        let* nextPop :=
          reproduce s (Z.to_nat (PopulationSize s - Z.of_nat (length elite))) fits elite in
        generations mem sortSlice s inp g' nextPop (fst (snd r)) (snd (snd r))
  end.

(** The run of [Solve] up to its [return]: the best-seen Individual, the
    best-seen score and the machine state at that point. *)
Record outcome : Type := Outcome {
  bestIndividual : Individual;
  bestFitness : Z;
  final : state
}.

Definition solveBody (e : env) (s : Solver) (inp : input.InputData) : M (Individual * Z) :=
  let* pop := initializePopulation s inp in
  let* first := index pop 0 in
  let* f0 := fitnessOf (catalog e) inp first in
  generations (catalog e) (sortSlice e) s inp (Z.to_nat (Generations s)) pop first f0.

(** [rand.Seed(time.Now().UnixNano())] starts the tape of the seed; the
    heap holds no Individual yet. *)
Definition run (e : env) (s : Solver) (inp : input.InputData) : result outcome :=
  match solveBody e s inp (State [] (Rng (randSource e (unixNano e)) O)) with
  | Ok (b, st) => Ok (Outcome (fst b) (snd b) st)
  | Panic why => Panic why
  end.

(** [Solve]: the [DivisionsTimetables] of the returned [OutputData], as
    the caller reads them. *)
Definition Solve (e : env) (s : Solver) (inp : input.InputData)
    : result (list output.Days) :=
  match run e s inp with
  | Ok o => Ok (load (hp (final o)) (bestIndividual o))
  | Panic why => Panic why
  end.

(** ** A concrete environment and small instances *)

(** Insertion sort by ascending score, one of the orders [sort.Slice] may
    produce. *)
Fixpoint insertFit (x : Individual * Z) (l : list (Individual * Z))
    : list (Individual * Z) :=
  match l with
  | [] => [x]
  | y :: l' => if snd y <? snd x then y :: insertFit x l' else x :: y :: l'
  end.

Definition insertionSort (l : list (Individual * Z)) : list (Individual * Z) :=
  fold_right insertFit [] l.

(** A catalog where the teacher (classroom) at address [a] is named by
    the letter number [a]. *)
Definition letters : memory :=
  Memory (fun a => String (Ascii.ascii_of_nat (65 + a)) EmptyString)
         (fun a => String (Ascii.ascii_of_nat (97 + a)) EmptyString).

(** The environment whose generator gives the tape [tape] whatever the
    seed. *)
Definition tapeEnv (tape : nat -> Z) : env :=
  Env letters 0 (fun _ => tape) insertionSort.

(** One weekly hour of the global subject [g] with teacher [t], no
    classroom constraint. *)
Definition oneHour (g t : addr) : input.Subject :=
  input.mkSubject (Some g) (Arr5 1 0 0 0 0) "any" (Some t) [] "none".

(** Two divisions of six one-hour subjects each.  The builder puts the
    first and the sixth on Monday.  Division A has teachers 1 and 2 on
    Monday in that order, division B has them in the opposite order; both
    have teacher 10 on Tuesday. *)
Definition divisionA : input.Division :=
  input.mkDivision "A" 1
    [oneHour 1 1; oneHour 2 10; oneHour 3 11; oneHour 4 12; oneHour 5 13;
     oneHour 6 2]%nat.

Definition divisionB : input.Division :=
  input.mkDivision "B" 1
    [oneHour 1 2; oneHour 2 10; oneHour 3 21; oneHour 4 22; oneHour 5 23;
     oneHour 6 1]%nat.

Definition twoDivisions : input.InputData :=
  input.mkInputData [] [] [] [divisionA; divisionB].

(** Every raw draw is 0 except those at the positions [ks], which are 1. *)
Definition tapeOnes (ks : list nat) : nat -> Z :=
  fun i => if existsb (Nat.eqb i) ks then 1 else 0.

Definition tapeOneAt (k : nat) : nat -> Z := tapeOnes [k].

(** ** Vocabulary of the properties *)

(** All periods of a week, Monday first. *)
Definition periods (days : output.Days) : list output.SubjectsGroup :=
  concat (arr5_list days).

(** A period with the classroom of its first lesson forgotten (the
    classroom is the one thing the builder draws at random). *)
Definition eraseRoom (sg : output.SubjectsGroup) : output.SubjectsGroup :=
  Arr3 (output.mkSubject (output.GlobalSubject (b0 sg)) (output.Teacher (b0 sg))
          None (output.Group (b0 sg)))
       (b1 sg) (b2 sg).

(** The hours a chunk asks for: [size] single-lesson periods of its
    subject. *)
Definition hoursOf (c : subjectChunk) : list output.SubjectsGroup :=
  repeat (periodOf (subj c) None) (Z.to_nat (size c)).

(** The classroom of a built period is one of the subject's acceptable
    classrooms, or nil when the subject has none. *)
Definition roomAllowed (sb : input.Subject) (room : option addr) : Prop :=
  match input.Classrooms sb with
  | [] => room = None
  | _ => In room (input.Classrooms sb)
  end.

(** Two requirements that [fitness] cannot tell apart: same global
    subject pointer, same teacher pointer. *)
Definition sameKey (sb sb' : input.Subject) : bool :=
  ptr_eqb (input.GlobalSubject sb) (input.GlobalSubject sb')
  && ptr_eqb (input.Teacher sb) (input.Teacher sb').

(** Whether the first lesson of a period is one of requirement [sb]. *)
Definition hourOf (sb : input.Subject) (sg : output.SubjectsGroup) : bool :=
  matches (mkChunk sb 0) (b0 sg).

Definition countIf {A} (f : A -> bool) (l : list A) : nat :=
  length (List.filter f l).

Definition sumZ (l : list Z) : Z := fold_right Z.add 0 l.

Definition weeklyHours (sb : input.Subject) : Z := sumZ (arr5_list (input.Allocation sb)).

(** The spread of a week: longest day minus shortest day. *)
Definition dayLengths (days : output.Days) : list Z :=
  List.map (fun d => Z.of_nat (length d)) (arr5_list days).

Definition maxZ (l : list Z) : Z := fold_right Z.max 0 l.

Definition minLength (days : output.Days) : Z :=
  fold_right Z.min (Z.of_nat (length (a0 days))) (dayLengths days).

Definition spread (days : output.Days) : Z := maxZ (dayLengths days) - minLength days.

Definition largestChunk (div : input.Division) : Z :=
  maxZ (List.map size (extractSubjectChunks div)).

(** What the greedy placement of a chunk list does to a week, whatever
    classrooms are drawn. *)
Inductive placed : list subjectChunk -> output.Days -> output.Days -> Prop :=
| placed_nil days : placed [] days days
| placed_cons c rest days rooms days' :
    length rooms = Z.to_nat (size c) ->
    Forall (roomAllowed (subj c)) rooms ->
    placed rest
      (arr5_set days (pickLeastLoadedDay days)
         (arr5_get days (pickLeastLoadedDay days)
            ++ List.map (periodOf (subj c)) rooms))
      days' ->
    placed (c :: rest) days days'.

(** A single-lesson period of one of the chunks, in an allowed
    classroom. *)
Definition builtPeriod (chunks : list subjectChunk) (sg : arr3 output.Subject) : Prop :=
  exists c room,
    In c chunks /\ roomAllowed (subj c) room /\ sg = periodOf (subj c) room.

(** The sum of [g] over the members of [l] that satisfy [f]. *)
Definition sumIf {A} (f : A -> bool) (g : A -> Z) (l : list A) : Z :=
  sumZ (List.map (fun x => if f x then g x else 0) l).

(** ** The penalties, as the design states them *)

(** Who is booked by a lesson: the teacher's name, the classroom's name.
    Bookings are compared by name, as [fitness] keys its maps by the
    pointee. *)
Definition teacherName (mem : memory) (sb : output.Subject) : option string :=
  teacherAt mem <$> output.Teacher sb.

Definition classroomName (mem : memory) (sb : output.Subject) : option string :=
  classroomAt mem <$> output.Classroom sb.

(** The booking of one lesson at slot key [tk]; a lesson without a
    subject is an unused position and books nothing. *)
Definition booking (who : output.Subject -> option string) (tk : nat * nat)
    (sb : output.Subject) : list (nat * nat * string) :=
  match output.GlobalSubject sb with
  | None => []
  | Some _ =>
      match who sb with
      | Some x => [(tk, x)]
      | None => []
      end
  end.

Fixpoint dayBookings (who : output.Subject -> option string) (day slot : nat)
    (sgs : output.Day) : list (nat * nat * string) :=
  match sgs with
  | [] => []
  | sg :: rest =>
      List.flat_map (booking who (day, slot)) (arr3_list sg)
      ++ dayBookings who day (S slot) rest
  end.

Definition weekBookings (who : output.Subject -> option string)
    (days : output.Days) : list (nat * nat * string) :=
  List.flat_map (fun day => dayBookings who day 0 (arr5_get days day))
    [0; 1; 2; 3; 4]%nat.

(** All bookings of an Individual, across its divisions. *)
Definition bookings (who : output.Subject -> option string)
    (tts : list output.Days) : list (nat * nat * string) :=
  List.flat_map (weekBookings who) tts.

(** The number of bookings beyond the first of each (weekday, period,
    name): occurrences minus distinct bookings. *)
Definition extras (l : list (nat * nat * string)) : Z :=
  Z.of_nat (length l) - Z.of_nat (base.size (list_to_set (C := gset (nat * nat * string)) l)).

(** A lesson that [fitness] counts for chunk [c]. *)
Definition countsFor (c : subjectChunk) (sb : output.Subject) : bool :=
  match output.GlobalSubject sb with
  | None => false
  | Some _ => matches c sb
  end.

(** All lesson positions of a week. *)
Definition positions (days : output.Days) : list output.Subject :=
  List.flat_map arr3_list (periods days).

Definition placedHours (c : subjectChunk) (days : output.Days) : Z :=
  Z.of_nat (countIf (countsFor c) (positions days)).

(** Hours of chunk [c] still missing in [days]. *)
Definition shortfall (c : subjectChunk) (days : output.Days) : Z :=
  Z.max 0 (size c - placedHours c days).

Definition unmet (div : input.Division) (days : output.Days) : Z :=
  sumZ (List.map (fun c => shortfall c days) (extractSubjectChunks div)).

(** Missing hours of every division, each against the week at its own
    index. *)
Fixpoint unmetAll (divs : list input.Division) (tts : list output.Days) : Z :=
  match divs, tts with
  | div :: divs', days :: tts' => unmet div days + unmetAll divs' tts'
  | _, _ => 0
  end.

Definition imbalance (days : output.Days) : Z :=
  if 4 <? spread days then spread days * 5 else 0.

(** The score of the design's table, as an unbounded integer. *)
Definition penalty (mem : memory) (tts : list output.Days) (inp : input.InputData) : Z :=
  1000 * extras (bookings (teacherName mem) tts)
  + 1000 * extras (bookings (classroomName mem) tts)
  + 500 * unmetAll (input.Divisions inp) tts
  + sumZ (List.map imbalance tts).

(** An Individual the design calls perfect. *)
Definition noConflict (who : output.Subject -> option string)
    (tts : list output.Days) : Prop :=
  NoDup (bookings who tts).

Definition allocationsMet (inp : input.InputData) (tts : list output.Days) : Prop :=
  Forall2
    (fun div days =>
       Forall (fun c => size c <= placedHours c days) (extractSubjectChunks div))
    (input.Divisions inp) (take (length (input.Divisions inp)) tts).

Definition balanced (tts : list output.Days) : Prop :=
  Forall (fun days => spread days <= 4) tts.

Definition perfect (mem : memory) (inp : input.InputData) (tts : list output.Days) : Prop :=
  noConflict (teacherName mem) tts
  /\ noConflict (classroomName mem) tts
  /\ allocationsMet inp tts
  /\ balanced tts.

(** ** Invariants of the overlap scan *)

(** The map [m] holds exactly the bookings of [l]. *)
Definition records (m : gmap (nat * nat) (gmap string bool))
    (l : list (nat * nat * string)) : Prop :=
  forall tk x, used m tk x = true <-> (tk, x) ∈ l.

(** The scan has seen the teacher bookings [lt] and the classroom
    bookings [lc]. *)
Definition scanInv (st : scan) (lt lc : list (nat * nat * string)) : Prop :=
  score st = to_int64 (1000 * extras lt + 1000 * extras lc)
  /\ records (teacherUsed st) lt
  /\ records (classroomUsed st) lc.

(** ** Editing one lesson position of an Individual *)

Definition arr3_get {A} (a : arr3 A) (i : nat) : A :=
  match i with
  | O => b0 a
  | 1%nat => b1 a
  | _ => b2 a
  end.

Definition arr3_set {A} (a : arr3 A) (i : nat) (x : A) : arr3 A :=
  match i with
  | O => Arr3 x (b1 a) (b2 a)
  | 1%nat => Arr3 (b0 a) x (b2 a)
  | _ => Arr3 (b0 a) (b1 a) x
  end.

(** A lesson position: division, weekday (0..4), period, parallel
    position (0..2). *)
Record place : Type := Place { pDiv : nat; pDay : nat; pSlot : nat; pPos : nat }.

Definition wfPlace (p : place) : Prop := (pDay p <= 4)%nat /\ (pPos p <= 2)%nat.

Definition slotOf (p : place) : nat * nat := (pDay p, pSlot p).

Definition lessonAt (tts : list output.Days) (p : place) : option output.Subject :=
  match tts !! pDiv p with
  | None => None
  | Some days =>
      match arr5_get days (pDay p) !! pSlot p with
      | None => None
      | Some sg => Some (arr3_get sg (pPos p))
      end
  end.

(** The Individual with the lesson at [p] replaced by [sb], everything
    else as it was. *)
Definition setLesson (tts : list output.Days) (p : place) (sb : output.Subject)
    : list output.Days :=
  match tts !! pDiv p with
  | None => tts
  | Some days =>
      match arr5_get days (pDay p) !! pSlot p with
      | None => tts
      | Some sg =>
          <[pDiv p :=
              arr5_set days (pDay p)
                (<[pSlot p := arr3_set sg (pPos p) sb]> (arr5_get days (pDay p)))]> tts
      end
  end.

(** Every booking the lesson [sb] makes at slot [tk] occurs exactly once
    among the bookings of the Individual. *)
Definition bookedOnce (who : output.Subject -> option string)
    (tts : list output.Days) (tk : nat * nat) (sb : output.Subject) : Prop :=
  Forall
    (fun b => countIf (fun b' => bool_decide (b' = b)) (bookings who tts) = 1%nat)
    (booking who tk sb).

(** Every booking the lesson [sb] would make at slot [tk] is absent from
    the bookings of the Individual. *)
Definition notBooked (who : output.Subject -> option string)
    (tts : list output.Days) (tk : nat * nat) (sb : output.Subject) : Prop :=
  Forall (fun b => b ∉ bookings who tts) (booking who tk sb).

(** ** Instances for the evaluation of [fitness] *)

(** One requirement asking for 18446744073709552 hours, and an
    Individual whose week is empty. *)
Definition hugeDivision : input.Division :=
  input.mkDivision "H" 1
    [input.mkSubject (Some 1%nat) (Arr5 18446744073709552 0 0 0 0) "any"
       (Some 1%nat) [] "none"].

Definition hugeInstance : input.InputData := input.mkInputData [] [] [] [hugeDivision].

Definition emptyWeek : output.Days := arr5_const [].

(** One requirement with two chunks of one hour each, and an Individual
    that holds a single lesson of it on Monday. *)
Definition twiceOne : input.Subject :=
  input.mkSubject (Some 1%nat) (Arr5 1 1 0 0 0) "any" (Some 1%nat) [] "none".

Definition twiceOneInstance : input.InputData :=
  input.mkInputData [] [] [] [input.mkDivision "T" 1 [twiceOne]].

Definition oneLessonWeek : output.Days :=
  Arr5 [periodOf twiceOne None] [] [] [] [].

Definition monday0 : place := Place 0 0 0 0.

(** Two divisions with one one-hour requirement each (teachers 1 and 2),
    and the perfect Individual that holds both lessons on Monday, first
    period. *)
Definition pairInstance : input.InputData :=
  input.mkInputData [] [] []
    [input.mkDivision "X" 1 [oneHour 1%nat 1%nat];
     input.mkDivision "Y" 1 [oneHour 2%nat 2%nat]].

Definition pairWeeks : list output.Days :=
  [Arr5 [periodOf (oneHour 1%nat 1%nat) None] [] [] [] [];
   Arr5 [periodOf (oneHour 2%nat 2%nat) None] [] [] [] []].

(** The second parallel position of division Y's Monday, first period. *)
Definition spare : place := Place 1 0 0 1.

(** A lesson of teacher 1, who already teaches division X at that time. *)
Definition clash : output.Subject :=
  output.mkSubject (Some 3%nat) (Some 1%nat) None None.

(** The lesson of division X in [pairWeeks]. *)
Definition firstOfX : place := Place 0 0 0 0.

(** ** Scenarios for crossover, mutation and [Solve] *)

(** The body of the reproduction loop for given parents. *)
Definition breed (s : Solver) (p1 p2 : Individual) : M Individual :=
  let* child := crossover p1 p2 in
  let* _ := mutate s child in
  ret child.

(** Two Individuals built for [twoDivisions], then one child bred from
    them; the result keeps the parents and the states before and after
    breeding. *)
Definition breedScenario (s : Solver) (tape : nat -> Z)
    : result (Individual * Individual * state * Individual * state) :=
  match randomIndividual twoDivisions (State [] (Rng tape O)) with
  | Panic why => Panic why
  | Ok (p1, st1) =>
      match randomIndividual twoDivisions st1 with
      | Panic why => Panic why
      | Ok (p2, st2) =>
          match breed s p1 p2 st2 with
          | Panic why => Panic why
          | Ok (child, st3) => Ok (p1, p2, st2, child, st3)
          end
      end
  end.

(** The teachers on Monday of division [d], in period order, as read
    through the Individual's slice headers. *)
Definition mondayTeachers (h : list (list (arr3 output.Subject))) (ind : Individual)
    (d : nat) : list (option addr) :=
  match load h ind !! d with
  | None => []
  | Some days => List.map (fun sg => output.Teacher (b0 sg)) (a0 days)
  end.

(** The scores of the initial population of a run. *)
Definition initialScores (e : env) (s : Solver) (inp : input.InputData)
    : result (list (result Z)) :=
  match initializePopulation s inp (State [] (Rng (randSource e (unixNano e)) O)) with
  | Panic why => Panic why
  | Ok (pop, st) => Ok (List.map (fun ind => fitness (catalog e) (load (hp st) ind) inp) pop)
  end.

(** The scores of a population as [fitness] reads them through heap [h]. *)
Definition scoresIn (mem : memory) (inp : input.InputData)
    (h : list (list (arr3 output.Subject))) (pop : list Individual)
    : list (result Z) :=
  List.map (fun ind => fitness mem (load h ind) inp) pop.

(** The backing arrays an Individual's slice headers point at. *)
Definition cells (ind : Individual) : list addr :=
  List.flat_map arr5_list (Timetables ind).

(** An Individual with one week per division of the instance. *)
Definition sized (inp : input.InputData) (ind : Individual) : Prop :=
  length (Timetables ind) = length (input.Divisions inp).

(** ** Vocabulary of the further properties *)

(** Every requirement of the instance names a global subject. *)
Definition subjectsNamed (inp : input.InputData) : Prop :=
  Forall
    (fun div => Forall (fun sb => input.GlobalSubject sb <> None) (input.Subjects div))
    (input.Divisions inp).

(** A block: a chunk together with the classrooms drawn for its hours.
    Its periods are the consecutive single-lesson periods of the chunk. *)
Definition blockPeriods (b : subjectChunk * list (option addr))
    : list (arr3 output.Subject) :=
  List.map (periodOf (subj (fst b))) (snd b).

Definition blocksPeriods (bs : list (subjectChunk * list (option addr)))
    : list (arr3 output.Subject) :=
  List.flat_map blockPeriods bs.

(** A block that holds exactly [size] hours, each in an allowed
    classroom. *)
Definition wholeBlock (b : subjectChunk * list (option addr)) : Prop :=
  length (snd b) = Z.to_nat (size (fst b))
  /\ Forall (roomAllowed (subj (fst b))) (snd b).

(** A week that is, day by day, a sequence of whole blocks, the blocks
    being those of the chunks [chunks], each chunk once. *)
Definition weekOfBlocks (chunks : list subjectChunk) (days : output.Days) : Prop :=
  exists assign : arr5 (list (subjectChunk * list (option addr))),
    days = arr5_map blocksPeriods assign
    /\ Forall wholeBlock (concat (arr5_list assign))
    /\ List.map fst (concat (arr5_list assign)) ≡ₚ chunks.

(** Two weeks that hold the same periods on each weekday, up to order. *)
Definition sameLessons (w w' : output.Days) : Prop :=
  Forall2 (fun d d' => d ≡ₚ d') (arr5_list w) (arr5_list w').

(** A heap of five arrays, Monday holding two periods, and the
    Individual of one division whose headers point at them. *)
Definition smallState (tape : nat -> Z) : state :=
  State [[periodOf (oneHour 1%nat 1%nat) None; periodOf (oneHour 2%nat 2%nat) None];
         []; []; []; []]
        (Rng tape O).

Definition smallInd : Individual := mkIndividual [Arr5 0 1 2 3 4]%nat.

(** A row of slice headers each of which is the header of [row1] or, if
    the second parent has a row, of that row, at the same weekday. *)
Definition mixedRow (row1 : arr5 addr) (row2 : option (arr5 addr))
    (rowc : arr5 addr) : Prop :=
  forall day,
    arr5_get rowc day = arr5_get row1 day
    \/ exists r2, row2 = Some r2 /\ arr5_get rowc day = arr5_get r2 day.

(** The child's rows against the parents' rows: equal to the first
    parent's outside division [dx], mixed at [dx]. *)
Definition bredFrom (p1 p2 : list (arr5 addr)) (dx : nat) (child : list (arr5 addr))
    : Prop :=
  length child = length p1
  /\ forall d row1,
       p1 !! d = Some row1 ->
       exists rowc,
         child !! d = Some rowc
         /\ (d <> dx -> rowc = row1)
         /\ mixedRow row1 (p2 !! d) rowc.

(** A period whose second and third positions are unused. *)
Definition singleLesson (sg : arr3 output.Subject) : Prop :=
  b1 sg = output.zero /\ b2 sg = output.zero.

(** * The timetable view (src/web/mock/src/components/Timetable.vue)

    The component receives one division's week of timetables.json: an
    array of days, a day being [null] (a nil slice) or an array of groups,
    a group an array of lesson objects.  A field that the encoder omitted
    is absent from the object. *)

Module Timetable.

Record Subject := mkSubject {
  global_subject : option string;
  teacher        : option string;
  classroom      : option string
}.

(** Truthiness of a field that is absent or holds a string. *)
Definition truthy (v : option string) : bool :=
  match v with
  | None => false
  | Some s => negb (String.eqb s EmptyString)
  end.

(** The numbers the component computes with. *)
Inductive number := NegInfinity | Num (n : Z).

Definition max (a b : number) : number :=
  match a, b with
  | NegInfinity, _ => b
  | _, NegInfinity => a
  | Num x, Num y => Num (Z.max x y)
  end.

(** [Math.max(...xs)]: minus infinity without arguments. *)
Definition Math_max (xs : list number) : number := foldr max NegInfinity xs.

Definition Day := option (list (list Subject)).

Definition hasSubject (group : list Subject) : bool :=
  existsb (fun subject => truthy (global_subject subject)) group.

Definition actualRows (divisionData : list Day) : number :=
  Math_max
    (map (fun day : Day =>
            match day with
            | Some day => Num (Z.of_nat (length (List.filter hasSubject day)))
            | None => Num 0
            end)
         divisionData).

End Timetable.

(** The length of a day of the view, and of its longest day. *)
Definition viewLength (day : Timetable.Day) : Z :=
  match day with
  | Some day => Z.of_nat (length day)
  | None => 0
  end.

Definition viewLongest (divisionData : list Timetable.Day) : Z :=
  foldr Z.max 0 (map viewLength divisionData).

(** Every group of the day holds a lesson with a subject. *)
Definition viewFilled (day : Timetable.Day) : Prop :=
  match day with
  | Some day => Forall (fun group => Timetable.hasSubject group = true) day
  | None => True
  end.

(** Some group of the day holds no lesson with a subject. *)
Definition viewGap (day : Timetable.Day) : Prop :=
  match day with
  | Some day => Exists (fun group => Timetable.hasSubject group = false) day
  | None => False
  end.

(** * Properties *)

(** ** Machine integers *)

Lemma to_int64_small (z : Z) : is_int z -> to_int64 z = z.
Proof.
  unfold is_int, int64_min, int64_max, to_int64. intros Hz.
  rewrite Z.mod_small; lia.
Qed.

Lemma to_int64_idem (a b : Z) : to_int64 (to_int64 a + b) = to_int64 (a + b).
Proof.
  unfold to_int64.
  replace ((a + 2 ^ 63) mod 2 ^ 64 - 2 ^ 63 + b + 2 ^ 63)
    with ((a + 2 ^ 63) mod 2 ^ 64 + b) by lia.
  rewrite Zplus_mod_idemp_l. f_equal. f_equal. lia.
Qed.

Lemma to_int64_mul_idem (a b : Z) : to_int64 (to_int64 a * b) = to_int64 (a * b).
Proof.
  unfold to_int64. f_equal.
  replace (((a + 2 ^ 63) mod 2 ^ 64 - 2 ^ 63) * b + 2 ^ 63)
    with ((a + 2 ^ 63) mod 2 ^ 64 * b + (2 ^ 63 - 2 ^ 63 * b)) by lia.
  rewrite <- Zplus_mod_idemp_l, Zmult_mod_idemp_l, Zplus_mod_idemp_l.
  f_equal. lia.
Qed.

Lemma int_add_acc (a b c : Z) : int_add (to_int64 a) (int_mul (to_int64 b) c) = to_int64 (a + b * c).
Proof.
  unfold int_add, int_mul.
  rewrite to_int64_mul_idem, to_int64_idem, Z.add_comm, to_int64_idem.
  f_equal. lia.
Qed.

Lemma int_add_const (a c : Z) : int_add (to_int64 a) c = to_int64 (a + c).
Proof. unfold int_add. apply to_int64_idem. Qed.

(** ** The chunk extractor *)

Lemma extract_inner (sb : input.Subject) (l : list Z) (acc : list subjectChunk) :
  fold_left
    (fun chunks alloc =>
       if 0 <? alloc then chunks ++ [mkChunk sb alloc] else chunks) l acc
  = acc ++ List.map (mkChunk sb) (List.filter (fun alloc => 0 <? alloc) l).
Proof.
  revert acc; induction l as [|a l IH]; intros acc; simpl.
  - by rewrite app_nil_r.
  - rewrite IH. destruct (0 <? a); simpl; [by rewrite <- app_assoc | done].
Qed.

Lemma extract_outer (sbs : list input.Subject) (acc : list subjectChunk) :
  fold_left
    (fun chunks sb =>
       fold_left
         (fun chunks alloc =>
            if 0 <? alloc then chunks ++ [mkChunk sb alloc] else chunks)
         (arr5_list (input.Allocation sb)) chunks) sbs acc
  = acc ++ List.flat_map
             (fun sb => List.map (mkChunk sb)
                (List.filter (fun alloc => 0 <? alloc)
                   (arr5_list (input.Allocation sb)))) sbs.
Proof.
  revert acc; induction sbs as [|sb sbs IH]; intros acc; cbn [fold_left List.flat_map].
  - by rewrite app_nil_r.
  - rewrite IH, extract_inner. by rewrite <- app_assoc.
Qed.

Lemma extractSubjectChunks_flat (div : input.Division) :
  extractSubjectChunks div
  = List.flat_map
      (fun sb => List.map (mkChunk sb)
         (List.filter (fun alloc => 0 <? alloc)
            (arr5_list (input.Allocation sb)))) (input.Subjects div).
Proof. unfold extractSubjectChunks. by rewrite extract_outer. Qed.

Lemma filter_positive_nonzero (l : list Z) :
  Forall is_uint l ->
  List.filter (fun alloc => 0 <? alloc) l
  = List.filter (fun alloc => negb (alloc =? 0)) l.
Proof.
  induction 1 as [|a l [Ha _] _ IH]; simpl; [done|].
  rewrite IH.
  destruct (Z.ltb_spec 0 a), (Z.eqb_spec a 0); simpl; try done; lia.
Qed.

Lemma chunk_sizes_positive (div : input.Division) :
  Forall (fun c => 0 < size c) (extractSubjectChunks div).
Proof.
  rewrite extractSubjectChunks_flat. apply List.Forall_forall. intros c Hc.
  apply in_flat_map in Hc as (sb & _ & Hc).
  apply in_map_iff in Hc as (a & <- & Ha).
  apply filter_In in Ha as [_ Ha]. simpl. lia.
Qed.

(** C5. For a division whose allocation entries are in the range of
    [uint], [extractSubjectChunks] returns exactly the design's chunk
    list: subject by subject in the order of [Subjects], and within a
    subject one chunk for each non-zero entry of the allocation vector, in
    index order, the chunk's size being that entry.  The function is a
    plain function of the division: it reads no heap and no random
    source. *)
Theorem extractSubjectChunks_by_design (div : input.Division) :
  wf_division div ->
  extractSubjectChunks div = chunksByDesign div.
Proof.
  intros Hwf. rewrite extractSubjectChunks_flat.
  unfold chunksByDesign, wf_division in *.
  induction Hwf as [|sb sbs Hsb _ IH]; cbn [List.flat_map]; [done|].
  rewrite IH. f_equal. unfold chunksOfSubject.
  by rewrite (filter_positive_nonzero _ Hsb).
Qed.

Lemma divisionA_wf : wf_division divisionA.
Proof.
  unfold wf_division, divisionA, uint_allocations; simpl.
  repeat constructor; unfold is_uint, uint64_max; simpl; lia.
Defined.

Lemma extractSubjectChunks_by_design_witness :
  wf_division divisionA /\ extractSubjectChunks divisionA = chunksByDesign divisionA.
Proof.
  split; [exact divisionA_wf | apply extractSubjectChunks_by_design; exact divisionA_wf].
Defined.

(** ** The candidate builder *)

Lemma index_in_range {A} (l : list A) (i : Z) (st : state) :
  0 <= i < Z.of_nat (length l) ->
  exists x, index l i st = Ok (x, st) /\ l !! Z.to_nat i = Some x.
Proof.
  intros Hi. unfold index.
  destruct (Z.ltb_spec i 0) as [|_]; [lia|].
  destruct (l !! Z.to_nat i) as [x|] eqn:E.
  - by exists x.
  - apply lookup_ge_None in E. lia.
Qed.

Lemma Intn_ok (n : Z) (st : state) :
  0 < n ->
  exists v, Intn n st = Ok (v, State (hp st) (advance (rnd st))) /\ 0 <= v < n.
Proof.
  intros Hn. unfold Intn.
  destruct (Z.leb_spec n 0) as [|_]; [lia|].
  eexists. split; [reflexivity|]. by apply Z.mod_pos_bound.
Qed.

Lemma pickClassroom_ok (sb : input.Subject) (st : state) :
  exists room r',
    pickClassroom sb st = Ok (room, State (hp st) r') /\ roomAllowed sb room.
Proof.
  unfold pickClassroom, roomAllowed. destruct st as [h r].
  destruct (input.Classrooms sb) as [|c cs] eqn:E.
  - simpl. by exists None, r.
  - set (l := c :: cs).
    assert (Hlen : 0 < Z.of_nat (length l)) by (subst l; simpl; lia).
    destruct (Z.ltb_spec 0 (Z.of_nat (length l))) as [_|]; [|lia].
    destruct (Intn_ok _ (State h r) Hlen) as (v & Hv & Hrange).
    unfold bind. rewrite Hv. simpl hp. simpl rnd.
    destruct (index_in_range l v (State h (advance r)) Hrange) as (x & Hx & Hl).
    rewrite Hx. exists x, (advance r). split; [done|].
    apply list_elem_of_In. by eapply list_elem_of_lookup_2.
Qed.

Lemma appendHours_ok (n : nat) (sb : input.Subject) (dayIdx : nat)
    (days : output.Days) (st : state) :
  exists rooms r',
    appendHours n sb dayIdx days st
    = Ok (arr5_set days dayIdx
            (arr5_get days dayIdx ++ List.map (periodOf sb) rooms),
          State (hp st) r')
    /\ length rooms = n /\ Forall (roomAllowed sb) rooms.
Proof.
  revert days st. induction n as [|n IH]; intros days st.
  - exists [], (rnd st). simpl. rewrite app_nil_r. destruct st as [h r].
    split; [|done]. unfold ret. do 2 f_equal.
    by destruct days, dayIdx as [|[|[|[|?]]]].
  - simpl. unfold bind.
    destruct (pickClassroom_ok sb st) as (room & r1 & Hroom & Hal).
    rewrite Hroom.
    destruct (IH (arr5_set days dayIdx (arr5_get days dayIdx ++ [periodOf sb room]))
                (State (hp st) r1)) as (rooms & r2 & Hrec & Hlen & Hall).
    rewrite Hrec. exists (room :: rooms), r2. simpl.
    split; [|split; [by rewrite Hlen | by constructor]].
    do 2 f_equal.
    destruct days, dayIdx as [|[|[|[|?]]]]; simpl; by rewrite <- app_assoc.
Qed.

Lemma placeChunks_ok (chunks : list subjectChunk) (days : output.Days) (st : state) :
  exists days' r',
    placeChunks chunks days st = Ok (days', State (hp st) r')
    /\ placed chunks days days'.
Proof.
  revert days st. induction chunks as [|c rest IH]; intros days st.
  - exists days, (rnd st). destruct st. split; [done | constructor].
  - simpl. unfold bind, placeChunk.
    destruct (appendHours_ok (Z.to_nat (size c)) (subj c) (pickLeastLoadedDay days) days st)
      as (rooms & r1 & Happ & Hlen & Hall).
    rewrite Happ.
    destruct (IH (arr5_set days (pickLeastLoadedDay days)
                    (arr5_get days (pickLeastLoadedDay days)
                       ++ List.map (periodOf (subj c)) rooms))
                (State (hp st) r1)) as (days' & r2 & Hrec & Hpl).
    rewrite Hrec. exists days', r2. split; [done|].
    by econstructor.
Qed.

Lemma loadDay_app_l (h more : heap) (a : addr) :
  (a < length h)%nat -> loadDay (h ++ more) a = loadDay h a.
Proof. intros Ha. unfold loadDay. by rewrite lookup_app_l. Qed.

Lemma storeDays_ok (days : output.Days) (st : state) :
  exists refs,
    storeDays days st
    = Ok (refs, State (hp st ++ arr5_list days) (rnd st))
    /\ arr5_map (loadDay (hp st ++ arr5_list days)) refs = days
    /\ Forall (fun a => (a < length (hp st ++ arr5_list days))%nat) (arr5_list refs).
Proof.
  destruct st as [h r], days as [d0 d1 d2 d3 d4].
  eexists. split; [|split].
  - unfold storeDays, bind, alloc, ret. simpl.
    repeat rewrite <- app_assoc. simpl. reflexivity.
  - unfold arr5_map, arr5_list, loadDay. simpl. f_equal.
    1: by rewrite list_lookup_middle.
    all: rewrite lookup_app_r by (rewrite length_app; lia).
    all: by rewrite length_app, Nat.add_comm, Nat.add_sub.
  - unfold arr5_list. simpl. rewrite !length_app. simpl.
    repeat constructor; lia.
Qed.

Lemma arr5_map_load_app (h more : heap) (refs : arr5 addr) :
  Forall (fun a => (a < length h)%nat) (arr5_list refs) ->
  arr5_map (loadDay (h ++ more)) refs = arr5_map (loadDay h) refs.
Proof.
  destruct refs as [p0 p1 p2 p3 p4]. unfold arr5_list, arr5_map. simpl.
  intros H. repeat match goal with H : Forall _ (_ :: _) |- _ => inversion_clear H end.
  f_equal; by apply loadDay_app_l.
Qed.

Lemma buildDivisions_ok (divs : list input.Division) (st : state) :
  exists refs more r',
    buildDivisions divs st = Ok (refs, State (hp st ++ more) r')
    /\ Forall (fun ref => Forall (fun a => (a < length (hp st ++ more))%nat) (arr5_list ref)) refs
    /\ Forall2 (fun div days => placed (extractSubjectChunks div) (arr5_const []) days)
         divs (List.map (arr5_map (loadDay (hp st ++ more))) refs).
Proof.
  revert st. induction divs as [|div rest IH]; intros st.
  - exists [], [], (rnd st). rewrite app_nil_r. destruct st. simpl. by repeat split; constructor.
  - simpl. unfold bind, buildDivision.
    destruct (placeChunks_ok (extractSubjectChunks div) (arr5_const []) st)
      as (days & r1 & Hpl & Hplaced).
    rewrite Hpl.
    destruct (storeDays_ok days (State (hp st) r1)) as (ref & Hst & Hload & Hlt).
    rewrite Hst. simpl hp in *. simpl rnd in *.
    destruct (IH (State (hp st ++ arr5_list days) r1)) as (refs & more & r2 & Hrec & Hvalid & Hall).
    rewrite Hrec. simpl hp in *.
    exists (ref :: refs), (arr5_list days ++ more), r2.
    rewrite !app_assoc. split; [done|]. split.
    + constructor; [|done].
      eapply Forall_impl; [exact Hlt|]. simpl. intros a Ha. rewrite length_app. lia.
    + simpl. constructor; [|done].
      rewrite arr5_map_load_app by done. by rewrite Hload.
Qed.

(** The builder always returns, and each division's week is a greedy
    placement of the division's chunks onto five empty days. *)
Lemma randomIndividual_placed (inp : input.InputData) (st : state) :
  exists ind st',
    randomIndividual inp st = Ok (ind, st')
    /\ Forall2 (fun div days => placed (extractSubjectChunks div) (arr5_const []) days)
         (input.Divisions inp) (load (hp st') ind).
Proof.
  destruct (buildDivisions_ok (input.Divisions inp) st) as (refs & more & r' & Hb & _ & Hall).
  exists (mkIndividual refs), (State (hp st ++ more) r').
  unfold randomIndividual, bind. rewrite Hb. by split.
Qed.

(** *** What a greedy placement contains *)

Lemma periods_set_app (days : output.Days) (i : nat) (new : list (arr3 output.Subject)) :
  periods (arr5_set days i (arr5_get days i ++ new)) ≡ₚ periods days ++ new.
Proof.
  destruct days as [d0 d1 d2 d3 d4].
  destruct i as [|[|[|[|i]]]]; unfold periods, arr5_list; simpl;
    rewrite ?app_nil_r; solve_Permutation.
Qed.

Lemma erase_built (sb : input.Subject) (rooms : list (option addr)) :
  List.map eraseRoom (List.map (periodOf sb) rooms)
  = repeat (periodOf sb None) (length rooms).
Proof. induction rooms as [|r rooms IH]; simpl; [done | by rewrite IH]. Qed.

Lemma placed_periods (chunks : list subjectChunk) (days days' : output.Days) :
  placed chunks days days' ->
  List.map eraseRoom (periods days')
  ≡ₚ List.map eraseRoom (periods days) ++ List.flat_map hoursOf chunks.
Proof.
  induction 1 as [days | c rest days rooms days' Hlen Hall Hpl IH].
  - simpl. by rewrite app_nil_r.
  - rewrite IH. cbn [List.flat_map]. rewrite periods_set_app, List.map_app, erase_built.
    unfold hoursOf at 2. rewrite Hlen. by rewrite <- app_assoc.
Qed.

Lemma placed_built (chunks : list subjectChunk) (days days' : output.Days) (all : list subjectChunk) :
  placed chunks days days' ->
  (forall c, In c chunks -> In c all) ->
  Forall (builtPeriod all) (periods days) ->
  Forall (builtPeriod all) (periods days').
Proof.
  induction 1 as [days | c rest days rooms days' Hlen Hall Hpl IH]; intros Hsub Hd; [done|].
  apply IH; [intros c' Hc'; apply Hsub; by right|].
  rewrite periods_set_app. apply Forall_app. split; [done|].
  apply List.Forall_forall. intros sg Hsg.
  apply in_map_iff in Hsg as (room & <- & Hroom).
  exists c, room. split; [apply Hsub; by left|]. split; [|done].
  rewrite List.Forall_forall in Hall. by apply Hall.
Qed.

(** *** Counting the hours of one requirement *)

Lemma countIf_perm {A} (f : A -> bool) (l l' : list A) :
  l ≡ₚ l' -> countIf f l = countIf f l'.
Proof.
  unfold countIf. induction 1 as [|x l l' _ IH|x y l|l l' l'' _ IH1 _ IH2]; simpl.
  - done.
  - destruct (f x); simpl; by rewrite IH.
  - by destruct (f x), (f y).
  - by rewrite IH1.
Qed.

Lemma countIf_app {A} (f : A -> bool) (l l' : list A) :
  countIf f (l ++ l') = (countIf f l + countIf f l')%nat.
Proof. unfold countIf. by rewrite List.filter_app, length_app. Qed.

Lemma countIf_map {A B} (f : B -> bool) (g : A -> B) (l : list A) :
  countIf f (List.map g l) = countIf (fun x => f (g x)) l.
Proof.
  unfold countIf. induction l as [|x l IH]; simpl; [done|].
  destruct (f (g x)); simpl; by rewrite IH.
Qed.

Lemma countIf_repeat {A} (f : A -> bool) (x : A) (n : nat) :
  countIf f (repeat x n) = if f x then n else O.
Proof.
  unfold countIf. induction n as [|n IH]; simpl; [by destruct (f x)|].
  destruct (f x); simpl; by rewrite IH.
Qed.

Lemma ptr_eqb_refl (p : option addr) : ptr_eqb p p = true.
Proof. destruct p; simpl; [apply Nat.eqb_refl | done]. Qed.

Lemma sameKey_refl (sb : input.Subject) : sameKey sb sb = true.
Proof. unfold sameKey. by rewrite !ptr_eqb_refl. Qed.

Lemma hourOf_periodOf (sb sb' : input.Subject) (room : option addr) :
  hourOf sb (periodOf sb' room) = sameKey sb sb'.
Proof. reflexivity. Qed.

Lemma sum_positive_entries (l : list Z) :
  Forall is_uint l ->
  sumZ (List.filter (fun alloc => 0 <? alloc) l) = sumZ l.
Proof.
  induction 1 as [|a l [Ha _] _ IH]; simpl; [done|].
  destruct (Z.ltb_spec 0 a); simpl; rewrite IH; lia.
Qed.

(** The hours the chunks of a subject list ask for, for requirement
    [sb]. *)
Lemma count_hours_of_chunks (sb : input.Subject) (sbs : list input.Subject) :
  Forall uint_allocations sbs ->
  Z.of_nat
    (countIf (hourOf sb)
       (List.flat_map hoursOf
          (List.flat_map
             (fun sb' => List.map (mkChunk sb')
                (List.filter (fun alloc => 0 <? alloc)
                   (arr5_list (input.Allocation sb')))) sbs)))
  = sumIf (sameKey sb) weeklyHours sbs.
Proof.
  induction 1 as [|sb' sbs Hsb' _ IH]; [done|].
  cbn [List.flat_map]. rewrite flat_map_app, countIf_app, Nat2Z.inj_add, IH.
  unfold sumIf at 2. cbn [List.map sumZ fold_right]. fold (sumZ (List.map (fun x => if sameKey sb x then weeklyHours x else 0) sbs)).
  unfold sumIf. f_equal.
  unfold weeklyHours. rewrite <- (sum_positive_entries _ Hsb').
  assert (Hpos : Forall (fun a => 0 <= a)
            (List.filter (fun alloc => 0 <? alloc) (arr5_list (input.Allocation sb')))).
  { apply List.Forall_forall. intros a Ha. apply filter_In in Ha as [_ Ha]. lia. }
  induction Hpos as [|a l Ha _ IHl]; simpl.
  - by destruct (sameKey sb sb').
  - rewrite countIf_app, Nat2Z.inj_add, IHl. unfold hoursOf. simpl.
    rewrite countIf_repeat, hourOf_periodOf.
    destruct (sameKey sb sb'); simpl; lia.
Qed.

Lemma sumIf_unique {A} (f : A -> bool) (g : A -> Z) (l : list A) (x : A) :
  In x l -> f x = true -> countIf f l = 1%nat -> sumIf f g l = g x.
Proof.
  unfold sumIf, countIf. induction l as [|y l IH]; simpl; [done|].
  intros [->|Hin] Hfx Hcount.
  - rewrite Hfx in *. simpl in Hcount.
    assert (Hnone : List.filter f l = []) by (destruct (List.filter f l); [done | simpl in Hcount; lia]).
    assert (Hz : sumZ (List.map (fun x0 => if f x0 then g x0 else 0) l) = 0).
    { clear -Hnone. induction l as [|z l IH]; simpl in *; [done|].
      destruct (f z); [done|]. rewrite IH; [lia | done]. }
    unfold sumZ in *. lia.
  - destruct (f y) eqn:Hfy; simpl in Hcount.
    + exfalso.
      assert (In x (List.filter f l)) by (apply filter_In; done).
      destruct (List.filter f l); [done | simpl in Hcount; lia].
    + rewrite <- (IH Hin Hfx Hcount). unfold sumZ. lia.
Qed.

Lemma Forall2_guarded {A B} (P R : A -> B -> Prop) (Q : A -> Prop)
    (l : list A) (l' : list B) :
  Forall2 P l l' ->
  Forall Q l ->
  (forall x y, Q x -> P x y -> R x y) ->
  Forall2 R l l'.
Proof.
  intros HP HQ Himp. induction HP as [|x y l l' Hxy _ IH]; [constructor|].
  inversion_clear HQ. constructor; [by apply Himp | by apply IH].
Qed.

Lemma placed_from_empty (div : input.Division) (days : output.Days) :
  wf_division div ->
  placed (extractSubjectChunks div) (arr5_const []) days ->
  List.map eraseRoom (periods days) ≡ₚ List.flat_map hoursOf (extractSubjectChunks div)
  /\ Forall (builtPeriod (extractSubjectChunks div)) (periods days)
  /\ forall sb, In sb (input.Subjects div) ->
       countIf (sameKey sb) (input.Subjects div) = 1%nat ->
       Z.of_nat (countIf (hourOf sb) (periods days)) = weeklyHours sb.
Proof.
  intros Hwf Hpl.
  assert (Hperm : List.map eraseRoom (periods days)
                  ≡ₚ List.flat_map hoursOf (extractSubjectChunks div)).
  { rewrite (placed_periods _ _ _ Hpl). done. }
  split; [done|]. split.
  - eapply placed_built; [exact Hpl | done | constructor].
  - intros sb Hin Hone.
    rewrite <- (sumIf_unique (sameKey sb) weeklyHours (input.Subjects div) sb Hin
                  (sameKey_refl sb) Hone).
    rewrite <- (count_hours_of_chunks sb _ Hwf), <- extractSubjectChunks_flat.
    rewrite <- (countIf_perm _ _ _ Hperm), countIf_map. f_equal.
Qed.

(** C6. The builder always returns an Individual with one week per
    division, and immediately after initialization, in every division
    whose allocation entries are in the range of [uint]: (1) the periods
    of the week, classrooms forgotten, are, up to order, exactly [size]
    single-lesson periods of the chunk's subject for each chunk, never
    more, never fewer; (2) each period is such a single-lesson period
    whose classroom is one of the subject's acceptable classrooms (none
    if it has none); (3) for a requirement that is the only one of its
    division with its subject and teacher, the number of placed hours
    equals the sum of its allocation vector. *)
Theorem randomIndividual_places_every_chunk (inp : input.InputData) (st : state) :
  Forall wf_division (input.Divisions inp) ->
  exists ind st',
    randomIndividual inp st = Ok (ind, st')
    /\ Forall2
         (fun div days =>
            List.map eraseRoom (periods days)
            ≡ₚ List.flat_map hoursOf (extractSubjectChunks div)
            /\ Forall (builtPeriod (extractSubjectChunks div)) (periods days)
            /\ forall sb, In sb (input.Subjects div) ->
                 countIf (sameKey sb) (input.Subjects div) = 1%nat ->
                 Z.of_nat (countIf (hourOf sb) (periods days)) = weeklyHours sb)
         (input.Divisions inp) (load (hp st') ind).
Proof.
  intros Hwf.
  destruct (randomIndividual_placed inp st) as (ind & st' & Hrun & Hall).
  exists ind, st'. split; [done|].
  eapply Forall2_guarded; [exact Hall | exact Hwf |].
  intros div days Hdiv Hpl. by apply placed_from_empty.
Qed.

(** *** Balance of a greedy placement *)

Lemma pickLeastLoadedDay_least (days : output.Days) :
  (pickLeastLoadedDay days <= 4)%nat
  /\ forall j, (length (arr5_get days (pickLeastLoadedDay days))
               <= length (arr5_get days j))%nat.
Proof.
  destruct days as [d0 d1 d2 d3 d4]. unfold pickLeastLoadedDay. simpl.
  repeat match goal with
         | |- context [(?a <? ?b)%nat] => destruct (Nat.ltb_spec a b); simpl
         end;
    (split; [lia | intros [|[|[|[|j]]]]; simpl; lia]).
Qed.

Lemma maxZ_ge (l : list Z) (x : Z) : In x l -> x <= maxZ l.
Proof.
  unfold maxZ. induction l as [|y l IH]; simpl; [done|].
  intros [->|Hin]; [lia | specialize (IH Hin); lia].
Qed.

Lemma maxZ_nonneg (l : list Z) : 0 <= maxZ l.
Proof. unfold maxZ. induction l as [|y l IH]; simpl; lia. Qed.

Lemma spread_after_chunk (days : output.Days) (new : list (arr3 output.Subject)) (bound : Z) :
  spread days <= bound ->
  Z.of_nat (length new) <= bound ->
  spread (arr5_set days (pickLeastLoadedDay days)
            (arr5_get days (pickLeastLoadedDay days) ++ new)) <= bound.
Proof.
  destruct (pickLeastLoadedDay_least days) as [Hi Hmin].
  pose proof (Hmin 0%nat) as H0. pose proof (Hmin 1%nat) as H1.
  pose proof (Hmin 2%nat) as H2. pose proof (Hmin 3%nat) as H3.
  pose proof (Hmin 4%nat) as H4. clear Hmin.
  revert Hi H0 H1 H2 H3 H4. generalize (pickLeastLoadedDay days). intros i Hi.
  destruct days as [d0 d1 d2 d3 d4].
  unfold spread, minLength, maxZ, dayLengths, arr5_list.
  destruct i as [|[|[|[|[|i]]]]]; [| | | | |lia];
    cbn [arr5_get arr5_set a0 a1 a2 a3 a4 List.map fold_right];
    intros H0 H1 H2 H3 H4 Hsp Hnew; rewrite ?length_app.
  all: match type of Hsp with
       | ?Mx - ?Mn <= _ =>
           match type of H0 with
           | (length ?dI <= _)%nat =>
               assert (Hmn : Mn <= Z.of_nat (length dI)) by lia;
               assert (Hmx : Z.of_nat (length d0) <= Mx /\ Z.of_nat (length d1) <= Mx
                             /\ Z.of_nat (length d2) <= Mx /\ Z.of_nat (length d3) <= Mx
                             /\ Z.of_nat (length d4) <= Mx) by lia;
               generalize dependent Mx; intros mx; generalize dependent Mn; intros mn;
               intros
           end
       end.
  all: match goal with
       | |- ?Mx' - ?Mn' <= _ =>
           match type of H0 with
           | (length ?dI <= _)%nat =>
               assert (Hmx' : Mx' <= Z.of_nat (length dI) + bound) by lia;
               assert (Hmn' : Z.of_nat (length dI) <= Mn') by lia;
               lia
           end
       end.
Qed.

Lemma placed_spread (chunks : list subjectChunk) (days days' : output.Days) (bound : Z) :
  placed chunks days days' ->
  Forall (fun c => 0 <= size c <= bound) chunks ->
  spread days <= bound ->
  spread days' <= bound.
Proof.
  induction 1 as [days | c rest days rooms days' Hlen Hall Hpl IH]; intros Hsz Hsp; [done|].
  inversion_clear Hsz as [|? ? Hc Hrest].
  apply IH; [done|]. apply spread_after_chunk; [done|].
  rewrite length_map, Hlen. lia.
Qed.

Lemma minMax_lengths (days : output.Days) :
  minMax (arr5_map (fun d => Z.of_nat (length d)) days)
  = (minLength days, maxZ (dayLengths days)).
Proof.
  destruct days as [d0 d1 d2 d3 d4].
  unfold minMax, minLength, maxZ, dayLengths, arr5_map, arr5_list. simpl.
  repeat match goal with
         | |- context [?a <? ?b] =>
             lazymatch a with context [Z.ltb] => fail | _ => idtac end;
             lazymatch b with context [Z.ltb] => fail | _ => idtac end;
             destruct (Z.ltb_spec a b); simpl
         end; f_equal; lia.
Qed.

Lemma checkBalance_spread (score : Z) (days : output.Days) :
  checkBalance score days
  = if 4 <? spread days then int_add score (int_mul (spread days) 5) else score.
Proof. unfold checkBalance. by rewrite minMax_lengths. Qed.

Lemma spread_empty : spread (arr5_const []) = 0.
Proof. reflexivity. Qed.

(** C10. The builder always returns, and in every division of the
    Individual it returns the longest weekday exceeds the shortest by at
    most the largest chunk size of the division (by 0 when the division
    has no chunk); hence, when every chunk of the division has size at
    most 4, the balance check leaves the score as it is. *)
Theorem randomIndividual_spread (inp : input.InputData) (st : state) :
  exists ind st',
    randomIndividual inp st = Ok (ind, st')
    /\ Forall2
         (fun div days =>
            spread days <= largestChunk div
            /\ (extractSubjectChunks div = [] -> spread days = 0)
            /\ (Forall (fun c => size c <= 4) (extractSubjectChunks div) ->
                forall score, checkBalance score days = score))
         (input.Divisions inp) (load (hp st') ind).
Proof.
  destruct (randomIndividual_placed inp st) as (ind & st' & Hrun & Hall).
  exists ind, st'. split; [done|].
  eapply Forall2_impl; [exact Hall|]. simpl. intros div days Hpl.
  assert (Hbound : forall bound, 0 <= bound ->
            Forall (fun c => size c <= bound) (extractSubjectChunks div) ->
            spread days <= bound).
  { intros bound Hb Hsz. eapply placed_spread; [exact Hpl | | by rewrite spread_empty].
    pose proof (chunk_sizes_positive div) as Hpos.
    rewrite List.Forall_forall in *. intros c Hc.
    specialize (Hpos c Hc). specialize (Hsz c Hc). lia. }
  assert (Hnonneg : 0 <= spread days).
  { destruct days as [d0 d1 d2 d3 d4].
    unfold spread, minLength, maxZ, dayLengths, arr5_list. simpl. lia. }
  split; [|split].
  - apply Hbound; [apply maxZ_nonneg|].
    apply List.Forall_forall. intros c Hc. apply maxZ_ge. by apply in_map.
  - intros Hnil. rewrite Hnil in Hbound. specialize (Hbound 0). 
    assert (spread days <= 0) by (apply Hbound; [lia | constructor]). lia.
  - intros Hsz score. rewrite checkBalance_spread.
    specialize (Hbound 4 ltac:(lia) Hsz).
    destruct (Z.ltb_spec 4 (spread days)); [lia | done].
Qed.

(** ** The overlap scan of [fitness] *)

Lemma used_ensure (m : gmap (nat * nat) (gmap string bool)) (tk tk' : nat * nat) (x : string) :
  used (ensure m tk) tk' x = used m tk' x.
Proof.
  unfold used, ensure. destruct (m !! tk) eqn:E; [done|].
  destruct (decide (tk = tk')) as [<-|Hne].
  - by rewrite lookup_insert_eq, E, lookup_empty.
  - by rewrite lookup_insert_ne.
Qed.

Lemma used_mark (m : gmap (nat * nat) (gmap string bool)) (tk tk' : nat * nat) (x x' : string) :
  used (mark m tk x) tk' x'
  = if decide ((tk, x) = (tk', x')) then true else used m tk' x'.
Proof.
  unfold used, mark. destruct (decide (tk = tk')) as [<-|Hne].
  - rewrite lookup_insert_eq. destruct (decide (x = x')) as [<-|Hx].
    + rewrite lookup_insert_eq. simpl. by rewrite decide_True.
    + rewrite lookup_insert_ne by done. rewrite decide_False by congruence.
      destruct (m !! tk); simpl; [done | by rewrite lookup_empty].
  - rewrite lookup_insert_ne by done. by rewrite decide_False by congruence.
Qed.

Lemma extras_snoc (l : list (nat * nat * string)) (b : nat * nat * string) :
  extras (l ++ [b]) = extras l + (if decide (b ∈ l) then 1 else 0).
Proof.
  unfold extras. rewrite length_app, list_to_set_app_L. simpl.
  rewrite union_empty_r_L. destruct (decide (b ∈ l)) as [Hin|Hout].
  - replace (list_to_set l ∪ {[b]}) with (list_to_set (C := gset (nat * nat * string)) l).
    + lia.
    + apply set_eq. intros y. rewrite elem_of_union, elem_of_singleton, elem_of_list_to_set.
      split; [tauto | intros [?| ->]; done].
  - rewrite size_union, size_singleton; [lia|].
    apply disjoint_singleton_r. by rewrite elem_of_list_to_set.
Qed.

Lemma records_same (m : gmap (nat * nat) (gmap string bool)) (l : list (nat * nat * string))
    (tk : nat * nat) :
  records m l -> records (ensure m tk) l.
Proof. intros H tk' x. rewrite used_ensure. apply H. Qed.

Lemma records_mark (m : gmap (nat * nat) (gmap string bool)) (l : list (nat * nat * string))
    (tk : nat * nat) (x : string) :
  records m l -> records (mark m tk x) (l ++ [(tk, x)]).
Proof.
  intros H tk' x'. rewrite used_mark, elem_of_app, list_elem_of_singleton.
  destruct (decide ((tk, x) = (tk', x'))) as [E|E].
  - split; [intros _; by right | done].
  - rewrite (H tk' x'). split; [tauto | intros [?|?]; [done | congruence]].
Qed.

Lemma records_again (m : gmap (nat * nat) (gmap string bool)) (l : list (nat * nat * string))
    (b : nat * nat * string) :
  records m l -> b ∈ l -> records m (l ++ [b]).
Proof.
  intros H Hin tk x. rewrite (H tk x), elem_of_app, list_elem_of_singleton.
  split; [tauto | intros [?| ->]; done].
Qed.

Lemma scanInv_start : scanInv (Scan 0 ∅ ∅) [] [].
Proof.
  split; [done|]. split; intros tk x; unfold used; simpl; rewrite lookup_empty;
    (split; [done | by intros ?%elem_of_nil]).
Qed.

Lemma checkTeacher_inv (mem : memory) (tk : nat * nat) (st : scan) (sb : output.Subject)
    (lt lc : list (nat * nat * string)) :
  scanInv st lt lc ->
  scanInv (checkTeacher mem tk st sb)
    (lt ++ match teacherName mem sb with Some x => [(tk, x)] | None => [] end) lc.
Proof.
  intros (Hs & Ht & Hc). unfold checkTeacher, teacherName.
  destruct (output.Teacher sb) as [p|]; simpl; [|by rewrite app_nil_r].
  pose proof (records_same _ _ tk Ht) as Ht'.
  destruct (used (ensure (teacherUsed st) tk) tk (teacherAt mem p)) eqn:E.
  - apply Ht' in E. split; [|split; [by apply records_again | done]]. simpl.
    rewrite Hs, int_add_const, extras_snoc, decide_True by done. f_equal. lia.
  - assert (Hout : (tk, teacherAt mem p) ∉ lt).
    { intros Hin. apply Ht' in Hin. congruence. }
    split; [|split; [by apply records_mark | done]]. simpl.
    rewrite Hs, extras_snoc, decide_False by done. f_equal. lia.
Qed.

Lemma checkClassroom_inv (mem : memory) (tk : nat * nat) (st : scan) (sb : output.Subject)
    (lt lc : list (nat * nat * string)) :
  scanInv st lt lc ->
  scanInv (checkClassroom mem tk st sb) lt
    (lc ++ match classroomName mem sb with Some x => [(tk, x)] | None => [] end).
Proof.
  intros (Hs & Ht & Hc). unfold checkClassroom, classroomName.
  destruct (output.Classroom sb) as [p|]; simpl; [|by rewrite app_nil_r].
  pose proof (records_same _ _ tk Hc) as Hc'.
  destruct (used (ensure (classroomUsed st) tk) tk (classroomAt mem p)) eqn:E.
  - apply Hc' in E. split; [|split; [done | by apply records_again]]. simpl.
    rewrite Hs, int_add_const, extras_snoc, decide_True by done. f_equal. lia.
  - assert (Hout : (tk, classroomAt mem p) ∉ lc).
    { intros Hin. apply Hc' in Hin. congruence. }
    split; [|split; [done | by apply records_mark]]. simpl.
    rewrite Hs, extras_snoc, decide_False by done. f_equal. lia.
Qed.

Lemma visitLesson_inv (mem : memory) (tk : nat * nat) (st : scan) (sb : output.Subject)
    (lt lc : list (nat * nat * string)) :
  scanInv st lt lc ->
  scanInv (visitLesson mem tk st sb)
    (lt ++ booking (teacherName mem) tk sb)
    (lc ++ booking (classroomName mem) tk sb).
Proof.
  intros H. unfold visitLesson, booking.
  destruct (output.GlobalSubject sb); [|by rewrite !app_nil_r].
  by apply checkClassroom_inv, checkTeacher_inv.
Qed.

Lemma visitPeriod_inv (mem : memory) (tk : nat * nat) (sbs : list output.Subject)
    (st : scan) (lt lc : list (nat * nat * string)) :
  scanInv st lt lc ->
  scanInv (fold_left (visitLesson mem tk) sbs st)
    (lt ++ List.flat_map (booking (teacherName mem) tk) sbs)
    (lc ++ List.flat_map (booking (classroomName mem) tk) sbs).
Proof.
  revert st lt lc. induction sbs as [|sb sbs IH]; intros st lt lc H; simpl.
  - by rewrite !app_nil_r.
  - rewrite !app_assoc. by apply IH, visitLesson_inv.
Qed.

Lemma scanDay_inv (mem : memory) (day slot : nat) (sgs : list (arr3 output.Subject))
    (st : scan) (lt lc : list (nat * nat * string)) :
  scanInv st lt lc ->
  scanInv (scanDay mem day slot sgs st)
    (lt ++ dayBookings (teacherName mem) day slot sgs)
    (lc ++ dayBookings (classroomName mem) day slot sgs).
Proof.
  revert slot st lt lc. induction sgs as [|sg sgs IH]; intros slot st lt lc H.
  - simpl. by rewrite !app_nil_r.
  - cbn [scanDay dayBookings]. rewrite !app_assoc. by apply IH, visitPeriod_inv.
Qed.

Lemma scanDays_inv (mem : memory) (divTT : output.Days) (ds : list nat)
    (st : scan) (lt lc : list (nat * nat * string)) :
  scanInv st lt lc ->
  scanInv (fold_left (fun st day => scanDay mem day 0 (arr5_get divTT day) st) ds st)
    (lt ++ List.flat_map (fun day => dayBookings (teacherName mem) day 0 (arr5_get divTT day)) ds)
    (lc ++ List.flat_map (fun day => dayBookings (classroomName mem) day 0 (arr5_get divTT day)) ds).
Proof.
  revert st lt lc. induction ds as [|day ds IH]; intros st lt lc H.
  - simpl. by rewrite !app_nil_r.
  - cbn [fold_left List.flat_map]. rewrite !app_assoc. by apply IH, scanDay_inv.
Qed.

Lemma scanDivisions_inv (mem : memory) (tts : list output.Days)
    (st : scan) (lt lc : list (nat * nat * string)) :
  scanInv st lt lc ->
  scanInv (fold_left (scanDivision mem) tts st)
    (lt ++ bookings (teacherName mem) tts)
    (lc ++ bookings (classroomName mem) tts).
Proof.
  revert st lt lc. induction tts as [|days tts IH]; intros st lt lc H.
  - simpl. by rewrite !app_nil_r.
  - unfold bookings. cbn [fold_left List.flat_map]. rewrite !app_assoc.
    apply IH. unfold scanDivision, weekBookings. by apply scanDays_inv.
Qed.

(** The score after the overlap scan: 1000 for every booking of a
    teacher, and of a classroom, beyond the first at its weekday and
    period. *)
Lemma scanOverlaps_score (mem : memory) (tts : list output.Days) :
  score (scanOverlaps mem tts)
  = to_int64 (1000 * extras (bookings (teacherName mem) tts)
              + 1000 * extras (bookings (classroomName mem) tts)).
Proof.
  destruct (scanDivisions_inv mem tts _ _ _ scanInv_start) as [H _]. exact H.
Qed.

(** ** The allocation check of [fitness] *)

Lemma fold_left_flat_map {A B C} (f : A -> C -> A) (g : B -> list C) (l : list B) (a : A) :
  fold_left f (List.flat_map g l) a = fold_left (fun a x => fold_left f (g x) a) l a.
Proof.
  revert a. induction l as [|x l IH]; intros a; simpl; [done|].
  by rewrite fold_left_app, IH.
Qed.

Lemma countDivision_flat (remaining : list subjectChunk) (days : output.Days) :
  countDivision remaining days = fold_left countHour (positions days) remaining.
Proof.
  unfold countDivision, positions, periods. rewrite fold_left_flat_map.
  destruct days as [d0 d1 d2 d3 d4]. unfold arr5_list. simpl.
  by rewrite app_nil_r, !fold_left_app.
Qed.

Lemma countHour_step (remaining : list subjectChunk) (sb : output.Subject) :
  countHour remaining sb
  = List.map
      (fun c =>
         if countsFor c sb
         then (if 0 <? size c then mkChunk (subj c) (size c - 1) else c)
         else c)
      remaining.
Proof.
  unfold countHour, countsFor. destruct (output.GlobalSubject sb); [done|].
  by rewrite map_id.
Qed.

Lemma countsFor_subj (s : input.Subject) (n n' : Z) (sb : output.Subject) :
  countsFor (mkChunk s n) sb = countsFor (mkChunk s n') sb.
Proof. reflexivity. Qed.

Lemma countIf_cons {A} (f : A -> bool) (x : A) (l : list A) :
  countIf f (x :: l) = ((if f x then 1 else 0) + countIf f l)%nat.
Proof. unfold countIf. simpl. by destruct (f x). Qed.

Lemma countIf_ext {A} (f g : A -> bool) (l : list A) :
  (forall x, f x = g x) -> countIf f l = countIf g l.
Proof.
  intros H. unfold countIf. induction l as [|x l IH]; simpl; [done|].
  rewrite H. destruct (g x); simpl; by rewrite IH.
Qed.

(** A cell of [remaining] after the lessons [sbs] were seen. *)
Lemma countHour_fold (sbs : list output.Subject) (remaining : list subjectChunk) :
  Forall (fun c => 0 <= size c) remaining ->
  fold_left countHour sbs remaining
  = List.map
      (fun c => mkChunk (subj c)
                  (Z.max 0 (size c - Z.of_nat (countIf (countsFor c) sbs))))
      remaining.
Proof.
  revert remaining. induction sbs as [|sb sbs IH]; intros remaining Hpos.
  - simpl. rewrite <- (map_id remaining) at 1. apply map_ext_Forall.
    eapply Forall_impl; [exact Hpos|]. simpl. intros [s n] Hn. simpl in *.
    f_equal. unfold countIf. simpl. lia.
  - cbn [fold_left]. rewrite countHour_step, IH, List.map_map.
    + apply map_ext_Forall. eapply Forall_impl; [exact Hpos|]. simpl.
      intros [s n] Hn. simpl in Hn. rewrite (countIf_cons _ sb sbs).
      destruct (countsFor {| subj := s; size := n |} sb) eqn:Hc; simpl.
      * destruct (Z.ltb_spec 0 n); simpl.
        -- rewrite (countIf_ext _ _ sbs (countsFor_subj s (n - 1) n)). f_equal. lia.
        -- f_equal. lia.
      * done.
    + apply Forall_map. eapply Forall_impl; [exact Hpos|]. simpl.
      intros [s n] Hn. simpl in *.
      destruct (countsFor _ sb); [|done]. destruct (Z.ltb_spec 0 n); simpl; lia.
Qed.

Lemma penalise_sum (remaining : list subjectChunk) (z : Z) :
  Forall (fun c => 0 <= size c) remaining ->
  penalise (to_int64 z) remaining
  = to_int64 (z + 500 * sumZ (List.map size remaining)).
Proof.
  unfold penalise. revert z. induction remaining as [|c rest IH]; intros z Hpos; simpl.
  - f_equal. lia.
  - inversion_clear Hpos as [|? ? Hc Hrest].
    destruct (Z.ltb_spec 0 (size c)).
    + rewrite int_add_acc, IH by done. f_equal. unfold sumZ. lia.
    + rewrite IH by done. f_equal. unfold sumZ. lia.
Qed.

Lemma shortfall_nonneg (c : subjectChunk) (days : output.Days) : 0 <= shortfall c days.
Proof. unfold shortfall. lia. Qed.

Lemma sumZ_nonneg (l : list Z) : Forall (fun x => 0 <= x) l -> 0 <= sumZ l.
Proof. unfold sumZ. induction 1; simpl; lia. Qed.

Lemma unmet_nonneg (div : input.Division) (days : output.Days) : 0 <= unmet div days.
Proof.
  unfold unmet. apply sumZ_nonneg, Forall_map, List.Forall_forall.
  intros c _. apply shortfall_nonneg.
Qed.

Lemma penalise_division (div : input.Division) (days : output.Days) (z : Z) :
  penalise (to_int64 z) (countDivision (extractSubjectChunks div) days)
  = to_int64 (z + 500 * unmet div days).
Proof.
  pose proof (chunk_sizes_positive div) as Hpos.
  rewrite countDivision_flat, countHour_fold.
  - rewrite penalise_sum.
    + unfold unmet, shortfall, placedHours. by rewrite List.map_map.
    + apply Forall_map, List.Forall_forall. intros c _. simpl. lia.
  - eapply Forall_impl; [exact Hpos|]. simpl. lia.
Qed.

Lemma checkAllocations_sum (divs : list input.Division) (tts : list output.Days)
    (dIdx : nat) (z : Z) :
  (dIdx + length divs <= length tts)%nat ->
  checkAllocations dIdx divs tts (to_int64 z)
  = Ok (to_int64 (z + 500 * unmetAll divs (drop dIdx tts))).
Proof.
  revert dIdx z. induction divs as [|div rest IH]; intros dIdx z Hlen.
  - simpl. do 2 f_equal. destruct (drop dIdx tts); simpl; lia.
  - simpl in Hlen. cbn [checkAllocations].
    destruct (tts !! dIdx) as [days|] eqn:E.
    + rewrite penalise_division, IH by lia.
      rewrite (drop_S _ _ _ E). simpl. do 2 f_equal. lia.
    + apply lookup_ge_None in E. lia.
Qed.

Lemma checkAllocations_short (divs : list input.Division) (tts : list output.Days)
    (dIdx : nat) (z : Z) :
  (dIdx <= length tts)%nat ->
  (length tts < dIdx + length divs)%nat ->
  checkAllocations dIdx divs tts z = Panic "index out of range".
Proof.
  revert dIdx z. induction divs as [|div rest IH]; intros dIdx z Hle Hlen.
  - simpl in Hlen. lia.
  - cbn [checkAllocations]. destruct (tts !! dIdx) as [days|] eqn:E; [|done].
    apply lookup_lt_Some in E. apply IH; simpl in *; lia.
Qed.

Lemma checkBalance_imbalance (z : Z) (days : output.Days) :
  checkBalance (to_int64 z) days = to_int64 (z + imbalance days).
Proof.
  rewrite checkBalance_spread. unfold imbalance.
  destruct (Z.ltb_spec 4 (spread days)).
  - unfold int_add, int_mul.
    rewrite (Z.add_comm (to_int64 z)), to_int64_idem, Z.add_comm, to_int64_idem.
    f_equal.
  - f_equal. lia.
Qed.

Lemma checkBalance_sum (tts : list output.Days) (z : Z) :
  fold_left checkBalance tts (to_int64 z)
  = to_int64 (z + sumZ (List.map imbalance tts)).
Proof.
  revert z. induction tts as [|days tts IH]; intros z; cbn [fold_left List.map].
  - f_equal. unfold sumZ. simpl. lia.
  - rewrite checkBalance_imbalance, IH. f_equal. unfold sumZ. simpl. lia.
Qed.

(** [fitness] returns for an Individual that has a week for every
    division, and its value is the design's penalty reduced into the
    range of [int]. *)
Lemma fitness_penalty (mem : memory) (tts : list output.Days) (inp : input.InputData) :
  (length (input.Divisions inp) <= length tts)%nat ->
  fitness mem tts inp = Ok (to_int64 (penalty mem tts inp)).
Proof.
  intros Hlen. unfold fitness, penalty.
  rewrite scanOverlaps_score, checkAllocations_sum by (simpl; lia).
  rewrite checkBalance_sum. by rewrite drop_0.
Qed.

Lemma fitness_short (mem : memory) (tts : list output.Days) (inp : input.InputData) :
  (length tts < length (input.Divisions inp))%nat ->
  fitness mem tts inp = Panic "index out of range".
Proof.
  intros Hlen. unfold fitness. by rewrite checkAllocations_short by (simpl; lia).
Qed.

(** ** The value of [fitness] *)

Lemma extras_nonneg (l : list (nat * nat * string)) : 0 <= extras l.
Proof.
  induction l as [|b l IH] using rev_ind; [done|].
  rewrite extras_snoc. destruct (decide (b ∈ l)); lia.
Qed.

Lemma extras_NoDup (l : list (nat * nat * string)) : NoDup l -> extras l = 0.
Proof. intros H. unfold extras. rewrite size_list_to_set by done. lia. Qed.

Lemma extras_perm (l l' : list (nat * nat * string)) : l ≡ₚ l' -> extras l = extras l'.
Proof.
  intros H. unfold extras. rewrite (Permutation_length H).
  by rewrite (list_to_set_perm_L (C := gset (nat * nat * string)) l l' H).
Qed.

Lemma unmetAll_nonneg (divs : list input.Division) (tts : list output.Days) :
  0 <= unmetAll divs tts.
Proof.
  revert tts. induction divs as [|div divs IH]; intros [|days tts]; simpl; try lia.
  pose proof (unmet_nonneg div days). specialize (IH tts). lia.
Qed.

Lemma imbalance_nonneg (days : output.Days) : 0 <= imbalance days.
Proof. unfold imbalance. destruct (Z.ltb_spec 4 (spread days)); lia. Qed.

Lemma penalty_nonneg (mem : memory) (tts : list output.Days) (inp : input.InputData) :
  0 <= penalty mem tts inp.
Proof.
  unfold penalty.
  pose proof (extras_nonneg (bookings (teacherName mem) tts)).
  pose proof (extras_nonneg (bookings (classroomName mem) tts)).
  pose proof (unmetAll_nonneg (input.Divisions inp) tts).
  assert (0 <= sumZ (List.map imbalance tts)).
  { apply sumZ_nonneg, Forall_map, List.Forall_forall. intros d _. apply imbalance_nonneg. }
  lia.
Qed.

Lemma unmetAll_met (divs : list input.Division) (tts : list output.Days) :
  Forall2
    (fun div days =>
       Forall (fun c => size c <= placedHours c days) (extractSubjectChunks div))
    divs (take (length divs) tts) ->
  unmetAll divs tts = 0.
Proof.
  revert tts. induction divs as [|div divs IH]; intros tts H; [done|].
  destruct tts as [|days tts]; [done|]. simpl in *.
  inversion_clear H as [|? ? ? ? Hd Hrest]. rewrite (IH _ Hrest).
  assert (unmet div days = 0); [|lia].
  unfold unmet. induction Hd as [|c cs Hc _ IHc]; [done|].
  cbn [List.map]. unfold sumZ in *. simpl. rewrite IHc. unfold shortfall. lia.
Qed.

Lemma allocationsMet_length (inp : input.InputData) (tts : list output.Days) :
  allocationsMet inp tts -> (length (input.Divisions inp) <= length tts)%nat.
Proof.
  intros H. apply Forall2_length in H. rewrite length_take in H. lia.
Qed.

Lemma perfect_penalty (mem : memory) (inp : input.InputData) (tts : list output.Days) :
  perfect mem inp tts -> penalty mem tts inp = 0.
Proof.
  intros (Ht & Hc & Ha & Hb). unfold penalty.
  rewrite (extras_NoDup _ Ht), (extras_NoDup _ Hc), (unmetAll_met _ _ Ha).
  assert (sumZ (List.map imbalance tts) = 0); [|lia].
  clear -Hb. induction Hb as [|days tts Hd _ IH]; [done|].
  cbn [List.map]. unfold sumZ in *. simpl. rewrite IH. unfold imbalance.
  destruct (Z.ltb_spec 4 (spread days)); lia.
Qed.

Lemma perfect_fitness (mem : memory) (inp : input.InputData) (tts : list output.Days) :
  perfect mem inp tts -> fitness mem tts inp = Ok 0.
Proof.
  intros H. rewrite fitness_penalty.
  - by rewrite (perfect_penalty _ _ _ H).
  - apply allocationsMet_length. apply H.
Qed.

(** C2, the claim as stated fails: with a requirement of
    18446744073709552 hours and an empty week, [int(c.size) * 500] leaves
    the range of [int] and [fitness] returns a negative score. *)
Lemma fitness_negative_on_overflow :
  fitness letters [emptyWeek] hugeInstance = Ok (-9223372036854775616).
Proof. vm_compute. reflexivity. Qed.

(** C2, amended. For every Individual that has a week for each division
    of the Problem Instance: whenever the design's penalty total (1000 per
    extra teacher booking, 1000 per extra classroom booking, 500 per
    missing hour, 5 times the spread of a week whose spread exceeds 4)
    does not exceed the largest [int], [fitness] returns that total, a
    non-negative integer; and for every Individual with no teacher
    conflict, no classroom conflict, no unmet allocation and a spread of
    at most 4 in each division, [fitness] returns exactly 0. *)
Theorem fitness_nonneg_in_range (mem : memory) (tts : list output.Days)
    (inp : input.InputData) :
  (length (input.Divisions inp) <= length tts)%nat ->
  (penalty mem tts inp <= int64_max ->
   fitness mem tts inp = Ok (penalty mem tts inp) /\ 0 <= penalty mem tts inp)
  /\ (perfect mem inp tts -> fitness mem tts inp = Ok 0).
Proof.
  intros Hlen. split.
  - intros Hmax. pose proof (penalty_nonneg mem tts inp) as Hpos.
    split; [|done]. rewrite fitness_penalty by done. f_equal.
    apply to_int64_small. unfold is_int, int64_min, int64_max in *. lia.
  - apply perfect_fitness.
Qed.

(** ** Replacing one lesson *)

Lemma arr3_split {A} (sg : arr3 A) (i : nat) (x : A) :
  exists pre post,
    arr3_list sg = pre ++ arr3_get sg i :: post
    /\ arr3_list (arr3_set sg i x) = pre ++ x :: post.
Proof.
  destruct sg as [x0 x1 x2]. destruct i as [|[|i]]; simpl.
  - by exists [], [x1; x2].
  - by exists [x0], [x2].
  - by exists [x0; x1], [].
Qed.

Lemma dayBookings_insert (who : output.Subject -> option string) (day : nat)
    (sgs : list (arr3 output.Subject)) (slot k i : nat)
    (sg : arr3 output.Subject) (new : output.Subject) :
  sgs !! k = Some sg ->
  exists A B,
    dayBookings who day slot sgs
    = A ++ booking who (day, (slot + k)%nat) (arr3_get sg i) ++ B
    /\ dayBookings who day slot (<[k := arr3_set sg i new]> sgs)
       = A ++ booking who (day, (slot + k)%nat) new ++ B.
Proof.
  revert slot k. induction sgs as [|sg0 sgs IH]; intros slot k Hk; [done|].
  destruct k as [|k]; simpl in Hk.
  - injection Hk as ->. rewrite Nat.add_0_r.
    change (<[0%nat := arr3_set sg i new]> (sg :: sgs)) with (arr3_set sg i new :: sgs).
    cbn [dayBookings].
    destruct (arr3_split sg i new) as (pre & post & -> & ->).
    rewrite !flat_map_app. cbn [List.flat_map].
    eexists (List.flat_map (booking who (day, slot)) pre),
            (List.flat_map (booking who (day, slot)) post
               ++ dayBookings who day (S slot) sgs).
    by rewrite <- !app_assoc.
  - destruct (IH (S slot) k Hk) as (A & B & HA & HB).
    change (<[S k := arr3_set sg i new]> (sg0 :: sgs))
      with (sg0 :: <[k := arr3_set sg i new]> sgs).
    cbn [dayBookings]. rewrite HA, HB.
    replace (S slot + k)%nat with (slot + S k)%nat by lia.
    exists (List.flat_map (booking who (day, slot)) (arr3_list sg0) ++ A), B.
    by rewrite <- !app_assoc.
Qed.

Lemma weekBookings_set (who : output.Subject -> option string)
    (days : output.Days) (day : nat) (d' : list (arr3 output.Subject)) :
  (day <= 4)%nat ->
  exists X Y,
    weekBookings who days = X ++ dayBookings who day 0 (arr5_get days day) ++ Y
    /\ weekBookings who (arr5_set days day d') = X ++ dayBookings who day 0 d' ++ Y.
Proof.
  intros Hday. destruct days as [d0 d1 d2 d3 d4]. unfold weekBookings.
  destruct day as [|[|[|[|[|day]]]]]; [| | | | |lia]; cbn [List.flat_map arr5_get arr5_set a0 a1 a2 a3 a4];
    rewrite ?app_nil_r.
  - by eexists [], _.
  - eexists (dayBookings who 0 0 d0), _. split; reflexivity.
  - eexists (dayBookings who 0 0 d0 ++ dayBookings who 1 0 d1), _.
    rewrite <- !app_assoc. split; reflexivity.
  - eexists (dayBookings who 0 0 d0 ++ dayBookings who 1 0 d1 ++ dayBookings who 2 0 d2), _.
    rewrite <- !app_assoc. split; reflexivity.
  - eexists (dayBookings who 0 0 d0 ++ dayBookings who 1 0 d1 ++ dayBookings who 2 0 d2
             ++ dayBookings who 3 0 d3), [].
    rewrite <- !app_assoc, !app_nil_r. split; reflexivity.
Qed.

Lemma flat_map_insert {A B} (f : A -> list B) (l : list A) (i : nat) (x x' : A) :
  l !! i = Some x ->
  exists X Y,
    List.flat_map f l = X ++ f x ++ Y
    /\ List.flat_map f (<[i := x']> l) = X ++ f x' ++ Y.
Proof.
  intros Hi.
  exists (List.flat_map f (take i l)), (List.flat_map f (drop (S i) l)).
  rewrite insert_take_drop by (by eapply lookup_lt_Some).
  rewrite <- (take_drop_middle l i x Hi) at 1.
  by rewrite !flat_map_app.
Qed.

(** The bookings of an Individual before and after the lesson at [p] is
    replaced differ in the bookings of that lesson only. *)
Lemma bookings_setLesson (who : output.Subject -> option string)
    (tts : list output.Days) (p : place) (old new : output.Subject) :
  wfPlace p ->
  lessonAt tts p = Some old ->
  exists A B,
    bookings who tts = A ++ booking who (slotOf p) old ++ B
    /\ bookings who (setLesson tts p new) = A ++ booking who (slotOf p) new ++ B.
Proof.
  intros [Hday _]. unfold lessonAt, setLesson, slotOf.
  destruct (tts !! pDiv p) as [days|] eqn:Ed; [|done].
  destruct (arr5_get days (pDay p) !! pSlot p) as [sg|] eqn:Es; [|done].
  intros [= <-].
  destruct (dayBookings_insert who (pDay p) _ 0 _ (pPos p) sg new Es) as (A & B & HA & HB).
  destruct (weekBookings_set who days (pDay p)
              (<[pSlot p := arr3_set sg (pPos p) new]> (arr5_get days (pDay p))) Hday)
    as (X & Y & HX & HY).
  destruct (flat_map_insert (weekBookings who) tts (pDiv p) days
              (arr5_set days (pDay p)
                 (<[pSlot p := arr3_set sg (pPos p) new]> (arr5_get days (pDay p)))) Ed)
    as (U & V & HU & HV).
  unfold bookings. rewrite HU, HV, HX, HY, HA, HB. simpl.
  exists (U ++ X ++ A), (B ++ Y ++ V). by rewrite <- !app_assoc.
Qed.

Lemma periods_set (days : output.Days) (day : nat) (d' : list (arr3 output.Subject)) :
  (day <= 4)%nat ->
  exists X Y,
    periods days = X ++ arr5_get days day ++ Y
    /\ periods (arr5_set days day d') = X ++ d' ++ Y.
Proof.
  intros Hday. destruct days as [d0 d1 d2 d3 d4]. unfold periods, arr5_list.
  destruct day as [|[|[|[|[|day]]]]]; [| | | | |lia];
    cbn [concat arr5_get arr5_set a0 a1 a2 a3 a4]; rewrite ?app_nil_r.
  - by eexists [], _.
  - eexists d0, _. split; reflexivity.
  - eexists (d0 ++ d1), _. rewrite <- !app_assoc. split; reflexivity.
  - eexists (d0 ++ d1 ++ d2), _. rewrite <- !app_assoc. split; reflexivity.
  - eexists (d0 ++ d1 ++ d2 ++ d3), []. rewrite <- !app_assoc, !app_nil_r. split; reflexivity.
Qed.

(** The lesson positions of a week before and after one of them is
    replaced. *)
Lemma positions_set (days : output.Days) (day k i : nat)
    (sg : arr3 output.Subject) (new : output.Subject) :
  (day <= 4)%nat ->
  arr5_get days day !! k = Some sg ->
  exists A B,
    positions days = A ++ arr3_get sg i :: B
    /\ positions (arr5_set days day (<[k := arr3_set sg i new]> (arr5_get days day)))
       = A ++ new :: B.
Proof.
  intros Hday Hk. unfold positions.
  destruct (periods_set days day (<[k := arr3_set sg i new]> (arr5_get days day)) Hday)
    as (X & Y & -> & ->).
  destruct (flat_map_insert arr3_list (arr5_get days day) k sg (arr3_set sg i new) Hk)
    as (U & V & HU & HV).
  destruct (arr3_split sg i new) as (pre & post & Hpre & Hpost).
  rewrite !flat_map_app, HU, HV, Hpre, Hpost.
  exists (List.flat_map arr3_list X ++ U ++ pre),
         (post ++ V ++ List.flat_map arr3_list Y).
  by rewrite <- !app_assoc.
Qed.

Lemma spread_set (days : output.Days) (day k : nat) (sg : arr3 output.Subject) :
  spread (arr5_set days day (<[k := sg]> (arr5_get days day))) = spread days.
Proof.
  destruct days as [d0 d1 d2 d3 d4].
  unfold spread, minLength, dayLengths, arr5_list.
  destruct day as [|[|[|[|day]]]]; cbn [arr5_get arr5_set a0 a1 a2 a3 a4 List.map];
    by rewrite length_insert.
Qed.

Lemma imbalance_insert (tts : list output.Days) (i day k : nat)
    (days : output.Days) (sg : arr3 output.Subject) :
  tts !! i = Some days ->
  List.map imbalance (<[i := arr5_set days day (<[k := sg]> (arr5_get days day))]> tts)
  = List.map imbalance tts.
Proof.
  intros Hi.
  change (List.map imbalance) with (fmap (M := list) imbalance).
  rewrite list_fmap_insert. apply list_insert_id.
  rewrite list_lookup_fmap, Hi. simpl. unfold imbalance. by rewrite spread_set.
Qed.

Lemma unmetAll_insert (divs : list input.Division) (tts : list output.Days)
    (i : nat) (div : input.Division) (days days' : output.Days) :
  divs !! i = Some div ->
  tts !! i = Some days ->
  unmetAll divs (<[i := days']> tts)
  = unmetAll divs tts + (unmet div days' - unmet div days).
Proof.
  revert tts i. induction divs as [|d divs IH]; intros tts i Hd Ht; [done|].
  destruct tts as [|t tts]; [done|]. destruct i as [|i]; simpl in *.
  - injection Hd as ->. injection Ht as ->. lia.
  - rewrite (IH tts i Hd Ht). lia.
Qed.

Lemma unmetAll_insert_beyond (divs : list input.Division) (tts : list output.Days)
    (i : nat) (days' : output.Days) :
  divs !! i = None ->
  unmetAll divs (<[i := days']> tts) = unmetAll divs tts.
Proof.
  revert tts i. induction divs as [|d divs IH]; intros tts i Hd.
  - by destruct (<[i := days']> tts), tts.
  - destruct tts as [|t tts]; [done|]. destruct i as [|i]; simpl in *; [done|].
    by rewrite (IH tts i Hd).
Qed.

Lemma extras_middle (A B : list (nat * nat * string)) (b : nat * nat * string) :
  extras (A ++ [b] ++ B) = extras (A ++ B) + (if decide (b ∈ A ++ B) then 1 else 0).
Proof.
  rewrite <- extras_snoc. apply extras_perm. solve_Permutation.
Qed.

Lemma countIf_zero_not_in (l : list (nat * nat * string)) (b : nat * nat * string) :
  countIf (fun b' => bool_decide (b' = b)) l = 0%nat -> b ∉ l.
Proof.
  unfold countIf. induction l as [|x l IH]; simpl; [intros _; apply not_elem_of_nil|].
  destruct (bool_decide_reflect (x = b)) as [->|Hne]; simpl; [done|].
  intros H. apply not_elem_of_cons. split; [congruence | by apply IH].
Qed.

Lemma once_not_elsewhere (A B : list (nat * nat * string)) (b : nat * nat * string) :
  countIf (fun b' => bool_decide (b' = b)) (A ++ [b] ++ B) = 1%nat -> b ∉ A ++ B.
Proof.
  rewrite !countIf_app, countIf_cons, bool_decide_true by done. intros H.
  apply countIf_zero_not_in. rewrite countIf_app. unfold countIf in *. simpl in *. lia.
Qed.

Lemma setLesson_unfold (tts : list output.Days) (p : place) (old new : output.Subject) :
  lessonAt tts p = Some old ->
  exists days sg,
    tts !! pDiv p = Some days
    /\ arr5_get days (pDay p) !! pSlot p = Some sg
    /\ old = arr3_get sg (pPos p)
    /\ setLesson tts p new
       = <[pDiv p :=
             arr5_set days (pDay p)
               (<[pSlot p := arr3_set sg (pPos p) new]> (arr5_get days (pDay p)))]> tts.
Proof.
  unfold lessonAt, setLesson.
  destruct (tts !! pDiv p) as [days|] eqn:Ed; [|done].
  destruct (arr5_get days (pDay p) !! pSlot p) as [sg|] eqn:Es; [|done].
  intros [= <-]. exists days, sg. by rewrite Es.
Qed.

Lemma setLesson_length (tts : list output.Days) (p : place) (new : output.Subject) :
  length (setLesson tts p new) = length tts.
Proof.
  unfold setLesson. destruct (tts !! pDiv p) as [days|]; [|done].
  destruct (arr5_get days (pDay p) !! pSlot p); [|done]. by rewrite length_insert.
Qed.

Lemma placedHours_set (c : subjectChunk) (days : output.Days) (day k i : nat)
    (sg : arr3 output.Subject) (new : output.Subject) :
  (day <= 4)%nat ->
  arr5_get days day !! k = Some sg ->
  placedHours c (arr5_set days day (<[k := arr3_set sg i new]> (arr5_get days day)))
  = placedHours c days
    - (if countsFor c (arr3_get sg i) then 1 else 0)
    + (if countsFor c new then 1 else 0).
Proof.
  intros Hday Hk. unfold placedHours.
  destruct (positions_set days day k i sg new Hday Hk) as (A & B & -> & ->).
  rewrite !countIf_app, !countIf_cons.
  destruct (countsFor c (arr3_get sg i)), (countsFor c new); lia.
Qed.

Lemma sumZ_pointwise_le {A} (f g : A -> Z) (l : list A) :
  Forall (fun x => f x <= g x) l -> sumZ (List.map f l) <= sumZ (List.map g l).
Proof. unfold sumZ. induction 1; simpl; lia. Qed.

Lemma sumZ_pointwise_step {A} (f g : A -> Z) (h : A -> bool) (l : list A) :
  Forall (fun x => g x = f x + (if h x then 1 else 0)) l ->
  sumZ (List.map g l) = sumZ (List.map f l) + Z.of_nat (countIf h l).
Proof.
  unfold sumZ. induction 1 as [|x l Hx _ IH]; simpl; [done|].
  rewrite countIf_cons, IH, Hx. destruct (h x); lia.
Qed.

(** The part of the penalty that a replacement of one lesson cannot
    change: the day lengths, hence the imbalance. *)
Lemma setLesson_imbalance (tts : list output.Days) (p : place) (new : output.Subject) :
  List.map imbalance (setLesson tts p new) = List.map imbalance tts.
Proof.
  unfold setLesson. destruct (tts !! pDiv p) as [days|] eqn:Ed; [|done].
  destruct (arr5_get days (pDay p) !! pSlot p); [|done].
  by apply imbalance_insert.
Qed.

(** Filling an unused position cannot make an allocation unmet. *)
Lemma setLesson_fill_unmet (divs : list input.Division) (tts : list output.Days)
    (p : place) (old new : output.Subject) :
  wfPlace p ->
  lessonAt tts p = Some old ->
  output.GlobalSubject old = None ->
  unmetAll divs (setLesson tts p new) <= unmetAll divs tts.
Proof.
  intros [Hday _] Hold Hnone.
  destruct (setLesson_unfold tts p old new Hold) as (days & sg & Hd & Hs & -> & ->).
  destruct (divs !! pDiv p) as [div|] eqn:Ediv.
  - rewrite (unmetAll_insert divs tts (pDiv p) div days _ Ediv Hd).
    assert (unmet div
              (arr5_set days (pDay p)
                 (<[pSlot p := arr3_set sg (pPos p) new]> (arr5_get days (pDay p))))
            <= unmet div days); [|lia].
    unfold unmet. apply sumZ_pointwise_le, List.Forall_forall. intros c _.
    unfold shortfall. rewrite (placedHours_set c days _ _ _ sg new Hday Hs).
    assert (Hc : countsFor c (arr3_get sg (pPos p)) = false).
    { unfold countsFor. by rewrite Hnone. }
    rewrite Hc. destruct (countsFor c new); lia.
  - rewrite unmetAll_insert_beyond by done. lia.
Qed.

Lemma booking_unused (who : output.Subject -> option string) (tk : nat * nat)
    (sb : output.Subject) :
  output.GlobalSubject sb = None -> booking who tk sb = [].
Proof. intros H. unfold booking. by rewrite H. Qed.

Lemma booking_cases (who : output.Subject -> option string) (tk : nat * nat)
    (sb : output.Subject) :
  booking who tk sb = [] \/ exists x, booking who tk sb = [(tk, x)].
Proof.
  unfold booking. destruct (output.GlobalSubject sb); [|by left].
  destruct (who sb) as [x|]; [right; by exists x | by left].
Qed.

(** Adding a lesson whose bookings are all new leaves the number of
    extra bookings as it was. *)
Lemma extras_fill_fresh (who : output.Subject -> option string)
    (tts : list output.Days) (p : place) (old new : output.Subject) :
  wfPlace p ->
  lessonAt tts p = Some old ->
  output.GlobalSubject old = None ->
  notBooked who tts (slotOf p) new ->
  extras (bookings who (setLesson tts p new)) = extras (bookings who tts).
Proof.
  intros Hwf Hold Hnone Hfresh.
  destruct (bookings_setLesson who tts p old new Hwf Hold) as (A & B & HA & HB).
  unfold notBooked in Hfresh. rewrite HA, HB, (booking_unused who _ old Hnone) in *.
  simpl in *. destruct (booking_cases who (slotOf p) new) as [->|[x Hx]]; [done|].
  rewrite Hx in *. inversion_clear Hfresh as [|? ? Hout _].
  rewrite (extras_middle A B). by rewrite decide_False; [lia|].
Qed.

(** C4. For every perfect Individual (no conflict, no unmet allocation,
    balanced, hence fitness 0): putting, into an unused parallel position
    of one of its periods, a lesson whose teacher already teaches at that
    weekday and period (in any division) and whose classroom, if it has
    one, is not in use at that weekday and period, raises the fitness from
    0 to exactly 1000.  In general, for every Individual with a week for
    each division, the teacher part of the fitness is 1000 times the
    number of teacher bookings beyond the first of each (weekday, period,
    teacher), counted across all divisions. *)
Theorem duplicate_teacher_costs_1000 (mem : memory) (inp : input.InputData)
    (tts : list output.Days) (p : place) (old new : output.Subject) (t : string) :
  perfect mem inp tts ->
  wfPlace p ->
  lessonAt tts p = Some old ->
  output.GlobalSubject old = None ->
  output.GlobalSubject new <> None ->
  teacherName mem new = Some t ->
  (slotOf p, t) ∈ bookings (teacherName mem) tts ->
  notBooked (classroomName mem) tts (slotOf p) new ->
  fitness mem tts inp = Ok 0
  /\ fitness mem (setLesson tts p new) inp = Ok 1000
  /\ forall tts' : list output.Days,
       (length (input.Divisions inp) <= length tts')%nat ->
       fitness mem tts' inp
       = Ok (to_int64
               (1000 * extras (bookings (teacherName mem) tts')
                + (1000 * extras (bookings (classroomName mem) tts')
                   + 500 * unmetAll (input.Divisions inp) tts'
                   + sumZ (List.map imbalance tts')))).
Proof.
  intros Hperfect Hwf Hold Hnone Hsome Ht Hbooked Hroom.
  split; [by apply perfect_fitness|]. split.
  - pose proof (perfect_penalty _ _ _ Hperfect) as Hzero.
    destruct Hperfect as (HnoT & HnoC & Hmet & Hbal).
    rewrite fitness_penalty
      by (rewrite setLesson_length; by apply allocationsMet_length).
    unfold penalty in *.
    rewrite (extras_fill_fresh (classroomName mem) tts p old new Hwf Hold Hnone Hroom).
    rewrite setLesson_imbalance.
    pose proof (setLesson_fill_unmet (input.Divisions inp) tts p old new Hwf Hold Hnone) as Hle.
    pose proof (unmetAll_nonneg (input.Divisions inp) (setLesson tts p new)) as Hge.
    pose proof (unmetAll_nonneg (input.Divisions inp) tts) as Hge0.
    pose proof (extras_nonneg (bookings (teacherName mem) tts)) as HeT.
    pose proof (extras_nonneg (bookings (classroomName mem) tts)) as HeC.
    assert (Himb : 0 <= sumZ (List.map imbalance tts)).
    { apply sumZ_nonneg, Forall_map, List.Forall_forall. intros d _. apply imbalance_nonneg. }
    assert (HT : extras (bookings (teacherName mem) (setLesson tts p new))
                 = extras (bookings (teacherName mem) tts) + 1).
    { destruct (bookings_setLesson (teacherName mem) tts p old new Hwf Hold)
        as (A & B & HA & HB).
      rewrite HA, HB, (booking_unused _ _ old Hnone) in *. simpl in *.
      unfold booking. destruct (output.GlobalSubject new); [|done]. rewrite Ht.
      rewrite (extras_middle A B). by rewrite decide_True. }
    rewrite HT. f_equal.
    replace (1000 * (extras (bookings (teacherName mem) tts) + 1)
             + 1000 * extras (bookings (classroomName mem) tts)
             + 500 * unmetAll (input.Divisions inp) (setLesson tts p new)
             + sumZ (List.map imbalance tts)) with 1000 by lia.
    reflexivity.
  - intros tts' Hlen. rewrite fitness_penalty by done. unfold penalty.
    do 2 f_equal. lia.
Qed.

(** Blanking a lesson whose bookings occur once leaves the number of
    extra bookings as it was. *)
Lemma extras_blank_once (who : output.Subject -> option string)
    (tts : list output.Days) (p : place) (old : output.Subject) :
  wfPlace p ->
  lessonAt tts p = Some old ->
  bookedOnce who tts (slotOf p) old ->
  extras (bookings who (setLesson tts p output.zero)) = extras (bookings who tts).
Proof.
  intros Hwf Hold Honce.
  destruct (bookings_setLesson who tts p old output.zero Hwf Hold) as (A & B & HA & HB).
  unfold bookedOnce in Honce. rewrite HB, HA in *.
  rewrite (booking_unused who _ output.zero eq_refl). simpl.
  destruct (booking_cases who (slotOf p) old) as [->|[x Hx]]; [done|].
  rewrite Hx in *. inversion_clear Honce as [|? ? H1 _].
  apply once_not_elsewhere in H1.
  rewrite (extras_middle A B). by rewrite decide_False; [lia|].
Qed.

(** C3, the claim as stated fails: a requirement with allocation
    [1,1,0,0,0] gives two chunks of one hour for the same subject and
    teacher, and a single placed lesson counts for both; removing it
    raises the fitness from 0 to 1000, not by 500. *)
Lemma removing_hour_of_two_chunks :
  lessonAt [oneLessonWeek] monday0 = Some (lessonOf twiceOne None)
  /\ Forall (fun c => countsFor c (lessonOf twiceOne None) = true)
       (extractSubjectChunks (input.mkDivision "T" 1 [twiceOne]))
  /\ fitness letters [oneLessonWeek] twiceOneInstance = Ok 0
  /\ fitness letters (setLesson [oneLessonWeek] monday0 output.zero) twiceOneInstance
     = Ok 1000.
Proof. repeat split; repeat constructor. Qed.

(** C3, amended. For every Individual with a week for each division:
    replacing by the empty lesson one placed lesson that (a) counts for
    exactly one chunk of its division, (b) whose chunk has no more placed
    hours than its size, and (c) whose teacher and classroom are each
    booked once at its weekday and period, everything else unchanged,
    adds exactly 500 to the fitness (in [int] arithmetic; as integers
    whenever the sum stays in range). *)
Theorem removing_needed_hour_costs_500 (mem : memory) (inp : input.InputData)
    (tts : list output.Days) (p : place) (old : output.Subject)
    (div : input.Division) (days : output.Days) (f : Z) :
  (length (input.Divisions inp) <= length tts)%nat ->
  wfPlace p ->
  lessonAt tts p = Some old ->
  input.Divisions inp !! pDiv p = Some div ->
  tts !! pDiv p = Some days ->
  countIf (fun c => countsFor c old) (extractSubjectChunks div) = 1%nat ->
  Forall (fun c => countsFor c old = true -> placedHours c days <= size c)
    (extractSubjectChunks div) ->
  bookedOnce (teacherName mem) tts (slotOf p) old ->
  bookedOnce (classroomName mem) tts (slotOf p) old ->
  fitness mem tts inp = Ok f ->
  fitness mem (setLesson tts p output.zero) inp = Ok (int_add f 500)
  /\ (f + 500 <= int64_max -> int_add f 500 = f + 500).
Proof.
  intros Hlen Hwf Hold Hdiv Hdays Hone Hneeded HonceT HonceC Hf.
  rewrite fitness_penalty in Hf by done. injection Hf as <-.
  split.
  - rewrite fitness_penalty by (by rewrite setLesson_length).
    rewrite int_add_const. do 2 f_equal. unfold penalty.
    rewrite (extras_blank_once _ tts p old Hwf Hold HonceT).
    rewrite (extras_blank_once _ tts p old Hwf Hold HonceC).
    rewrite setLesson_imbalance.
    destruct (setLesson_unfold tts p old output.zero Hold) as (days' & sg & Hd & Hs & -> & ->).
    rewrite Hdays in Hd. injection Hd as <-.
    rewrite (unmetAll_insert _ tts (pDiv p) div days _ Hdiv Hdays).
    assert (Hstep : unmet div
              (arr5_set days (pDay p)
                 (<[pSlot p := arr3_set sg (pPos p) output.zero]> (arr5_get days (pDay p))))
            = unmet div days + 1); [|lia].
    unfold unmet.
    rewrite (sumZ_pointwise_step (fun c => shortfall c days) _
               (fun c => countsFor c (arr3_get sg (pPos p)))).
    + rewrite Hone. lia.
    + eapply Forall_impl; [exact Hneeded|]. simpl. intros c Hc.
      unfold shortfall. destruct Hwf as [Hday _].
      rewrite (placedHours_set c days _ _ _ sg output.zero Hday Hs).
      change (countsFor c output.zero) with false.
      destruct (countsFor c (arr3_get sg (pPos p))); [specialize (Hc eq_refl)|]; lia.
  - intros Hmax. unfold int_add. apply to_int64_small.
    unfold is_int, int64_min, int64_max, to_int64 in *.
    pose proof (Z.mod_pos_bound (penalty mem tts inp + 2 ^ 63) (2 ^ 64) ltac:(lia)). lia.
Qed.

(** ** Crossover, mutation and the loop of [Solve] *)

(** C7, evaluated. Two Individuals are built for [twoDivisions]; a child
    is bred from them and mutated.  The child's Monday of division A is
    the very backing array of the first parent (address 0), so the swap
    that [mutate] performs on the child reverses the first parent's
    Monday: the parent's schedule is not the one it had before. *)
Theorem mutating_child_changes_parent :
  exists p1 p2 st child st',
    breedScenario (mkSolver 2 1 1) (tapeOnes [1; 2; 7]%nat) = Ok (p1, p2, st, child, st')
    /\ a0 <$> Timetables child !! 0%nat = a0 <$> Timetables p1 !! 0%nat
    /\ mondayTeachers (hp st) p1 0 = [Some 1%nat; Some 2%nat]
    /\ mondayTeachers (hp st') p1 0 = [Some 2%nat; Some 1%nat]
    /\ load (hp st') p1 <> load (hp st) p1.
Proof.
  eexists _, _, _, _, _. split; [vm_compute; reflexivity|].
  split; [vm_compute; reflexivity|].
  split; [vm_compute; reflexivity|].
  split; [vm_compute; reflexivity|].
  vm_compute. discriminate.
Qed.

(** C8, evaluated. With population size 0, [pop[0]] is out of range;
    with population size 1 and a first Individual of non-zero score, the
    elite pool is empty and [rand.Intn(0)] panics. *)
Theorem Solve_panics_on_small_population :
  Solve (tapeEnv (tapeOneAt 9)) (mkSolver 0 1 1) twoDivisions
  = Panic "index out of range"
  /\ Solve (tapeEnv (tapeOneAt 9)) (mkSolver 1 1 1) twoDivisions
     = Panic "invalid argument to Intn".
Proof. split; vm_compute; reflexivity. Qed.

(** C1, evaluated. Population 2, one generation, mutation rate 1: both
    initial Individuals score 1000, the best-seen score stays 1000, but
    the child bred from the best-seen Individual shares its Monday array,
    the mutation swaps it in place, and the Individual that [Solve]
    returns scores 3000. *)
Theorem Solve_returns_worse_than_initial :
  initialScores (tapeEnv (tapeOneAt 9)) (mkSolver 2 1 1) twoDivisions
  = Ok [Ok 1000; Ok 1000]
  /\ exists o tts,
       run (tapeEnv (tapeOneAt 9)) (mkSolver 2 1 1) twoDivisions = Ok o
       /\ bestFitness o = 1000
       /\ Solve (tapeEnv (tapeOneAt 9)) (mkSolver 2 1 1) twoDivisions = Ok tts
       /\ fitness letters tts twoDivisions = Ok 3000.
Proof.
  split; [vm_compute; reflexivity|].
  eexists _, _. split; [vm_compute; reflexivity|].
  split; [vm_compute; reflexivity|].
  split; [vm_compute; reflexivity|].
  vm_compute; reflexivity.
Qed.



(** *** Crossover copies slice headers only *)

Lemma Intn_inv (n : Z) (st : state) (v : Z) (st' : state) :
  Intn n st = Ok (v, st') -> hp st' = hp st /\ 0 <= v < n.
Proof.
  unfold Intn. destruct (Z.leb_spec n 0); [done|].
  intros [= <- <-]. split; [done|]. apply Z.mod_pos_bound. lia.
Qed.

Lemma index_inv {A} (l : list A) (i : Z) (st : state) (x : A) (st' : state) :
  index l i st = Ok (x, st') -> st' = st /\ l !! Z.to_nat i = Some x.
Proof.
  unfold index. destruct (i <? 0); [done|].
  destruct (l !! Z.to_nat i); [|done]. by intros [= -> ->].
Qed.

Lemma arr5_get_in {A} (a : arr5 A) (i : nat) : In (arr5_get a i) (arr5_list a).
Proof. destruct a, i as [|[|[|[|i]]]]; simpl; tauto. Qed.

Lemma arr5_set_in {A} (a : arr5 A) (i : nat) (v x : A) :
  In x (arr5_list (arr5_set a i v)) -> x = v \/ In x (arr5_list a).
Proof. destruct a, i as [|[|[|[|i]]]]; simpl; intuition. Qed.

Lemma crossDay_cells (p2 : Individual) (dx : Z) (child : list (arr5 addr))
    (st : state) (child' : list (arr5 addr)) (st' : state) :
  crossDay p2 dx child st = Ok (child', st') ->
  hp st' = hp st
  /\ length child' = length child
  /\ forall a, In a (List.flat_map arr5_list child') ->
       In a (List.flat_map arr5_list child) \/ In a (cells p2).
Proof.
  unfold crossDay, bind.
  destruct (Intn 5 st) as [[day st1]|] eqn:Ed; [|done].
  apply Intn_inv in Ed as [Hh _].
  destruct (index (Timetables p2) dx st1) as [[src st2]|] eqn:Es; [|done].
  apply index_inv in Es as [-> Hsrc].
  destruct (index child dx st1) as [[dst st3]|] eqn:Et; [|done].
  apply index_inv in Et as [-> Hdst].
  intros [= <- <-]. split; [done|]. split; [by rewrite length_insert|].
  intros a Ha. apply in_flat_map in Ha as (row & Hrow & Ha).
  apply list_elem_of_In, list_elem_of_lookup in Hrow as [i Hi].
  destruct (decide (i = Z.to_nat dx)) as [->|Hne].
  - rewrite list_lookup_insert_eq in Hi by (by eapply lookup_lt_Some).
    injection Hi as <-. apply arr5_set_in in Ha as [->|Ha].
    + right. apply in_flat_map. exists src. split; [|apply arr5_get_in].
      apply list_elem_of_In. by eapply list_elem_of_lookup_2.
    + left. apply in_flat_map. exists dst. split; [|done].
      apply list_elem_of_In. by eapply list_elem_of_lookup_2.
  - rewrite list_lookup_insert_ne in Hi by done.
    left. apply in_flat_map. exists row. split; [|done].
    apply list_elem_of_In. by eapply list_elem_of_lookup_2.
Qed.

(** [crossover] allocates nothing: the heap is the one it was given, and
    every slice header of the child points at a backing array of one of
    the parents. *)
Lemma crossover_shares (p1 p2 : Individual) (st : state) (child : Individual)
    (st' : state) :
  crossover p1 p2 st = Ok (child, st') ->
  hp st' = hp st
  /\ length (Timetables child) = length (Timetables p1)
  /\ forall a, In a (cells child) -> In a (cells p1) \/ In a (cells p2).
Proof.
  unfold crossover. destruct (0 <? Z.of_nat (length (Timetables p1))).
  - unfold bind.
    destruct (Intn _ st) as [[dx st1]|] eqn:Ex; [|done].
    apply Intn_inv in Ex as [Hh1 _].
    destruct (crossDay p2 dx (Timetables p1) st1) as [[c1 st2]|] eqn:E1; [|done].
    apply crossDay_cells in E1 as (Hh2 & Hl1 & Hc1).
    destruct (crossDay p2 dx c1 st2) as [[c2 st3]|] eqn:E2; [|done].
    apply crossDay_cells in E2 as (Hh3 & Hl2 & Hc2).
    intros [= <- <-]. simpl. split; [congruence|]. split; [congruence|].
    intros a Ha. destruct (Hc2 a Ha) as [H|H]; [|by right]. by apply Hc1.
  - intros [= <- <-]. simpl. split; [done|]. split; [done|]. by left.
Qed.

(** *** What the loop does keep: the best-seen score *)

Lemma fitnessOf_inv (mem : memory) (inp : input.InputData) (ind : Individual)
    (st : state) (f : Z) (st' : state) :
  fitnessOf mem inp ind st = Ok (f, st') ->
  st' = st /\ fitness mem (load (hp st) ind) inp = Ok f.
Proof.
  unfold fitnessOf. destruct (fitness mem (load (hp st) ind) inp); [|done].
  by intros [= -> ->].
Qed.

(** One pass of evaluation never raises the best-seen score, leaves the
    machine state alone, and either stops at score 0 or has compared the
    best-seen score with every Individual of the population. *)
Lemma evaluate_best (mem : memory) (inp : input.InputData) (pop : list Individual)
    (b : Individual) (bf : Z) (st : state)
    (r : list (Individual * Z) * (Individual * Z)) (st' : state) :
  evaluate mem inp pop b bf st = Ok (r, st') ->
  st' = st
  /\ snd (snd r) <= bf
  /\ (snd (snd r) = 0
      \/ Forall (fun sc => exists f, sc = Ok f /\ snd (snd r) <= f)
           (scoresIn mem inp (hp st) pop)).
Proof.
  revert b bf r. induction pop as [|ind rest IH]; intros b bf r.
  - simpl. intros [= <- <-]. simpl. split; [done|]. split; [lia|]. right. constructor.
  - cbn [evaluate]. unfold bind at 1.
    destruct (fitnessOf mem inp ind st) as [[f st1]|] eqn:Ef; [|done].
    apply fitnessOf_inv in Ef as [-> Ef].
    destruct (Z.ltb_spec f bf) as [Hlt|Hge].
    + destruct (Z.eqb_spec f 0) as [->|Hnz].
      * intros [= <- <-]. simpl. split; [done|]. split; [lia|]. by left.
      * unfold bind. destruct (evaluate mem inp rest ind f st) as [[r1 st1]|] eqn:Er; [|done].
        intros [= <- <-]. destruct (IH _ _ _ Er) as (-> & Hle & Hall). simpl.
        split; [done|]. split; [lia|].
        destruct Hall as [Hz|Hall]; [by left|]. right.
        constructor; [|done]. exists f. split; [done | lia].
    + unfold bind. destruct (evaluate mem inp rest b bf st) as [[r1 st1]|] eqn:Er; [|done].
      intros [= <- <-]. destruct (IH _ _ _ Er) as (-> & Hle & Hall). simpl.
      split; [done|]. split; [lia|].
      destruct Hall as [Hz|Hall]; [by left|]. right.
      constructor; [|done]. exists f. split; [done | lia].
Qed.

Lemma generations_best (mem : memory)
    (sortSlice : list (Individual * Z) -> list (Individual * Z))
    (s : Solver) (inp : input.InputData) (g : nat) (pop : list Individual)
    (b : Individual) (bf : Z) (st : state) (r : Individual * Z) (st' : state) :
  generations mem sortSlice s inp g pop b bf st = Ok (r, st') ->
  snd r <= bf.
Proof.
  revert pop b bf st. induction g as [|g IH]; intros pop b bf st.
  - simpl. intros [= <- <-]. simpl. lia.
  - cbn [generations]. unfold bind at 1.
    destruct (evaluate mem inp pop b bf st) as [[r1 st1]|] eqn:Er; [|done].
    destruct (evaluate_best _ _ _ _ _ _ _ _ Er) as (-> & Hle & _).
    destruct (snd (snd r1) =? 0).
    + intros [= <- <-]. lia.
    + unfold bind.
      destruct (selectElite _ _ _ _ st) as [[elite st2]|]; [|done].
      destruct (reproduce _ _ _ _ st2) as [[nextPop st3]|]; [|done].
      intros H. apply IH in H. lia.
Qed.

(** X22. Whenever [Solve] returns, the best-seen score it has tracked is at
    most the score of the first initial Individual, and, when at least one
    generation ran, it is 0 or at most the score of every initial
    Individual. *)
Lemma run_best_seen_score (e : env) (s : Solver) (inp : input.InputData) (o : outcome) :
  run e s inp = Ok o ->
  exists pop st1 first f0,
    initializePopulation s inp (State [] (Rng (randSource e (unixNano e)) O)) = Ok (pop, st1)
    /\ pop !! 0%nat = Some first
    /\ fitness (catalog e) (load (hp st1) first) inp = Ok f0
    /\ bestFitness o <= f0
    /\ (0 < Generations s ->
        bestFitness o = 0
        \/ Forall (fun sc => exists f, sc = Ok f /\ bestFitness o <= f)
             (scoresIn (catalog e) inp (hp st1) pop)).
Proof.
  unfold run, solveBody, bind.
  destruct (initializePopulation s inp _) as [[pop st1]|] eqn:Ei; [|done].
  unfold index at 1. simpl. change (Z.to_nat 0) with 0%nat.
  destruct (pop !! 0%nat) as [first|] eqn:E0; [|done]. unfold ret.
  destruct (fitnessOf (catalog e) inp first st1) as [[f0 st2]|] eqn:Ef; [|done].
  apply fitnessOf_inv in Ef as [-> Ef].
  destruct (generations _ _ s inp _ pop first f0 st1) as [[r st3]|] eqn:Eg; [|done].
  intros [= <-]. simpl. exists pop, st1, first, f0. repeat split; try done.
  - by apply generations_best in Eg.
  - intros Hg. destruct (Z.to_nat (Generations s)) as [|g] eqn:Egen; [lia|].
    cbn [generations] in Eg. unfold bind at 1 in Eg.
    destruct (evaluate (catalog e) inp pop first f0 st1) as [[r1 st4]|] eqn:Er; [|done].
    destruct (evaluate_best _ _ _ _ _ _ _ _ Er) as (-> & Hle & Hall).
    destruct (Z.eqb_spec (snd (snd r1)) 0) as [Hz|Hnz].
    + injection Eg as <- <-. by left.
    + unfold bind in Eg.
      destruct (selectElite _ _ _ _ st1) as [[elite st5]|]; [|done].
      destruct (reproduce _ _ _ _ st5) as [[nextPop st6]|]; [|done].
      apply generations_best in Eg.
      destruct Hall as [Hz|Hall]; [done|]. right.
      eapply Forall_impl; [exact Hall|]. simpl. intros sc (f & -> & Hf).
      exists f. split; [done | lia].
Qed.

(** *** [Solve] returns for a population of at least two *)

Lemma randomIndividual_sized (inp : input.InputData) (st : state) :
  exists ind st', randomIndividual inp st = Ok (ind, st') /\ sized inp ind.
Proof.
  destruct (randomIndividual_placed inp st) as (ind & st' & Hrun & Hall).
  exists ind, st'. split; [done|].
  apply Forall2_length in Hall. unfold sized, load in *.
  by rewrite length_map in Hall.
Qed.

Lemma initializePopulation_sized (s : Solver) (inp : input.InputData) (st : state) :
  0 <= PopulationSize s ->
  exists pop st',
    initializePopulation s inp st = Ok (pop, st')
    /\ Z.of_nat (length pop) = PopulationSize s
    /\ Forall (sized inp) pop.
Proof.
  intros Hp. unfold initializePopulation.
  destruct (Z.ltb_spec (PopulationSize s) 0); [lia|].
  assert (Hrep : forall n st0, exists pop st',
            repeatM n (randomIndividual inp) st0 = Ok (pop, st')
            /\ length pop = n /\ Forall (sized inp) pop).
  { induction n as [|n IH]; intros st0.
    - exists [], st0. by repeat split.
    - cbn [repeatM]. unfold bind.
      destruct (randomIndividual_sized inp st0) as (ind & st1 & -> & Hind).
      destruct (IH st1) as (pop & st2 & -> & Hlen & Hall).
      exists (ind :: pop), st2. split; [done|].
      split; [simpl; lia | by constructor]. }
  destruct (Hrep (Z.to_nat (PopulationSize s)) st) as (pop & st' & Hrun & Hlen & Hall).
  exists pop, st'. split; [done|]. split; [lia | done].
Qed.

Lemma penalty_no_division (mem : memory) (inp : input.InputData) :
  input.Divisions inp = [] -> penalty mem [] inp = 0.
Proof. intros H. unfold penalty. rewrite H. reflexivity. Qed.

Lemma fitnessOf_sized (mem : memory) (inp : input.InputData) (ind : Individual)
    (st : state) :
  sized inp ind ->
  exists f,
    fitnessOf mem inp ind st = Ok (f, st)
    /\ (input.Divisions inp = [] -> f = 0).
Proof.
  intros Hs. unfold fitnessOf, sized in *.
  rewrite fitness_penalty by (unfold load; rewrite length_map; lia).
  eexists. split; [done|]. intros Hnil. rewrite Hnil in Hs.
  destruct ind as [[|? ?]]; [|done]. simpl. by rewrite penalty_no_division.
Qed.

Lemma evaluate_sized (mem : memory) (inp : input.InputData) (pop : list Individual)
    (b : Individual) (bf : Z) (st : state) :
  Forall (sized inp) pop ->
  sized inp b ->
  exists fits b' bf',
    evaluate mem inp pop b bf st = Ok ((fits, (b', bf')), st)
    /\ length fits = length pop
    /\ sized inp b'
    /\ (bf' = 0 \/ Forall (fun fi => sized inp (fst fi)) fits)
    /\ (input.Divisions inp = [] -> bf = 0 -> bf' = 0).
Proof.
  intros Hpop. revert b bf. induction Hpop as [|ind rest Hind _ IH]; intros b bf Hb.
  - exists [], b, bf. repeat split; try done. right. constructor.
  - cbn [evaluate]. unfold bind at 1.
    destruct (fitnessOf_sized mem inp ind st Hind) as (f & -> & Hf0).
    destruct (Z.ltb_spec f bf) as [Hlt|Hge].
    + destruct (Z.eqb_spec f 0) as [->|Hnz].
      * eexists _, ind, 0. split; [done|]. simpl. rewrite repeat_length.
        repeat split; try done. by left.
      * unfold bind. destruct (IH ind f Hind) as (fits & b' & bf' & -> & Hlen & Hb' & Hall & Hz).
        exists ((ind, f) :: fits), b', bf'. simpl. split; [done|].
        split; [lia|]. split; [done|]. split.
        -- destruct Hall as [?|Hall]; [by left | right; by constructor].
        -- intros Hnil Hbf. specialize (Hf0 Hnil). lia.
    + unfold bind. destruct (IH b bf Hb) as (fits & b' & bf' & -> & Hlen & Hb' & Hall & Hz).
      exists ((ind, f) :: fits), b', bf'. simpl. split; [done|].
      split; [lia|]. split; [done|]. split; [|done].
      destruct Hall as [?|Hall]; [by left | right; by constructor].
Qed.

Lemma half_bounds (n : Z) : 2 <= n -> 0 < Z.quot n 2 <= n.
Proof.
  intros Hn. rewrite Z.quot_div_nonneg by lia.
  pose proof (Z.div_mod n 2 ltac:(lia)). pose proof (Z.mod_pos_bound n 2 ltac:(lia)). lia.
Qed.

Lemma selectElite_sized (inp : input.InputData) (n : nat) (i : Z)
    (fits : list (Individual * Z)) (acc : list Individual) (st : state) :
  0 <= i ->
  (Z.to_nat i + n <= length fits)%nat ->
  Forall (fun fi => sized inp (fst fi)) fits ->
  Forall (sized inp) acc ->
  exists elite,
    selectElite n i fits acc st = Ok (elite, st)
    /\ length elite = (length acc + n)%nat
    /\ Forall (sized inp) elite.
Proof.
  intros Hi Hlen Hfits. revert i acc Hi Hlen.
  induction n as [|n IH]; intros i acc Hi Hlen Hacc.
  - exists acc. simpl. split; [done|]. split; [lia | done].
  - cbn [selectElite]. unfold bind.
    destruct (index_in_range fits i st ltac:(lia)) as (fi & -> & Hfi).
    destruct (IH (i + 1) (acc ++ [fst fi]) ltac:(lia) ltac:(lia)) as (elite & -> & Hl & Hall).
    + apply Forall_app. split; [done|]. constructor; [|constructor].
      rewrite List.Forall_forall in Hfits. apply Hfits.
      apply list_elem_of_In. by eapply list_elem_of_lookup_2.
    + exists elite. split; [done|]. split; [|done].
      rewrite Hl, length_app. simpl. lia.
Qed.

Lemma crossDay_ok (p2 : Individual) (dx : Z) (child : list (arr5 addr)) (st : state) :
  0 <= dx < Z.of_nat (length (Timetables p2)) ->
  dx < Z.of_nat (length child) ->
  exists child' st',
    crossDay p2 dx child st = Ok (child', st') /\ length child' = length child.
Proof.
  intros Hp2 Hc. unfold crossDay, bind.
  destruct (Intn_ok 5 st ltac:(lia)) as (day & -> & _).
  destruct (index_in_range (Timetables p2) dx (State (hp st) (advance (rnd st))) Hp2)
    as (src & -> & _).
  destruct (index_in_range child dx (State (hp st) (advance (rnd st))) ltac:(lia))
    as (dst & -> & _).
  eexists _, _. split; [done|]. by rewrite length_insert.
Qed.

Lemma crossover_sized (inp : input.InputData) (p1 p2 : Individual) (st : state) :
  sized inp p1 ->
  sized inp p2 ->
  exists child st', crossover p1 p2 st = Ok (child, st') /\ sized inp child.
Proof.
  unfold sized. intros H1 H2. unfold crossover.
  destruct (Z.ltb_spec 0 (Z.of_nat (length (Timetables p1)))) as [Hpos|Hz].
  - unfold bind. destruct (Intn_ok _ st Hpos) as (dx & -> & Hdx).
    destruct (crossDay_ok p2 dx (Timetables p1) (State (hp st) (advance (rnd st))))
      as (c1 & st1 & -> & Hl1); [lia | lia |].
    destruct (crossDay_ok p2 dx c1 st1) as (c2 & st2 & -> & Hl2); [lia | lia |].
    exists (mkIndividual c2), st2. split; [done|]. simpl. congruence.
  - exists (mkIndividual (Timetables p1)), st. by split.
Qed.

Lemma mutate_ok (s : Solver) (ind : Individual) (st : state) :
  (0 < length (Timetables ind))%nat ->
  exists st', mutate s ind st = Ok (tt, st').
Proof.
  intros Hlen. unfold mutate, bind, Float64.
  destruct (above _ (MutationRate s)); [by eexists|].
  destruct (Intn_ok (Z.of_nat (length (Timetables ind))) (State (hp st) (advance (rnd st)))
              ltac:(lia)) as (dx & -> & Hdx).
  cbn [hp rnd].
  destruct (Intn_ok 5 (State (hp st) (advance (advance (rnd st)))) ltac:(lia))
    as (day & -> & _).
  cbn [hp rnd].
  destruct (index_in_range (Timetables ind) dx
              (State (hp st) (advance (advance (advance (rnd st))))) Hdx)
    as (days & -> & _).
  unfold readDay. cbn [hp rnd].
  set (d := loadDay (hp st) (arr5_get days (Z.to_nat day))).
  destruct (Z.ltb_spec 1 (Z.of_nat (length d))) as [Hd|Hd]; [|by eexists].
  destruct (Intn_ok (Z.of_nat (length d))
              (State (hp st) (advance (advance (advance (rnd st))))) ltac:(lia))
    as (s1 & -> & Hs1).
  cbn [hp rnd].
  destruct (Intn_ok (Z.of_nat (length d))
              (State (hp st) (advance (advance (advance (advance (rnd st)))))) ltac:(lia))
    as (s2 & -> & Hs2).
  cbn [hp rnd].
  destruct (index_in_range d s1
              (State (hp st) (advance (advance (advance (advance (advance (rnd st)))))))
              Hs1) as (x1 & -> & _).
  destruct (index_in_range d s2
              (State (hp st) (advance (advance (advance (advance (advance (rnd st)))))))
              Hs2) as (x2 & -> & _).
  unfold writeDay. by eexists.
Qed.

Lemma reproduce_sized (inp : input.InputData) (s : Solver) (n : nat)
    (fits : list (Individual * Z)) (nextPop : list Individual) (st : state) :
  0 < Z.quot (PopulationSize s) 2 <= Z.of_nat (length fits) ->
  (0 < length (input.Divisions inp))%nat ->
  Forall (fun fi => sized inp (fst fi)) fits ->
  Forall (sized inp) nextPop ->
  exists pop' st',
    reproduce s n fits nextPop st = Ok (pop', st')
    /\ length pop' = (length nextPop + n)%nat
    /\ Forall (sized inp) pop'.
Proof.
  intros Hhalf Hdiv Hfits. revert nextPop st.
  assert (Hpick : forall i fi, 0 <= i < Z.quot (PopulationSize s) 2 ->
            fits !! Z.to_nat i = Some fi -> sized inp (fst fi)).
  { intros i fi _ Hfi. rewrite List.Forall_forall in Hfits. apply Hfits.
    apply list_elem_of_In. by eapply list_elem_of_lookup_2. }
  induction n as [|n IH]; intros nextPop st Hnext.
  - exists nextPop, st. simpl. split; [done|]. split; [lia | done].
  - cbn [reproduce]. unfold bind.
    destruct (Intn_ok (Z.quot (PopulationSize s) 2) st ltac:(lia)) as (i1 & -> & Hi1).
    destruct (index_in_range fits i1 (State (hp st) (advance (rnd st))) ltac:(lia))
      as (f1 & -> & Hf1).
    destruct (Intn_ok (Z.quot (PopulationSize s) 2) (State (hp st) (advance (rnd st)))
                ltac:(lia)) as (i2 & -> & Hi2).
    cbn [hp rnd].
    destruct (index_in_range fits i2 (State (hp st) (advance (advance (rnd st))))
                ltac:(lia)) as (f2 & -> & Hf2).
    destruct (crossover_sized inp (fst f1) (fst f2)
                (State (hp st) (advance (advance (rnd st))))
                (Hpick _ _ Hi1 Hf1) (Hpick _ _ Hi2 Hf2))
      as (child & st1 & -> & Hchild).
    destruct (mutate_ok s child st1) as (st2 & ->).
    { unfold sized in Hchild. lia. }
    destruct (IH (nextPop ++ [child]) st2) as (pop' & st3 & -> & Hl & Hall).
    { apply Forall_app. split; [done | by repeat constructor]. }
    exists pop', st3. split; [done|]. split; [|done].
    rewrite Hl, length_app. simpl. lia.
Qed.

Lemma generations_sized (mem : memory)
    (sortSlice : list (Individual * Z) -> list (Individual * Z))
    (s : Solver) (inp : input.InputData) (g : nat) (pop : list Individual)
    (b : Individual) (bf : Z) (st : state) :
  (forall l, sortSlice l ≡ₚ l) ->
  2 <= PopulationSize s ->
  Z.of_nat (length pop) = PopulationSize s ->
  Forall (sized inp) pop ->
  sized inp b ->
  (input.Divisions inp = [] -> bf = 0) ->
  exists r st',
    generations mem sortSlice s inp g pop b bf st = Ok (r, st')
    /\ sized inp (fst r).
Proof.
  intros Hsort Hp. revert pop b bf st.
  induction g as [|g IH]; intros pop b bf st Hlen Hpop Hb Hnil.
  - exists (b, bf), st. by split.
  - cbn [generations]. unfold bind at 1.
    destruct (evaluate_sized mem inp pop b bf st Hpop Hb)
      as (fits & b' & bf' & -> & Hfl & Hb' & Hall & Hz).
    cbn [fst snd]. destruct (Z.eqb_spec bf' 0) as [->|Hnz].
    + exists (b', 0), st. by split.
    + destruct Hall as [?|Hall]; [done|].
      assert (Hdiv : (0 < length (input.Divisions inp))%nat).
      { destruct (input.Divisions inp) eqn:E; [|simpl; lia].
        exfalso. apply Hnz, Hz; [done | by apply Hnil]. }
      pose proof (half_bounds _ Hp) as Hhalf.
      assert (Hsl : length (sortSlice fits) = length fits)
        by (by rewrite (Permutation_length (Hsort fits))).
      assert (Hsall : Forall (fun fi => sized inp (fst fi)) (sortSlice fits))
        by (by rewrite (Hsort fits)).
      unfold bind.
      destruct (selectElite_sized inp (Z.to_nat (Z.quot (PopulationSize s) 2)) 0
                  (sortSlice fits) [] st ltac:(lia) ltac:(simpl; lia) Hsall ltac:(constructor))
        as (elite & -> & Hel & Helite).
      destruct (reproduce_sized inp s
                  (Z.to_nat (PopulationSize s - Z.of_nat (length elite)))
                  (sortSlice fits) elite st ltac:(lia) Hdiv Hsall Helite)
        as (nextPop & st1 & -> & Hnl & Hnext).
      apply IH; try done.
      * rewrite Hnl, Hel. simpl. lia.
      * intros E. rewrite E in Hdiv. simpl in Hdiv. lia.
Qed.

(** X21. With a population of at least two and a [sort.Slice] that permutes
    its argument, [Solve] does not panic: it returns an Individual with
    one week per division. *)
Lemma Solve_returns (e : env) (s : Solver) (inp : input.InputData) :
  (forall l, sortSlice e l ≡ₚ l) ->
  2 <= PopulationSize s ->
  exists tts,
    Solve e s inp = Ok tts /\ length tts = length (input.Divisions inp).
Proof.
  intros Hsort Hp. unfold Solve, run, solveBody, bind.
  destruct (initializePopulation_sized s inp
              (State [] (Rng (randSource e (unixNano e)) O)) ltac:(lia))
    as (pop & st1 & -> & Hlen & Hpop).
  destruct (index_in_range pop 0 st1 ltac:(lia)) as (first & -> & Hfirst).
  assert (Hf : sized inp first).
  { rewrite List.Forall_forall in Hpop. apply Hpop.
    apply list_elem_of_In. by eapply list_elem_of_lookup_2. }
  destruct (fitnessOf_sized (catalog e) inp first st1 Hf) as (f0 & -> & Hz).
  destruct (generations_sized (catalog e) (sortSlice e) s inp
              (Z.to_nat (Generations s)) pop first f0 st1 Hsort Hp Hlen Hpop Hf Hz)
    as (r & st2 & -> & Hr).
  eexists. split; [done|]. simpl. unfold load. by rewrite length_map.
Qed.

(** *** [Solve] panics for a population of fewer than two *)

(** X23. With an empty population [pop[0]] is out of range and [Solve]
    panics, whatever the instance, the seed and the generation budget. *)
Lemma Solve_panics_without_population (e : env) (s : Solver) (inp : input.InputData) :
  PopulationSize s = 0 -> Solve e s inp = Panic "index out of range".
Proof.
  intros Hp. unfold Solve, run, solveBody, bind, initializePopulation.
  rewrite Hp. reflexivity.
Qed.

(** X24. With a population of one, at least one generation to run and a first
    Individual whose score is not 0, the elite pool is empty and the
    reproduction loop calls [rand.Intn(0)]. *)
Lemma Solve_panics_with_one (e : env) (s : Solver) (inp : input.InputData) :
  PopulationSize s = 1 ->
  0 < Generations s ->
  (forall ind st1,
     initializePopulation s inp (State [] (Rng (randSource e (unixNano e)) O))
     = Ok ([ind], st1) ->
     fitness (catalog e) (load (hp st1) ind) inp <> Ok 0) ->
  Solve e s inp = Panic "invalid argument to Intn".
Proof.
  intros Hp Hg Hscore. unfold Solve, run, solveBody, bind.
  destruct (initializePopulation_sized s inp
              (State [] (Rng (randSource e (unixNano e)) O)) ltac:(lia))
    as (pop & st1 & Hinit & Hlen & Hpop).
  rewrite Hinit. destruct pop as [|ind [|? ?]]; simpl in Hlen; try lia.
  specialize (Hscore ind st1 Hinit).
  inversion_clear Hpop as [|? ? Hind _].
  unfold index at 1. cbn -[fitnessOf generations].
  change ([ind] !! Z.to_nat 0) with (Some ind). unfold ret. cbv beta iota.
  destruct (fitnessOf_sized (catalog e) inp ind st1 Hind) as (f0 & Hf & _).
  rewrite Hf. apply fitnessOf_inv in Hf as [_ Hf0].
  assert (Hnz : f0 <> 0) by (intros ->; by apply Hscore).
  destruct (Z.to_nat (Generations s)) as [|g] eqn:Eg; [lia|].
  cbn [generations evaluate]. unfold bind.
  destruct (fitnessOf_sized (catalog e) inp ind st1 Hind) as (f1 & Hf1 & _).
  rewrite Hf1. apply fitnessOf_inv in Hf1 as [_ Hf1].
  assert (f1 = f0) as -> by congruence.
  rewrite Z.ltb_irrefl. unfold ret. cbn [fst snd].
  destruct (Z.eqb_spec f0 0); [done|].
  rewrite Hp. change (Z.to_nat (1 `quot` 2)) with 0%nat.
  cbn [selectElite]. unfold ret. cbn [length].
  change (Z.to_nat (1 - Z.of_nat 0)) with 1%nat.
  cbn [reproduce]. unfold bind. rewrite Hp. reflexivity.
Qed.

(** ** The theorems at concrete inputs *)

Lemma twoDivisions_wf : Forall wf_division (input.Divisions twoDivisions).
Proof.
  unfold wf_division, uint_allocations, twoDivisions, divisionA, divisionB; simpl.
  repeat constructor; unfold is_uint, uint64_max; simpl; lia.
Defined.

Lemma randomIndividual_places_every_chunk_witness :
  Forall wf_division (input.Divisions twoDivisions)
  /\ exists ind st',
       randomIndividual twoDivisions (State [] (Rng (tapeOneAt 9) O)) = Ok (ind, st')
       /\ Forall2
            (fun div days =>
               List.map eraseRoom (periods days)
               ≡ₚ List.flat_map hoursOf (extractSubjectChunks div)
               /\ Forall (builtPeriod (extractSubjectChunks div)) (periods days)
               /\ forall sb, In sb (input.Subjects div) ->
                    countIf (sameKey sb) (input.Subjects div) = 1%nat ->
                    Z.of_nat (countIf (hourOf sb) (periods days)) = weeklyHours sb)
            (input.Divisions twoDivisions) (load (hp st') ind).
Proof.
  split; [exact twoDivisions_wf|].
  apply (randomIndividual_places_every_chunk twoDivisions (State [] (Rng (tapeOneAt 9) O))).
  exact twoDivisions_wf.
Defined.

Lemma pairWeeks_perfect : perfect letters pairInstance pairWeeks.
Proof.
  unfold perfect, noConflict, allocationsMet, balanced.
  split; [|split; [|split]];
    refine (bool_decide_unpack _ _); vm_compute; exact I.
Defined.

Lemma fitness_nonneg_in_range_witness :
  (length (input.Divisions pairInstance) <= length pairWeeks)%nat
  /\ (penalty letters pairWeeks pairInstance <= int64_max ->
      fitness letters pairWeeks pairInstance = Ok (penalty letters pairWeeks pairInstance)
      /\ 0 <= penalty letters pairWeeks pairInstance)
  /\ (perfect letters pairInstance pairWeeks ->
      fitness letters pairWeeks pairInstance = Ok 0).
Proof.
  split; [simpl; lia|].
  apply (fitness_nonneg_in_range letters pairWeeks pairInstance). simpl. lia.
Defined.

Lemma duplicate_teacher_costs_1000_witness :
  perfect letters pairInstance pairWeeks
  /\ fitness letters pairWeeks pairInstance = Ok 0
  /\ fitness letters (setLesson pairWeeks spare clash) pairInstance = Ok 1000.
Proof.
  split; [exact pairWeeks_perfect|].
  destruct (duplicate_teacher_costs_1000 letters pairInstance pairWeeks spare
              output.zero clash "B") as (H0 & H1000 & _).
  - exact pairWeeks_perfect.
  - split; simpl; lia.
  - reflexivity.
  - reflexivity.
  - discriminate.
  - reflexivity.
  - vm_compute. apply list_elem_of_here.
  - unfold notBooked. simpl. constructor.
  - by split.
Defined.

Lemma removing_needed_hour_costs_500_witness :
  fitness letters pairWeeks pairInstance = Ok 0
  /\ fitness letters (setLesson pairWeeks firstOfX output.zero) pairInstance
     = Ok (int_add 0 500)
  /\ (0 + 500 <= int64_max -> int_add 0 500 = 0 + 500).
Proof.
  assert (Hf : fitness letters pairWeeks pairInstance = Ok 0) by (vm_compute; reflexivity).
  split; [exact Hf|].
  apply (removing_needed_hour_costs_500 letters pairInstance pairWeeks firstOfX
           (lessonOf (oneHour 1%nat 1%nat) None)
           (input.mkDivision "X" 1 [oneHour 1%nat 1%nat])
           (Arr5 [periodOf (oneHour 1%nat 1%nat) None] [] [] [] []) 0).
  - simpl. lia.
  - split; simpl; lia.
  - reflexivity.
  - reflexivity.
  - reflexivity.
  - reflexivity.
  - repeat constructor. intros _. vm_compute. discriminate.
  - repeat constructor.
  - repeat constructor.
  - exact Hf.
Defined.

(** * Further properties of the solver *)

(** ** The helpers of the builder *)

(** X1. [pickLeastLoadedDay] returns a weekday index in 0..4 whose day is
    no longer than any other day, and every day before it is strictly
    longer: ties go to the lowest weekday. *)
Theorem pickLeastLoadedDay_first_least (days : output.Days) :
  (pickLeastLoadedDay days <= 4)%nat
  /\ (forall j, (length (arr5_get days (pickLeastLoadedDay days))
                <= length (arr5_get days j))%nat)
  /\ (forall j, (j < pickLeastLoadedDay days)%nat ->
                (length (arr5_get days (pickLeastLoadedDay days))
                 < length (arr5_get days j))%nat).
Proof.
  destruct days as [d0 d1 d2 d3 d4]. unfold pickLeastLoadedDay. simpl.
  repeat match goal with
         | |- context [(?a <? ?b)%nat] => destruct (Nat.ltb_spec a b); simpl
         end;
    (split; [lia | split; intros [|[|[|[|j]]]]; simpl; lia]).
Qed.

(** X2. [pickClassroom] never panics and never touches the heap.  For a
    subject without acceptable classrooms it returns nil and consumes no
    random draw; otherwise it consumes exactly one draw and returns the
    entry of [Classrooms] at that draw reduced modulo the list length. *)
Theorem pickClassroom_cases (sb : input.Subject) (st : state) :
  (input.Classrooms sb = [] -> pickClassroom sb st = Ok (None, st))
  /\ (input.Classrooms sb <> [] ->
      exists room,
        pickClassroom sb st = Ok (room, State (hp st) (advance (rnd st)))
        /\ input.Classrooms sb
             !! Z.to_nat (draws (rnd st) (pos (rnd st))
                          mod Z.of_nat (length (input.Classrooms sb)))
           = Some room
        /\ In room (input.Classrooms sb)).
Proof.
  unfold pickClassroom. split.
  - intros ->. reflexivity.
  - intros Hne. destruct (input.Classrooms sb) as [|c cs] eqn:E; [done|].
    set (l := c :: cs) in *.
    assert (Hlen : 0 < Z.of_nat (length l)) by (subst l; simpl; lia).
    destruct (Z.ltb_spec 0 (Z.of_nat (length l))) as [_|]; [|lia].
    unfold bind, Intn. destruct (Z.leb_spec (Z.of_nat (length l)) 0) as [|_]; [lia|].
    pose proof (Z.mod_pos_bound (draws (rnd st) (pos (rnd st))) _ Hlen) as Hr.
    destruct (index_in_range l _ (State (hp st) (advance (rnd st))) Hr)
      as (room & -> & Hroom).
    exists room. split; [done|]. split; [done|].
    apply list_elem_of_In. by eapply list_elem_of_lookup_2.
Qed.

(** X3. [initializePopulation] panics for a negative population size;
    for any other size it returns exactly that many Individuals, each
    with one week per division, and only adds arrays to the heap it was
    given. *)
Theorem initializePopulation_cases (s : Solver) (inp : input.InputData) (st : state) :
  (PopulationSize s < 0 ->
   initializePopulation s inp st = Panic "makeslice: len out of range")
  /\ (0 <= PopulationSize s ->
      exists pop st',
        initializePopulation s inp st = Ok (pop, st')
        /\ Z.of_nat (length pop) = PopulationSize s
        /\ Forall (sized inp) pop
        /\ exists more, hp st' = hp st ++ more).
Proof.
  split.
  - intros Hneg. unfold initializePopulation.
    by destruct (Z.ltb_spec (PopulationSize s) 0); [|lia].
  - intros Hp. unfold initializePopulation.
    destruct (Z.ltb_spec (PopulationSize s) 0); [lia|].
    assert (Hrep : forall n st0, exists pop st',
              repeatM n (randomIndividual inp) st0 = Ok (pop, st')
              /\ length pop = n /\ Forall (sized inp) pop
              /\ exists more, hp st' = hp st0 ++ more).
    { induction n as [|n IH]; intros st0.
      - exists [], st0. repeat split; try done. exists []. by rewrite app_nil_r.
      - cbn [repeatM]. unfold bind, randomIndividual at 1, bind.
        destruct (buildDivisions_ok (input.Divisions inp) st0)
          as (refs & more1 & r1 & -> & _ & Hall).
        unfold ret.
        destruct (IH (State (hp st0 ++ more1) r1)) as (pop & st2 & -> & Hlen & Hpop & more2 & Hh).
        exists (mkIndividual refs :: pop), st2. split; [done|].
        split; [simpl; lia|]. split.
        + constructor; [|done]. apply Forall2_length in Hall.
          unfold sized. simpl. by rewrite length_map in Hall.
        + exists (more1 ++ more2). simpl in Hh. by rewrite Hh, app_assoc. }
    destruct (Hrep (Z.to_nat (PopulationSize s)) st)
      as (pop & st' & Hrun & Hlen & Hall & Hmore).
    exists pop, st'. split; [done|]. split; [lia | done].
Qed.

(** ** A freshly built Individual *)

Lemma countIf_first_positions (f : output.Subject -> bool)
    (ps : list (arr3 output.Subject)) :
  (countIf (fun p => f (b0 p)) ps <= countIf f (List.flat_map arr3_list ps))%nat.
Proof.
  induction ps as [|p ps IH]; [done|].
  cbn [List.flat_map]. rewrite countIf_app, (countIf_cons _ p ps).
  change (arr3_list p) with (b0 p :: [b1 p; b2 p]).
  rewrite (countIf_cons f (b0 p)). lia.
Qed.

Lemma chunk_subject_in (div : input.Division) (c : subjectChunk) :
  In c (extractSubjectChunks div) -> In (subj c) (input.Subjects div).
Proof.
  rewrite extractSubjectChunks_flat. intros Hc.
  apply in_flat_map in Hc as (sb & Hsb & Hc).
  apply in_map_iff in Hc as (a & <- & _). done.
Qed.

Lemma countsFor_own (c : subjectChunk) (room : option addr) :
  input.GlobalSubject (subj c) <> None ->
  countsFor c (lessonOf (subj c) room) = true.
Proof.
  intros Hg. unfold countsFor, matches, lessonOf. simpl.
  destruct (input.GlobalSubject (subj c)) eqn:E; [|done].
  rewrite <- E. by rewrite !ptr_eqb_refl.
Qed.

Lemma hours_cover_chunk (c : subjectChunk) (chunks : list subjectChunk) :
  In c chunks ->
  input.GlobalSubject (subj c) <> None ->
  (Z.to_nat (size c)
   <= countIf (fun p => countsFor c (b0 p)) (List.flat_map hoursOf chunks))%nat.
Proof.
  intros Hin Hg. induction chunks as [|c' chunks IH]; [done|].
  cbn [List.flat_map]. rewrite countIf_app. destruct Hin as [->|Hin].
  - unfold hoursOf at 1. rewrite countIf_repeat.
    change (b0 (periodOf (subj c) None)) with (lessonOf (subj c) None).
    rewrite countsFor_own by done. lia.
  - specialize (IH Hin). lia.
Qed.

Lemma placed_meets (div : input.Division) (days : output.Days) :
  Forall (fun sb => input.GlobalSubject sb <> None) (input.Subjects div) ->
  placed (extractSubjectChunks div) (arr5_const []) days ->
  Forall (fun c => size c <= placedHours c days) (extractSubjectChunks div).
Proof.
  intros Hnamed Hpl. apply List.Forall_forall. intros c Hc.
  pose proof (placed_periods _ _ _ Hpl) as Hperm. simpl in Hperm.
  assert (Hg : input.GlobalSubject (subj c) <> None).
  { rewrite List.Forall_forall in Hnamed. by apply Hnamed, chunk_subject_in. }
  pose proof (hours_cover_chunk c _ Hc Hg) as Hcover.
  rewrite <- (countIf_perm _ _ _ Hperm), countIf_map in Hcover.
  pose proof (countIf_first_positions (countsFor c) (periods days)) as Hpos.
  unfold placedHours, positions.
  pose proof (chunk_sizes_positive div) as Hsz. rewrite List.Forall_forall in Hsz.
  specialize (Hsz c Hc).
  assert (Heq : countIf (fun x => countsFor c (b0 (eraseRoom x))) (periods days)
                = countIf (fun p => countsFor c (b0 p)) (periods days))
    by (by apply countIf_ext).
  lia.
Qed.

(** X4. When every requirement names a global subject, the Individual
    that [randomIndividual] returns has no unmet allocation: every chunk
    of every division has at least its size in placed hours, so the
    allocation part of its fitness is 0 and the fitness is made of the
    teacher conflicts, the classroom conflicts and the imbalance only. *)
Theorem randomIndividual_meets_allocations (mem : memory) (inp : input.InputData)
    (st : state) :
  subjectsNamed inp ->
  exists ind st',
    randomIndividual inp st = Ok (ind, st')
    /\ allocationsMet inp (load (hp st') ind)
    /\ unmetAll (input.Divisions inp) (load (hp st') ind) = 0
    /\ fitness mem (load (hp st') ind) inp
       = Ok (to_int64
               (1000 * extras (bookings (teacherName mem) (load (hp st') ind))
                + 1000 * extras (bookings (classroomName mem) (load (hp st') ind))
                + sumZ (List.map imbalance (load (hp st') ind)))).
Proof.
  intros Hnamed.
  destruct (randomIndividual_placed inp st) as (ind & st' & Hrun & Hall).
  exists ind, st'. split; [done|].
  assert (Hmet : allocationsMet inp (load (hp st') ind)).
  { unfold allocationsMet. rewrite take_ge by (apply Forall2_length in Hall; lia).
    eapply Forall2_guarded; [exact Hall | exact Hnamed |].
    intros div days Hdiv Hpl. by apply placed_meets. }
  split; [done|].
  pose proof (unmetAll_met _ _ Hmet) as Hzero. split; [done|].
  rewrite fitness_penalty by (by apply allocationsMet_length).
  unfold penalty. rewrite Hzero. do 2 f_equal. lia.
Qed.

Lemma twoDivisions_named : subjectsNamed twoDivisions.
Proof.
  unfold subjectsNamed, twoDivisions, divisionA, divisionB. simpl.
  repeat constructor; discriminate.
Defined.

Lemma randomIndividual_meets_allocations_witness :
  subjectsNamed twoDivisions
  /\ exists ind st',
       randomIndividual twoDivisions (State [] (Rng (tapeOneAt 9) O)) = Ok (ind, st')
       /\ allocationsMet twoDivisions (load (hp st') ind)
       /\ unmetAll (input.Divisions twoDivisions) (load (hp st') ind) = 0
       /\ fitness letters (load (hp st') ind) twoDivisions
          = Ok (to_int64
                  (1000 * extras (bookings (teacherName letters) (load (hp st') ind))
                   + 1000 * extras (bookings (classroomName letters) (load (hp st') ind))
                   + sumZ (List.map imbalance (load (hp st') ind)))).
Proof.
  split; [exact twoDivisions_named|].
  apply (randomIndividual_meets_allocations letters twoDivisions
           (State [] (Rng (tapeOneAt 9) O))).
  exact twoDivisions_named.
Defined.

Lemma concat_set_app {A} (a : arr5 (list A)) (i : nat) (new : list A) :
  concat (arr5_list (arr5_set a i (arr5_get a i ++ new)))
  ≡ₚ concat (arr5_list a) ++ new.
Proof.
  destruct a as [d0 d1 d2 d3 d4].
  destruct i as [|[|[|[|i]]]]; unfold arr5_list; simpl;
    rewrite ?app_nil_r; solve_Permutation.
Qed.

Lemma blocks_set_app (assign : arr5 (list (subjectChunk * list (option addr))))
    (i : nat) (b : subjectChunk * list (option addr)) :
  arr5_set (arr5_map blocksPeriods assign) i
    (arr5_get (arr5_map blocksPeriods assign) i ++ blockPeriods b)
  = arr5_map blocksPeriods (arr5_set assign i (arr5_get assign i ++ [b])).
Proof.
  destruct assign as [x0 x1 x2 x3 x4].
  destruct i as [|[|[|[|i]]]]; unfold arr5_map, blocksPeriods; simpl;
    by rewrite flat_map_app, ?app_nil_r; simpl; rewrite ?app_nil_r.
Qed.

Lemma placed_blocks (chunks : list subjectChunk) (days days' : output.Days) :
  placed chunks days days' ->
  forall assign0 : arr5 (list (subjectChunk * list (option addr))),
    days = arr5_map blocksPeriods assign0 ->
    Forall wholeBlock (concat (arr5_list assign0)) ->
    exists assign,
      days' = arr5_map blocksPeriods assign
      /\ Forall wholeBlock (concat (arr5_list assign))
      /\ List.map fst (concat (arr5_list assign))
         ≡ₚ List.map fst (concat (arr5_list assign0)) ++ chunks.
Proof.
  induction 1 as [days | c rest days rooms days' Hlen Hall Hpl IH];
    intros assign0 Hd Hwhole.
  - exists assign0. split; [done|]. split; [done|]. by rewrite app_nil_r.
  - subst days. set (i := pickLeastLoadedDay (arr5_map blocksPeriods assign0)) in *.
    destruct (IH (arr5_set assign0 i (arr5_get assign0 i ++ [(c, rooms)])))
      as (assign & Hd' & Hw' & Hperm).
    + apply (blocks_set_app assign0 i (c, rooms)).
    + rewrite concat_set_app. apply Forall_app. split; [done|].
      constructor; [|constructor]. by split.
    + exists assign. split; [done|]. split; [done|].
      rewrite Hperm, concat_set_app, List.map_app. simpl.
      by rewrite <- app_assoc.
Qed.

(** X5. The builder never splits a chunk: in the Individual that
    [randomIndividual] returns, each weekday of each division is a
    sequence of whole blocks, a block being the [size] consecutive
    single-lesson periods of one chunk, and every chunk of the division
    has exactly one block in the week.  A division without chunks keeps
    its five days empty. *)
Theorem randomIndividual_keeps_chunks_whole (inp : input.InputData) (st : state) :
  exists ind st',
    randomIndividual inp st = Ok (ind, st')
    /\ Forall2
         (fun div days =>
            weekOfBlocks (extractSubjectChunks div) days
            /\ (extractSubjectChunks div = [] -> days = arr5_const []))
         (input.Divisions inp) (load (hp st') ind).
Proof.
  destruct (randomIndividual_placed inp st) as (ind & st' & Hrun & Hall).
  exists ind, st'. split; [done|].
  eapply Forall2_impl; [exact Hall|]. simpl. intros div days Hpl. split.
  - destruct (placed_blocks _ _ _ Hpl (arr5_const [])) as (assign & Hd & Hw & Hperm);
      [done | constructor |].
    exists assign. by repeat split.
  - intros Hnil. rewrite Hnil in Hpl. by inversion Hpl.
Qed.

(** ** Edge behaviour of [fitness] *)

Lemma to_int64_range (z : Z) : is_int (to_int64 z).
Proof.
  unfold is_int, int64_min, int64_max, to_int64.
  pose proof (Z.mod_pos_bound (z + 2 ^ 63) (2 ^ 64) ltac:(lia)). lia.
Qed.

(** X6. [fitness] returns exactly when the Individual has at least as
    many weeks as the instance has divisions, and the score it returns is
    in the range of [int]; with fewer weeks it panics with an index out
    of range, whatever the weeks hold. *)
Theorem fitness_returns_iff_enough_weeks (mem : memory) (tts : list output.Days)
    (inp : input.InputData) :
  ((length (input.Divisions inp) <= length tts)%nat ->
   exists v, fitness mem tts inp = Ok v /\ is_int v)
  /\ ((length tts < length (input.Divisions inp))%nat ->
      fitness mem tts inp = Panic "index out of range")
  /\ ((exists v, fitness mem tts inp = Ok v) <->
      (length (input.Divisions inp) <= length tts)%nat).
Proof.
  split; [|split].
  - intros Hlen. rewrite fitness_penalty by done.
    eexists. split; [done | apply to_int64_range].
  - apply fitness_short.
  - split.
    + intros [v Hv]. destruct (decide (length (input.Divisions inp) <= length tts)%nat);
        [done|]. rewrite fitness_short in Hv by lia. done.
    + intros Hlen. rewrite fitness_penalty by done. by eexists.
Qed.

Lemma countsFor_unused (c : subjectChunk) (sb : output.Subject) :
  output.GlobalSubject sb = None -> countsFor c sb = false.
Proof. intros H. unfold countsFor. by rewrite H. Qed.

(** X7. [fitness] does not look at a lesson position without a subject:
    replacing such a position by any other lesson without a subject
    (whatever teacher, classroom or group it carries) gives the same
    result, score or panic. *)
Theorem fitness_ignores_unused_positions (mem : memory) (inp : input.InputData)
    (tts : list output.Days) (p : place) (old new : output.Subject) :
  wfPlace p ->
  lessonAt tts p = Some old ->
  output.GlobalSubject old = None ->
  output.GlobalSubject new = None ->
  fitness mem (setLesson tts p new) inp = fitness mem tts inp.
Proof.
  intros Hwf Hold Hnone Hnew.
  destruct (decide (length (input.Divisions inp) <= length tts)%nat) as [Hlen|Hlen].
  - rewrite !fitness_penalty by (by rewrite ?setLesson_length).
    do 2 f_equal. unfold penalty.
    assert (Hfresh : forall who, notBooked who tts (slotOf p) new).
    { intros who. unfold notBooked. rewrite booking_unused by done. constructor. }
    rewrite !(extras_fill_fresh _ tts p old new Hwf Hold Hnone (Hfresh _)).
    rewrite setLesson_imbalance.
    assert (Hunmet : unmetAll (input.Divisions inp) (setLesson tts p new)
                     = unmetAll (input.Divisions inp) tts); [|by rewrite Hunmet].
    destruct Hwf as [Hday _].
    destruct (setLesson_unfold tts p old new Hold) as (days & sg & Hd & Hs & -> & ->).
    destruct (input.Divisions inp !! pDiv p) as [div|] eqn:Ediv.
    + rewrite (unmetAll_insert _ tts (pDiv p) div days _ Ediv Hd).
      assert (Heq : unmet div
                (arr5_set days (pDay p)
                   (<[pSlot p := arr3_set sg (pPos p) new]> (arr5_get days (pDay p))))
              = unmet div days); [|lia].
      unfold unmet. f_equal. apply map_ext. intros c. unfold shortfall.
      rewrite (placedHours_set c days _ _ _ sg new Hday Hs).
      rewrite !countsFor_unused by done. lia.
    + by rewrite unmetAll_insert_beyond.
  - rewrite !fitness_short by (rewrite ?setLesson_length; lia). done.
Qed.

Lemma fitness_ignores_unused_positions_witness :
  fitness letters
    (setLesson pairWeeks spare (output.mkSubject None (Some 1%nat) (Some 7%nat) None))
    pairInstance
  = fitness letters pairWeeks pairInstance.
Proof.
  apply (fitness_ignores_unused_positions letters pairInstance pairWeeks spare output.zero).
  - split; simpl; lia.
  - reflexivity.
  - reflexivity.
  - reflexivity.
Defined.

(** ** What [mutate] can and cannot change *)

Lemma insert_head_perm {A} (l : list A) (j : nat) (x a : A) :
  l !! j = Some x -> x :: <[j := a]> l ≡ₚ a :: l.
Proof.
  revert j. induction l as [|b l IH]; intros j Hj; [done|].
  destruct j as [|j]; simpl in *.
  - injection Hj as ->. apply perm_swap.
  - rewrite perm_swap, (IH j Hj). apply perm_swap.
Qed.

Lemma swap_perm {A} (l : list A) (i j : nat) (x y : A) :
  l !! i = Some x -> l !! j = Some y -> <[j := x]> (<[i := y]> l) ≡ₚ l.
Proof.
  revert i j. induction l as [|a l IH]; intros i j Hi Hj; [done|].
  destruct i as [|i], j as [|j]; simpl in *.
  - injection Hi as ->. by injection Hj as ->.
  - injection Hi as ->. by apply insert_head_perm.
  - injection Hj as ->. by apply insert_head_perm.
  - by rewrite (IH i j Hi Hj).
Qed.

Lemma mutate_heap (s : Solver) (ind : Individual) (st st' : state) :
  mutate s ind st = Ok (tt, st') ->
  hp st' = hp st
  \/ exists a d',
       In a (cells ind)
       /\ (a < length (hp st))%nat
       /\ d' ≡ₚ loadDay (hp st) a
       /\ hp st' = <[a := d']> (hp st).
Proof.
  unfold mutate, bind, Float64.
  destruct (above _ (MutationRate s)); [intros [= <-]; by left|].
  destruct (Intn _ _) as [[dx st1]|] eqn:Ex; [|done].
  apply Intn_inv in Ex as [Hh1 _].
  destruct (Intn 5 st1) as [[day st2]|] eqn:Ed; [|done].
  apply Intn_inv in Ed as [Hh2 _].
  destruct (index (Timetables ind) dx st2) as [[days st3]|] eqn:Ei; [|done].
  apply index_inv in Ei as [-> Hdays].
  unfold readDay.
  set (a := arr5_get days (Z.to_nat day)).
  assert (Hh : hp st2 = hp st) by (rewrite Hh2, Hh1; done).
  destruct (Z.ltb_spec 1 (Z.of_nat (length (loadDay (hp st2) a)))) as [Hlen|Hlen].
  - destruct (Intn _ st2) as [[s1 st4]|] eqn:E1; [|done].
    apply Intn_inv in E1 as [Hh4 _].
    destruct (Intn _ st4) as [[s2 st5]|] eqn:E2; [|done].
    apply Intn_inv in E2 as [Hh5 _].
    destruct (index _ s1 st5) as [[x1 st6]|] eqn:E3; [|done].
    apply index_inv in E3 as [-> Hx1].
    destruct (index _ s2 st5) as [[x2 st7]|] eqn:E4; [|done].
    apply index_inv in E4 as [-> Hx2].
    unfold writeDay. intros [= <-]. right. simpl.
    exists a, (<[Z.to_nat s2 := x1]> (<[Z.to_nat s1 := x2]> (loadDay (hp st2) a))).
    split; [|split; [|split]].
    + apply in_flat_map. exists days. split; [|apply arr5_get_in].
      apply list_elem_of_In. by eapply list_elem_of_lookup_2.
    + rewrite <- Hh. unfold loadDay in Hlen.
      destruct (hp st2 !! a) eqn:El; [by eapply lookup_lt_Some | simpl in Hlen; lia].
    + rewrite <- Hh. by apply swap_perm.
    + by rewrite Hh5, Hh4, Hh.
  - intros [= <-]. left. congruence.
Qed.

Lemma mutate_heap_perm (s : Solver) (ind : Individual) (st st' : state) :
  mutate s ind st = Ok (tt, st') ->
  forall a, loadDay (hp st') a ≡ₚ loadDay (hp st) a.
Proof.
  intros H a'.
  destruct (mutate_heap s ind st st' H) as [->|(a & d' & Hin & Hlt & Hperm & ->)]; [done|].
  unfold loadDay in *. destruct (decide (a' = a)) as [->|Hne].
  - by rewrite list_lookup_insert_eq.
  - by rewrite list_lookup_insert_ne.
Qed.

(** X8. [mutate] never adds or removes a period: when it returns, the
    heap has as many arrays as before, every array holds the same periods
    as before up to order, and an array that none of the Individual's
    slice headers points at is exactly as it was. *)
Theorem mutate_permutes_days (s : Solver) (ind : Individual) (st st' : state) :
  mutate s ind st = Ok (tt, st') ->
  length (hp st') = length (hp st)
  /\ (forall a, loadDay (hp st') a ≡ₚ loadDay (hp st) a)
  /\ (forall a, ~ In a (cells ind) -> loadDay (hp st') a = loadDay (hp st) a).
Proof.
  intros H. split; [|split; [by apply (mutate_heap_perm s ind)|]].
  - destruct (mutate_heap s ind st st' H) as [->|(a & d' & _ & _ & _ & ->)]; [done|].
    by rewrite length_insert.
  - intros a' Hout.
    destruct (mutate_heap s ind st st' H) as [->|(a & d' & Hin & _ & _ & ->)]; [done|].
    unfold loadDay. rewrite list_lookup_insert_ne; [done|]. by intros ->.
Qed.

Lemma mutate_permutes_days_witness :
  exists st',
    mutate (mkSolver 2 1 1) smallInd (smallState (tapeOneAt 4)) = Ok (tt, st')
    /\ length (hp st') = length (hp (smallState (tapeOneAt 4)))
    /\ (forall a, loadDay (hp st') a ≡ₚ loadDay (hp (smallState (tapeOneAt 4))) a)
    /\ (forall a, ~ In a (cells smallInd) ->
                  loadDay (hp st') a = loadDay (hp (smallState (tapeOneAt 4))) a).
Proof.
  eexists. split; [vm_compute; reflexivity|].
  apply (mutate_permutes_days (mkSolver 2 1 1) smallInd (smallState (tapeOneAt 4))).
  vm_compute. reflexivity.
Defined.

Lemma positions_sameLessons (w w' : output.Days) :
  sameLessons w w' -> positions w ≡ₚ positions w'.
Proof.
  destruct w as [d0 d1 d2 d3 d4], w' as [e0 e1 e2 e3 e4].
  unfold sameLessons, positions, periods, arr5_list. simpl. intros H.
  repeat match goal with H : Forall2 _ (_ :: _) (_ :: _) |- _ => inversion_clear H end.
  rewrite !flat_map_app.
  repeat (apply Permutation_app; [by apply Permutation_flat_map|]).
  done.
Qed.

Lemma unmet_sameLessons (div : input.Division) (w w' : output.Days) :
  sameLessons w w' -> unmet div w = unmet div w'.
Proof.
  intros H. unfold unmet. f_equal. apply map_ext. intros c.
  unfold shortfall, placedHours.
  by rewrite (countIf_perm _ _ _ (positions_sameLessons _ _ H)).
Qed.

Lemma imbalance_sameLessons (w w' : output.Days) :
  sameLessons w w' -> imbalance w = imbalance w'.
Proof.
  destruct w as [d0 d1 d2 d3 d4], w' as [e0 e1 e2 e3 e4].
  unfold sameLessons, arr5_list. simpl. intros H.
  repeat match goal with H : Forall2 _ (_ :: _) (_ :: _) |- _ => inversion_clear H end.
  unfold imbalance, spread, minLength, dayLengths, arr5_list. simpl.
  repeat match goal with H : _ ≡ₚ _ |- _ => apply Permutation_length in H; rewrite H; clear H end.
  done.
Qed.

Lemma load_sameLessons (h h' : list (list (arr3 output.Subject))) (x : Individual) :
  (forall a, loadDay h' a ≡ₚ loadDay h a) ->
  Forall2 sameLessons (load h' x) (load h x).
Proof.
  intros H. unfold load. induction (Timetables x) as [|row rows IH]; simpl; [constructor|].
  constructor; [|done]. destruct row. unfold sameLessons, arr5_map, arr5_list. simpl.
  repeat constructor; apply H.
Qed.

Lemma unmetAll_sameLessons (divs : list input.Division) (tts tts' : list output.Days) :
  Forall2 sameLessons tts' tts -> unmetAll divs tts' = unmetAll divs tts.
Proof.
  intros H. revert divs. induction H as [|w' w tts' tts Hw _ IH]; intros divs.
  - done.
  - destruct divs as [|div divs]; [done|]. simpl.
    by rewrite (unmet_sameLessons div _ _ Hw), IH.
Qed.

(** X9. A mutation can change conflict penalties only: for every
    Individual read through the heap after [mutate] (the mutated one, its
    parents, the best-seen one), the missing hours of every division and
    the imbalance of every week are what they were before. *)
Theorem mutate_keeps_allocation_and_balance (s : Solver) (ind : Individual)
    (st st' : state) (x : Individual) (divs : list input.Division) :
  mutate s ind st = Ok (tt, st') ->
  unmetAll divs (load (hp st') x) = unmetAll divs (load (hp st) x)
  /\ List.map imbalance (load (hp st') x) = List.map imbalance (load (hp st) x).
Proof.
  intros H. pose proof (mutate_heap_perm s ind st st' H) as Hperm.
  pose proof (load_sameLessons (hp st) (hp st') x Hperm) as Hsame.
  split; [by apply unmetAll_sameLessons|].
  induction Hsame as [|w' w tts' tts Hw _ IH]; [done|].
  simpl. by rewrite (imbalance_sameLessons _ _ Hw), IH.
Qed.

Lemma mutate_keeps_allocation_and_balance_witness :
  exists st',
    mutate (mkSolver 2 1 1) smallInd (smallState (tapeOneAt 4)) = Ok (tt, st')
    /\ unmetAll (input.Divisions pairInstance) (load (hp st') smallInd)
       = unmetAll (input.Divisions pairInstance)
           (load (hp (smallState (tapeOneAt 4))) smallInd)
    /\ List.map imbalance (load (hp st') smallInd)
       = List.map imbalance (load (hp (smallState (tapeOneAt 4))) smallInd).
Proof.
  eexists. split; [vm_compute; reflexivity|].
  apply (mutate_keeps_allocation_and_balance (mkSolver 2 1 1) smallInd
           (smallState (tapeOneAt 4))).
  vm_compute. reflexivity.
Defined.

Lemma draw_in_unit (k : Z) :
  0 <= k mod 2 ^ 53 < 2 ^ 53.
Proof. apply Z.mod_pos_bound. lia. Qed.

Lemma above_negative_rate (k : Z) (rate : Q) :
  (rate < 0)%Q -> above (Qmake (k mod 2 ^ 53) (2 ^ 53)%positive) rate = true.
Proof.
  intros Hneg. unfold above. apply negb_true_iff, not_true_is_false.
  rewrite Qle_bool_iff. unfold Qle, Qlt in *. simpl in *.
  pose proof (draw_in_unit k). nia.
Qed.

Lemma above_full_rate (k : Z) (rate : Q) :
  (1 <= rate)%Q -> above (Qmake (k mod 2 ^ 53) (2 ^ 53)%positive) rate = false.
Proof.
  intros Hfull. unfold above. apply negb_false_iff.
  rewrite Qle_bool_iff. unfold Qle in *. simpl in *.
  pose proof (draw_in_unit k). nia.
Qed.

(** X10. Edges of the mutation rate, for a rate that is a number.  With
    a negative rate [mutate] never mutates: it consumes one draw and
    leaves the heap alone.  With a rate of at least 1 it always goes on
    to pick a division, so on an Individual without divisions it panics
    in [rand.Intn(0)]. *)
Theorem mutate_rate_edges (s : Solver) (ind : Individual) (st : state) :
  ((MutationRate s < 0)%Q ->
   mutate s ind st = Ok (tt, State (hp st) (advance (rnd st))))
  /\ ((1 <= MutationRate s)%Q ->
      Timetables ind = [] ->
      mutate s ind st = Panic "invalid argument to Intn").
Proof.
  split.
  - intros Hneg. unfold mutate, bind, Float64.
    by rewrite above_negative_rate.
  - intros Hfull Hnil. unfold mutate, bind, Float64.
    rewrite above_full_rate by done. by rewrite Hnil.
Qed.

(** ** What [crossover] builds *)

Lemma arr5_get_set {A} (a : arr5 A) (i j : nat) (v : A) :
  arr5_get (arr5_set a i v) j = arr5_get a j
  \/ (arr5_get (arr5_set a i v) j = v /\ forall b : arr5 A, arr5_get b j = arr5_get b i).
Proof.
  destruct a. destruct i as [|[|[|[|i]]]], j as [|[|[|[|j]]]]; simpl;
    first [by left | right; by split].
Qed.

Lemma bredFrom_start (p1 p2 : list (arr5 addr)) (dx : nat) : bredFrom p1 p2 dx p1.
Proof.
  split; [done|]. intros d row1 H. exists row1. split; [done|]. split; [done|].
  intros day. by left.
Qed.

Lemma crossDay_bred (p1 : list (arr5 addr)) (p2 : Individual) (dx : Z)
    (child : list (arr5 addr)) (st : state) (child' : list (arr5 addr)) (st' : state) :
  bredFrom p1 (Timetables p2) (Z.to_nat dx) child ->
  crossDay p2 dx child st = Ok (child', st') ->
  bredFrom p1 (Timetables p2) (Z.to_nat dx) child'.
Proof.
  intros [Hlen Hrows]. unfold crossDay, bind.
  destruct (Intn 5 st) as [[day st1]|]; [|done].
  destruct (index (Timetables p2) dx st1) as [[src st2]|] eqn:Es; [|done].
  apply index_inv in Es as [-> Hsrc].
  destruct (index child dx st1) as [[dst st3]|] eqn:Et; [|done].
  apply index_inv in Et as [-> Hdst].
  intros [= <- <-]. split; [by rewrite length_insert|].
  intros d row1 Hrow1. destruct (Hrows d row1 Hrow1) as (rowc & Hc & Hsame & Hmix).
  destruct (decide (d = Z.to_nat dx)) as [->|Hne].
  - rewrite Hdst in Hc. injection Hc as ->.
    eexists. split; [by rewrite list_lookup_insert_eq by (by eapply lookup_lt_Some)|].
    split; [done|]. intros day'.
    destruct (arr5_get_set rowc (Z.to_nat day) day' (arr5_get src (Z.to_nat day)))
      as [->|[-> Hcell]].
    + apply Hmix.
    + right. exists src. split; [done|]. by rewrite Hcell.
  - exists rowc. by rewrite list_lookup_insert_ne.
Qed.

Lemma crossover_rows (p1 p2 : Individual) (st : state) (child : Individual) (st' : state) :
  crossover p1 p2 st = Ok (child, st') ->
  exists dx, bredFrom (Timetables p1) (Timetables p2) dx (Timetables child).
Proof.
  unfold crossover. destruct (0 <? Z.of_nat (length (Timetables p1))).
  - unfold bind. destruct (Intn _ st) as [[dx st1]|]; [|done].
    destruct (crossDay p2 dx (Timetables p1) st1) as [[c1 st2]|] eqn:E1; [|done].
    destruct (crossDay p2 dx c1 st2) as [[c2 st3]|] eqn:E2; [|done].
    intros [= <- <-]. exists (Z.to_nat dx). simpl.
    eapply crossDay_bred; [|exact E2].
    eapply crossDay_bred; [|exact E1]. apply bredFrom_start.
  - intros [= <- <-]. exists 0%nat. apply bredFrom_start.
Qed.

(** X11. [crossover] leaves the heap as it is and returns a child with as
    many weeks as the first parent; there is one division such that the
    child's row of slice headers equals the first parent's row in every
    other division, and in every division each header of the child is the
    header of the first or of the second parent for the same division and
    weekday.  No array is copied: child and parents share them. *)
Theorem crossover_takes_headers_from_parents (p1 p2 : Individual) (st : state)
    (child : Individual) (st' : state) :
  crossover p1 p2 st = Ok (child, st') ->
  hp st' = hp st
  /\ (exists dx, bredFrom (Timetables p1) (Timetables p2) dx (Timetables child))
  /\ (forall a, In a (cells child) -> In a (cells p1) \/ In a (cells p2)).
Proof.
  intros H. destruct (crossover_shares p1 p2 st child st' H) as (Hh & _ & Hcells).
  split; [done|]. split; [by eapply crossover_rows | done].
Qed.

Lemma arr5_ext {A} (a b : arr5 A) :
  (forall i, arr5_get a i = arr5_get b i) -> a = b.
Proof.
  intros H. destruct a, b.
  pose proof (H 0%nat). pose proof (H 1%nat). pose proof (H 2%nat).
  pose proof (H 3%nat). pose proof (H 4%nat). simpl in *. congruence.
Qed.

(** X12. A parent bred with itself gives a child with exactly the
    parent's slice headers: [crossover p p] returns [p] (the draws are
    consumed, nothing else changes). *)
Theorem crossover_with_itself (p : Individual) (st : state) (child : Individual)
    (st' : state) :
  crossover p p st = Ok (child, st') ->
  child = p /\ hp st' = hp st.
Proof.
  intros H. split; [|by apply (crossover_shares p p st child st')].
  destruct (crossover_rows p p st child st' H) as (dx & Hlen & Hrows).
  destruct child as [rows], p as [prow]. simpl in *. f_equal.
  apply list_eq. intros d. destruct (prow !! d) as [row1|] eqn:E.
  - destruct (Hrows d row1 E) as (rowc & -> & _ & Hmix). f_equal.
    rewrite E in Hmix. apply arr5_ext. intros day.
    destruct (Hmix day) as [?|(r2 & Hr2 & ?)]; [done|]. injection Hr2 as <-. done.
  - apply lookup_ge_None in E. apply lookup_ge_None. lia.
Qed.

(** X13. Edges of [crossover].  A first parent without divisions gives a
    child without divisions and consumes no draw.  A first parent with
    divisions and a second parent without any makes [crossover] panic
    with an index out of range. *)
Theorem crossover_edges (p1 p2 : Individual) (st : state) :
  (Timetables p1 = [] -> crossover p1 p2 st = Ok (mkIndividual [], st))
  /\ (Timetables p1 <> [] -> Timetables p2 = [] ->
      crossover p1 p2 st = Panic "index out of range").
Proof.
  split.
  - intros H. unfold crossover. by rewrite H.
  - intros Hne Hnil. unfold crossover.
    assert (Hpos : 0 < Z.of_nat (length (Timetables p1)))
      by (destruct (Timetables p1); [done | simpl; lia]).
    destruct (Z.ltb_spec 0 (Z.of_nat (length (Timetables p1)))); [|lia].
    unfold bind. destruct (Intn_ok _ st Hpos) as (dx & -> & Hdx).
    unfold crossDay, bind.
    destruct (Intn_ok 5 (State (hp st) (advance (rnd st))) ltac:(lia)) as (day & -> & _).
    rewrite Hnil. unfold index. destruct (Z.ltb_spec dx 0); [lia|]. done.
Qed.

Lemma crossover_takes_headers_from_parents_witness :
  exists child st',
    crossover smallInd smallInd (smallState (tapeOneAt 4)) = Ok (child, st')
    /\ hp st' = hp (smallState (tapeOneAt 4))
    /\ (exists dx, bredFrom (Timetables smallInd) (Timetables smallInd) dx
                     (Timetables child))
    /\ (forall a, In a (cells child) -> In a (cells smallInd) \/ In a (cells smallInd)).
Proof.
  eexists _, _. split; [vm_compute; reflexivity|].
  apply (crossover_takes_headers_from_parents smallInd smallInd
           (smallState (tapeOneAt 4))).
  vm_compute. reflexivity.
Defined.

Lemma crossover_with_itself_witness :
  exists child st',
    crossover smallInd smallInd (smallState (tapeOneAt 4)) = Ok (child, st')
    /\ child = smallInd
    /\ hp st' = hp (smallState (tapeOneAt 4)).
Proof.
  eexists _, _. split; [vm_compute; reflexivity|].
  apply (crossover_with_itself smallInd (smallState (tapeOneAt 4))).
  vm_compute. reflexivity.
Defined.

(** ** Further properties of [Solve] *)

Lemma insertFit_perm (x : Individual * Z) (l : list (Individual * Z)) :
  insertFit x l ≡ₚ x :: l.
Proof.
  induction l as [|y l IH]; simpl; [done|].
  destruct (snd y <? snd x); [|done]. rewrite IH. apply perm_swap.
Qed.

Lemma insertionSort_perm (l : list (Individual * Z)) : insertionSort l ≡ₚ l.
Proof.
  unfold insertionSort. induction l as [|x l IH]; simpl; [done|].
  by rewrite insertFit_perm, IH.
Qed.

(** X14. With a generation budget of 0 or less and a population of at
    least one, [Solve] returns the first Individual of the initial
    population as it was built, without comparing it with the others. *)
Theorem Solve_without_generations (e : env) (s : Solver) (inp : input.InputData) :
  Generations s <= 0 ->
  1 <= PopulationSize s ->
  exists pop st1 first,
    initializePopulation s inp (State [] (Rng (randSource e (unixNano e)) O))
    = Ok (pop, st1)
    /\ pop !! 0%nat = Some first
    /\ Solve e s inp = Ok (load (hp st1) first).
Proof.
  intros Hg Hp. unfold Solve, run, solveBody, bind.
  destruct (initializePopulation_sized s inp
              (State [] (Rng (randSource e (unixNano e)) O)) ltac:(lia))
    as (pop & st1 & Hinit & Hlen & Hpop).
  rewrite Hinit.
  destruct (index_in_range pop 0 st1 ltac:(lia)) as (first & -> & Hfirst).
  assert (Hf : sized inp first).
  { rewrite List.Forall_forall in Hpop. apply Hpop.
    apply list_elem_of_In. by eapply list_elem_of_lookup_2. }
  destruct (fitnessOf_sized (catalog e) inp first st1 Hf) as (f0 & -> & _).
  replace (Z.to_nat (Generations s)) with 0%nat by lia.
  exists pop, st1, first. by repeat split.
Qed.

Lemma Solve_without_generations_witness :
  exists pop st1 first,
    initializePopulation (mkSolver 2 0 1) twoDivisions
      (State [] (Rng (randSource (tapeEnv (tapeOneAt 9)) (unixNano (tapeEnv (tapeOneAt 9)))) O))
    = Ok (pop, st1)
    /\ pop !! 0%nat = Some first
    /\ Solve (tapeEnv (tapeOneAt 9)) (mkSolver 2 0 1) twoDivisions
       = Ok (load (hp st1) first).
Proof.
  apply (Solve_without_generations (tapeEnv (tapeOneAt 9)) (mkSolver 2 0 1) twoDivisions);
    simpl; lia.
Defined.

Lemma generations_no_division (mem : memory)
    (sortSlice : list (Individual * Z) -> list (Individual * Z))
    (s : Solver) (inp : input.InputData) (g : nat) (pop : list Individual)
    (b : Individual) (st : state) :
  input.Divisions inp = [] ->
  Forall (sized inp) pop ->
  sized inp b ->
  exists b',
    generations mem sortSlice s inp g pop b 0 st = Ok ((b', 0), st) /\ sized inp b'.
Proof.
  intros Hnil Hpop Hb. destruct g as [|g].
  - by exists b.
  - cbn [generations]. unfold bind at 1.
    destruct (evaluate_sized mem inp pop b 0 st Hpop Hb)
      as (fits & b' & bf' & -> & _ & Hb' & _ & Hz).
    cbn [fst snd]. rewrite (Hz Hnil eq_refl). by exists b'.
Qed.

(** X15. For an instance without divisions and a population of at least
    one, [Solve] returns the empty list of timetables, whatever the
    generation budget, the mutation rate and the draws. *)
Theorem Solve_without_divisions (e : env) (s : Solver) (inp : input.InputData) :
  input.Divisions inp = [] ->
  1 <= PopulationSize s ->
  Solve e s inp = Ok [].
Proof.
  intros Hnil Hp. unfold Solve, run, solveBody, bind.
  destruct (initializePopulation_sized s inp
              (State [] (Rng (randSource e (unixNano e)) O)) ltac:(lia))
    as (pop & st1 & -> & Hlen & Hpop).
  destruct (index_in_range pop 0 st1 ltac:(lia)) as (first & -> & Hfirst).
  assert (Hf : sized inp first).
  { rewrite List.Forall_forall in Hpop. apply Hpop.
    apply list_elem_of_In. by eapply list_elem_of_lookup_2. }
  destruct (fitnessOf_sized (catalog e) inp first st1 Hf) as (f0 & -> & Hz).
  rewrite (Hz Hnil).
  destruct (generations_no_division (catalog e) (sortSlice e) s inp
              (Z.to_nat (Generations s)) pop first st1 Hnil Hpop Hf)
    as (b' & -> & Hb').
  simpl. unfold sized in Hb'. rewrite Hnil in Hb'.
  unfold load. destruct (Timetables b'); [done | simpl in Hb'; lia].
Qed.

Lemma Solve_without_divisions_witness :
  Solve (tapeEnv (tapeOneAt 9)) (mkSolver 3 7 1) (input.mkInputData [] [] [] []) = Ok [].
Proof.
  apply (Solve_without_divisions (tapeEnv (tapeOneAt 9)) (mkSolver 3 7 1)
           (input.mkInputData [] [] [] [])); [reflexivity | simpl; lia].
Defined.

Lemma evaluate_zero (mem : memory) (inp : input.InputData) (pop : list Individual)
    (b : Individual) (bf : Z) (st : state)
    (r : list (Individual * Z) * (Individual * Z)) (st' : state) :
  evaluate mem inp pop b bf st = Ok (r, st') ->
  (bf = 0 -> fitness mem (load (hp st) b) inp = Ok 0) ->
  snd (snd r) = 0 ->
  fitness mem (load (hp st) (fst (snd r))) inp = Ok 0.
Proof.
  revert b bf r. induction pop as [|ind rest IH]; intros b bf r.
  - simpl. intros [= <- <-] Hb Hz. simpl in *. by apply Hb.
  - cbn [evaluate]. unfold bind at 1.
    destruct (fitnessOf mem inp ind st) as [[f st1]|] eqn:Ef; [|done].
    apply fitnessOf_inv in Ef as [-> Ef].
    destruct (f <? bf).
    + destruct (Z.eqb_spec f 0) as [->|Hnz].
      * by intros [= <- <-] _ _.
      * unfold bind. destruct (evaluate mem inp rest ind f st) as [[r1 st1]|] eqn:Er; [|done].
        intros [= <- <-] _ Hz. simpl in *. eapply IH; [exact Er | | done].
        intros ->. done.
    + unfold bind. destruct (evaluate mem inp rest b bf st) as [[r1 st1]|] eqn:Er; [|done].
      intros [= <- <-] Hb Hz. simpl in *. by eapply IH.
Qed.

Lemma generations_zero (mem : memory)
    (sortSlice : list (Individual * Z) -> list (Individual * Z))
    (s : Solver) (inp : input.InputData) (g : nat) (pop : list Individual)
    (b : Individual) (bf : Z) (st : state) (r : Individual * Z) (st' : state) :
  generations mem sortSlice s inp g pop b bf st = Ok (r, st') ->
  (bf = 0 -> fitness mem (load (hp st) b) inp = Ok 0) ->
  snd r = 0 ->
  fitness mem (load (hp st') (fst r)) inp = Ok 0.
Proof.
  revert pop b bf st. induction g as [|g IH]; intros pop b bf st.
  - simpl. intros [= <- <-] Hb Hz. by apply Hb.
  - cbn [generations]. unfold bind at 1.
    destruct (evaluate mem inp pop b bf st) as [[r1 st1]|] eqn:Er; [|done].
    destruct (evaluate_best _ _ _ _ _ _ _ _ Er) as (-> & _ & _).
    destruct (Z.eqb_spec (snd (snd r1)) 0) as [Hz1|Hnz].
    + intros [= <- <-] Hb _. by eapply evaluate_zero.
    + unfold bind.
      destruct (selectElite _ _ _ _ st) as [[elite st2]|]; [|done].
      destruct (reproduce _ _ _ _ st2) as [[nextPop st3]|]; [|done].
      intros H _ Hz. eapply IH; [exact H | | done]. intros E. done.
Qed.

(** X16. A best-seen score of 0 is never stale: whenever [Solve] returns
    with a best-seen score of 0, the Individual it returns, read through
    the heap at that moment, scores 0.  (The loop stops at the first
    score 0, before any further mutation can write into the arrays of the
    Individual it has recorded.) *)
Theorem Solve_zero_score_is_real (e : env) (s : Solver) (inp : input.InputData)
    (o : outcome) :
  run e s inp = Ok o ->
  bestFitness o = 0 ->
  fitness (catalog e) (load (hp (final o)) (bestIndividual o)) inp = Ok 0.
Proof.
  unfold run, solveBody, bind.
  destruct (initializePopulation s inp _) as [[pop st1]|]; [|done].
  destruct (index pop 0 st1) as [[first st2]|] eqn:Ei; [|done].
  apply index_inv in Ei as [-> _].
  destruct (fitnessOf (catalog e) inp first st1) as [[f0 st2]|] eqn:Ef; [|done].
  apply fitnessOf_inv in Ef as [-> Ef].
  destruct (generations _ _ s inp _ pop first f0 st1) as [[r st3]|] eqn:Eg; [|done].
  intros [= <-] Hz. simpl in *.
  eapply generations_zero; [exact Eg | | done]. by intros ->.
Qed.

Lemma Solve_zero_score_is_real_witness :
  exists o,
    run (tapeEnv (tapeOneAt 9)) (mkSolver 2 1 1) pairInstance = Ok o
    /\ bestFitness o = 0
    /\ fitness letters (load (hp (final o)) (bestIndividual o)) pairInstance = Ok 0.
Proof.
  eexists. split; [vm_compute; reflexivity|]. split; [reflexivity|].
  apply (Solve_zero_score_is_real (tapeEnv (tapeOneAt 9)) (mkSolver 2 1 1) pairInstance);
    vm_compute; reflexivity.
Defined.

Lemma Solve_returns_witness :
  (forall l, sortSlice (tapeEnv (tapeOneAt 9)) l ≡ₚ l)
  /\ 2 <= PopulationSize (mkSolver 2 1 1)
  /\ exists tts,
       Solve (tapeEnv (tapeOneAt 9)) (mkSolver 2 1 1) twoDivisions = Ok tts
       /\ length tts = length (input.Divisions twoDivisions).
Proof.
  split; [exact insertionSort_perm|]. split; [simpl; lia|].
  apply (Solve_returns (tapeEnv (tapeOneAt 9)) (mkSolver 2 1 1) twoDivisions).
  - exact insertionSort_perm.
  - simpl. lia.
Defined.

Lemma run_best_seen_score_witness :
  exists o pop st1 first f0,
    run (tapeEnv (tapeOneAt 9)) (mkSolver 2 1 1) twoDivisions = Ok o
    /\ initializePopulation (mkSolver 2 1 1) twoDivisions
         (State [] (Rng (tapeOneAt 9) O)) = Ok (pop, st1)
    /\ pop !! 0%nat = Some first
    /\ fitness letters (load (hp st1) first) twoDivisions = Ok f0
    /\ bestFitness o <= f0.
Proof.
  assert (Hrun : exists o, run (tapeEnv (tapeOneAt 9)) (mkSolver 2 1 1) twoDivisions = Ok o)
    by (eexists; vm_compute; reflexivity).
  destruct Hrun as [o Ho]. exists o.
  destruct (run_best_seen_score (tapeEnv (tapeOneAt 9)) (mkSolver 2 1 1) twoDivisions o Ho)
    as (pop & st1 & first & f0 & H1 & H2 & H3 & H4 & _).
  exists pop, st1, first, f0. by repeat split.
Defined.

Lemma Solve_panics_without_population_witness :
  PopulationSize (mkSolver 0 5 1) = 0
  /\ Solve (tapeEnv (tapeOneAt 9)) (mkSolver 0 5 1) pairInstance
     = Panic "index out of range".
Proof.
  split; [reflexivity|].
  apply (Solve_panics_without_population (tapeEnv (tapeOneAt 9)) (mkSolver 0 5 1)
           pairInstance).
  reflexivity.
Defined.

Lemma Solve_panics_with_one_witness :
  PopulationSize (mkSolver 1 3 1) = 1
  /\ 0 < Generations (mkSolver 1 3 1)
  /\ Solve (tapeEnv (tapeOneAt 9)) (mkSolver 1 3 1) twoDivisions
     = Panic "invalid argument to Intn".
Proof.
  split; [reflexivity|]. split; [simpl; lia|].
  apply (Solve_panics_with_one (tapeEnv (tapeOneAt 9)) (mkSolver 1 3 1) twoDivisions).
  - reflexivity.
  - simpl. lia.
  - intros ind st1 H. vm_compute in H. injection H as <- <-.
    vm_compute. discriminate.
Defined.

(** ** Further properties of the chunk extractor and of allocation *)

(** X17. Whatever the allocation vectors hold, every chunk that
    [extractSubjectChunks] returns has a positive size, belongs to a
    requirement of the division and has one of that requirement's
    allocation entries as its size; a requirement gives at most five
    chunks, so there are at most five times as many chunks as
    requirements. *)
Theorem extractSubjectChunks_bounds (div : input.Division) :
  Forall
    (fun c =>
       0 < size c
       /\ In (subj c) (input.Subjects div)
       /\ In (size c) (arr5_list (input.Allocation (subj c))))
    (extractSubjectChunks div)
  /\ (length (extractSubjectChunks div) <= 5 * length (input.Subjects div))%nat.
Proof.
  rewrite extractSubjectChunks_flat. split.
  - apply List.Forall_forall. intros c Hc.
    apply in_flat_map in Hc as (sb & Hsb & Hc).
    apply in_map_iff in Hc as (a & <- & Ha).
    apply filter_In in Ha as [Hin Ha]. simpl. repeat split; [lia | done | done].
  - induction (input.Subjects div) as [|sb sbs IH]; [done|].
    cbn [List.flat_map]. rewrite length_app, length_map.
    pose proof (List.filter_length_le (fun alloc => 0 <? alloc)
                  (arr5_list (input.Allocation sb))) as Hle.
    change (length (arr5_list (input.Allocation sb))) with 5%nat in Hle.
    simpl length at 3. lia.
Qed.

(** ** The arrays of a freshly built Individual *)

Lemma storeDays_addresses (days : output.Days) (st : state) :
  storeDays days st
  = Ok (Arr5 (length (hp st)) (length (hp st) + 1)%nat (length (hp st) + 2)%nat
          (length (hp st) + 3)%nat (length (hp st) + 4)%nat,
        State (hp st ++ arr5_list days) (rnd st)).
Proof.
  destruct st as [h r], days as [d0 d1 d2 d3 d4].
  unfold storeDays, bind, alloc, ret. simpl.
  rewrite !length_app. simpl. rewrite <- !app_assoc. simpl.
  do 2 f_equal. f_equal; lia.
Qed.

Lemma buildDivisions_addresses (divs : list input.Division) (st : state) :
  exists refs more r',
    buildDivisions divs st = Ok (refs, State (hp st ++ more) r')
    /\ List.flat_map arr5_list refs = seq (length (hp st)) (5 * length divs)
    /\ length more = (5 * length divs)%nat.
Proof.
  revert st. induction divs as [|div rest IH]; intros st.
  - exists [], [], (rnd st). rewrite app_nil_r. destruct st. by repeat split.
  - cbn [buildDivisions]. unfold bind, buildDivision.
    destruct (placeChunks_ok (extractSubjectChunks div) (arr5_const []) st)
      as (days & r1 & -> & _).
    rewrite storeDays_addresses. cbn [hp rnd].
    destruct (IH (State (hp st ++ arr5_list days) r1)) as (refs & more & r2 & -> & Hc & Hl).
    cbn [hp] in *. unfold ret.
    exists (Arr5 (length (hp st)) (length (hp st) + 1)%nat (length (hp st) + 2)%nat
              (length (hp st) + 3)%nat (length (hp st) + 4)%nat :: refs),
           (arr5_list days ++ more), r2.
    rewrite app_assoc. split; [done|]. split.
    + cbn [List.flat_map]. rewrite Hc, length_app.
      change (length (arr5_list days)) with 5%nat.
      replace (5 * length (div :: rest))%nat with (5 + 5 * length rest)%nat
        by (simpl; lia).
      rewrite seq_app. f_equal. unfold arr5_list. simpl.
      repeat f_equal; lia.
    + rewrite length_app. change (length (arr5_list days)) with 5%nat.
      simpl in *. lia.
Qed.

(** X18. An Individual from [randomIndividual] owns its arrays: it gets
    five new backing arrays per division, at the next free addresses, all
    distinct, and every array that was in the heap before is left as it
    was.  (Sharing between Individuals arises from [crossover] only.) *)
Theorem randomIndividual_fresh_arrays (inp : input.InputData) (st : state) :
  exists ind st' more,
    randomIndividual inp st = Ok (ind, st')
    /\ hp st' = hp st ++ more
    /\ cells ind = seq (length (hp st)) (5 * length (input.Divisions inp))
    /\ NoDup (cells ind)
    /\ (forall a, In a (cells ind) -> (length (hp st) <= a)%nat)
    /\ (forall a, (a < length (hp st))%nat -> loadDay (hp st') a = loadDay (hp st) a).
Proof.
  destruct (buildDivisions_addresses (input.Divisions inp) st)
    as (refs & more & r' & Hb & Hc & Hl).
  exists (mkIndividual refs), (State (hp st ++ more) r'), more.
  unfold randomIndividual, bind. rewrite Hb. unfold cells. simpl.
  split; [done|]. split; [done|]. split; [done|]. rewrite Hc.
  split; [apply NoDup_ListNoDup, seq_NoDup|]. split.
  - intros a Ha. apply in_seq in Ha. lia.
  - intros a Ha. by apply loadDay_app_l.
Qed.

(** ** An instance with a single division *)

Lemma builtPeriod_single (chunks : list subjectChunk) (sg : arr3 output.Subject) :
  builtPeriod chunks sg -> singleLesson sg.
Proof. intros (c & room & _ & _ & ->). by split. Qed.

Lemma dayBookings_keys (who : output.Subject -> option string) (day slot : nat)
    (sgs : list (arr3 output.Subject)) (b : nat * nat * string) :
  b ∈ dayBookings who day slot sgs ->
  fst (fst b) = day /\ (slot <= snd (fst b))%nat.
Proof.
  revert slot. induction sgs as [|sg sgs IH]; intros slot; [by intros ?%elem_of_nil|].
  cbn [dayBookings]. rewrite elem_of_app. intros [Hb|Hb].
  - apply list_elem_of_In, in_flat_map in Hb as (sb & _ & Hb).
    unfold booking in Hb. destruct (output.GlobalSubject sb); [|done].
    destruct (who sb); [|done]. destruct Hb as [<-|[]]. simpl. split; [done | lia].
  - destruct (IH (S slot) Hb). split; [done | lia].
Qed.

Lemma dayBookings_single_NoDup (who : output.Subject -> option string) (day slot : nat)
    (sgs : list (arr3 output.Subject)) :
  Forall singleLesson sgs -> NoDup (dayBookings who day slot sgs).
Proof.
  intros H. revert slot. induction H as [|sg sgs [H1 H2] _ IH]; intros slot.
  - constructor.
  - cbn [dayBookings]. unfold arr3_list. rewrite H1, H2. simpl. rewrite app_nil_r.
    destruct (booking_cases who (day, slot) (b0 sg)) as [->|[x ->]]; [apply IH|].
    simpl. constructor; [|apply IH].
    intros Hin. apply dayBookings_keys in Hin as [_ Hle]. simpl in Hle. lia.
Qed.

Lemma weekBookings_single_NoDup (who : output.Subject -> option string)
    (days : output.Days) :
  Forall singleLesson (periods days) -> NoDup (weekBookings who days).
Proof.
  destruct days as [d0 d1 d2 d3 d4]. unfold periods, arr5_list, weekBookings. simpl.
  rewrite !Forall_app, app_nil_r. intros (H0 & H1 & H2 & H3 & H4 & _).
  repeat (apply NoDup_app; split;
          [by apply dayBookings_single_NoDup
          | split;
            [intros b Hb Hb'; apply dayBookings_keys in Hb as [Hb _];
             rewrite ?elem_of_app in Hb';
             repeat (destruct Hb' as [Hb'|Hb'];
                     [apply dayBookings_keys in Hb' as [Hb' _]; lia|]);
             try (apply dayBookings_keys in Hb' as [Hb' _]; lia)
            |]]).
  by apply dayBookings_single_NoDup.
Qed.

(** X19. For an instance with a single division whose requirements all
    name a global subject and whose chunks all have size at most 4, the
    Individual that [randomIndividual] returns is perfect (no teacher or
    classroom conflict, every allocation met, spread at most 4) and
    [fitness] gives it 0, whatever classrooms are drawn. *)
Theorem single_division_fresh_is_perfect (mem : memory) (inp : input.InputData)
    (div : input.Division) (st : state) :
  input.Divisions inp = [div] ->
  Forall (fun sb => input.GlobalSubject sb <> None) (input.Subjects div) ->
  Forall (fun c => size c <= 4) (extractSubjectChunks div) ->
  exists ind st',
    randomIndividual inp st = Ok (ind, st')
    /\ perfect mem inp (load (hp st') ind)
    /\ fitness mem (load (hp st') ind) inp = Ok 0.
Proof.
  intros Hone Hnamed Hsmall.
  destruct (randomIndividual_placed inp st) as (ind & st' & Hrun & Hall).
  exists ind, st'. split; [done|].
  assert (Hperfect : perfect mem inp (load (hp st') ind)); [|split; [done|by apply perfect_fitness]].
  rewrite Hone in Hall. inversion Hall as [|? days ? tts' Hpl Hrest Heq1 Heq2].
  inversion Hrest. subst tts'. clear Hrest Hall.
  assert (Hsingle : Forall singleLesson (periods days)).
  { eapply Forall_impl;
      [|intros sg; apply (builtPeriod_single (extractSubjectChunks div))].
    apply (placed_built _ _ _ _ Hpl); [done | constructor]. }
  unfold perfect, noConflict, allocationsMet, balanced, bookings. rewrite Hone. simpl.
  rewrite !app_nil_r. split; [by apply weekBookings_single_NoDup|].
  split; [by apply weekBookings_single_NoDup|]. split.
  - constructor; [by apply placed_meets | constructor].
  - constructor; [|constructor].
    eapply placed_spread; [exact Hpl | | by rewrite spread_empty].
    pose proof (chunk_sizes_positive div) as Hpos.
    rewrite List.Forall_forall in *. intros c Hc.
    specialize (Hpos c Hc). specialize (Hsmall c Hc). lia.
Qed.

Lemma single_division_fresh_is_perfect_witness :
  input.Divisions twiceOneInstance = [input.mkDivision "T" 1 [twiceOne]]
  /\ Forall (fun sb => input.GlobalSubject sb <> None) [twiceOne]
  /\ Forall (fun c => size c <= 4)
        (extractSubjectChunks (input.mkDivision "T" 1 [twiceOne]))
  /\ exists ind st',
       randomIndividual twiceOneInstance (State [] (Rng (tapeOnes []) O)) = Ok (ind, st')
       /\ perfect letters twiceOneInstance (load (hp st') ind)
       /\ fitness letters (load (hp st') ind) twiceOneInstance = Ok 0.
Proof.
  assert (H1 : input.Divisions twiceOneInstance = [input.mkDivision "T" 1 [twiceOne]])
    by reflexivity.
  assert (H2 : Forall (fun sb => input.GlobalSubject sb <> None) [twiceOne])
    by (repeat constructor; discriminate).
  assert (H3 : Forall (fun c => size c <= 4)
                 (extractSubjectChunks (input.mkDivision "T" 1 [twiceOne])))
    by (repeat constructor; simpl; lia).
  split; [exact H1|]. split; [exact H2|]. split; [exact H3|].
  exact (single_division_fresh_is_perfect letters twiceOneInstance
           (input.mkDivision "T" 1 [twiceOne]) (State [] (Rng (tapeOnes []) O))
           H1 H2 H3).
Defined.

(** ** The rows of the timetable view *)

Lemma filter_length_filled (day : list (list Timetable.Subject)) :
  Forall (fun group => Timetable.hasSubject group = true) day ->
  length (List.filter Timetable.hasSubject day) = length day.
Proof.
  induction 1 as [|g day Hg _ IH]; [done|]. simpl. rewrite Hg. simpl. by rewrite IH.
Qed.

Lemma filter_length_gap (day : list (list Timetable.Subject)) :
  Exists (fun group => Timetable.hasSubject group = false) day ->
  (length (List.filter Timetable.hasSubject day) < length day)%nat.
Proof.
  induction 1 as [g day Hg | g day _ IH]; simpl.
  - rewrite Hg. pose proof (List.filter_length_le Timetable.hasSubject day). lia.
  - destruct (Timetable.hasSubject g); simpl; lia.
Qed.

Lemma actualRows_cons (day : Timetable.Day) (rest : list Timetable.Day) :
  exists n m,
    Timetable.actualRows (day :: rest) = Timetable.Num n
    /\ 0 <= m <= viewLength day
    /\ (viewFilled day -> m = viewLength day)
    /\ (viewGap day -> m < viewLength day)
    /\ (rest = [] -> n = m)
    /\ (forall k, Timetable.actualRows rest = Timetable.Num k -> n = Z.max m k).
Proof.
  unfold Timetable.actualRows, Timetable.Math_max. cbn [map foldr].
  set (tail := foldr Timetable.max Timetable.NegInfinity _).
  set (m := match day with
            | Some d => Z.of_nat (length (List.filter Timetable.hasSubject d))
            | None => 0
            end).
  assert (Hhead : (match day with
                   | Some d => Timetable.Num (Z.of_nat (length (List.filter Timetable.hasSubject d)))
                   | None => Timetable.Num 0
                   end) = Timetable.Num m) by (by destruct day).
  rewrite Hhead.
  assert (Hm : 0 <= m <= viewLength day
               /\ (viewFilled day -> m = viewLength day)
               /\ (viewGap day -> m < viewLength day)).
  { subst m. destruct day as [d|]; simpl.
    - pose proof (List.filter_length_le Timetable.hasSubject d).
      split; [lia|]. split.
      + intros Hf. by rewrite filter_length_filled.
      + intros Hg. apply filter_length_gap in Hg. lia.
    - split; [lia|]. split; [done | intros []]. }
  destruct Hm as (Hm1 & Hm2 & Hm3).
  destruct tail as [|k] eqn:Etail.
  - exists m, m. simpl. split_and!; try done; lia.
  - exists (Z.max m k), m. simpl. split_and!; try done; try lia.
    + intros ->. discriminate Etail.
    + by intros k' [= ->].
Qed.

(** X20. The number of rows of the timetable view: without a day
    [actualRows] is minus infinity; with at least one day it is a number
    between 0 and the length of the longest day, equal to that length
    when every group of every day holds a lesson with a subject, and
    smaller than it when the longest day is not empty and every day that
    is an array holds a group without such a lesson, so that the last
    groups of the longest day get no row. *)
Theorem actualRows_bounds (divisionData : list Timetable.Day) :
  match divisionData with
  | [] => Timetable.actualRows divisionData = Timetable.NegInfinity
  | _ :: _ =>
      exists n,
        Timetable.actualRows divisionData = Timetable.Num n
        /\ 0 <= n <= viewLongest divisionData
        /\ (Forall viewFilled divisionData -> n = viewLongest divisionData)
        /\ (0 < viewLongest divisionData ->
            Forall (fun day => day <> None -> viewGap day) divisionData ->
            n < viewLongest divisionData)
  end.
Proof.
  destruct divisionData as [|day rest]; [done|].
  revert day. induction rest as [|day' rest IH]; intros day.
  - destruct (actualRows_cons day []) as (n & m & -> & Hm & Hfull & Hgap & Hnil & _).
    rewrite (Hnil eq_refl). exists m. split; [done|].
    unfold viewLongest. simpl. split; [lia|]. split.
    + intros Hall. inversion_clear Hall as [|? ? Hd _]. specialize (Hfull Hd). lia.
    + intros Hpos Hall. inversion_clear Hall as [|? ? Hd _].
      destruct day as [d|]; [|simpl in Hpos; lia].
      assert (Hg : viewGap (Some d)) by (by apply Hd). specialize (Hgap Hg). lia.
  - destruct (IH day') as (k & Hk & Hk1 & Hkfull & Hkgap).
    destruct (actualRows_cons day (day' :: rest)) as (n & m & -> & Hm & Hfull & Hgap & _ & Hmax).
    rewrite (Hmax k Hk). exists (Z.max m k). split; [done|].
    change (viewLongest (day :: day' :: rest))
      with (Z.max (viewLength day) (viewLongest (day' :: rest))).
    set (L := viewLongest (day' :: rest)) in *.
    set (D := viewLength day) in *.
    split; [lia|]. split.
    + intros Hall. inversion_clear Hall as [|? ? Hd Hrest].
      specialize (Hfull Hd). specialize (Hkfull Hrest). lia.
    + intros Hpos Hall. inversion_clear Hall as [|? ? Hd Hrest].
      assert (Hm' : m < D \/ (m = 0 /\ D = 0)).
      { destruct day as [d|].
        - left. apply Hgap. by apply Hd.
        - right. subst D. simpl in *. lia. }
      assert (Hk' : k < L \/ (k = 0 /\ L = 0)).
      { destruct (Z_lt_le_dec 0 L) as [HL|HL]; [left; by apply Hkgap | right; lia]. }
      lia.
Qed.
